(** * notion-for-me: extraction, idempotency, inference and routing engine

  A shallow embedding of the JavaScript service modules
  (extractors, inference, parsers, project_info_extractor,
  project_page_updater, quick_todo_processor_v2 and the retry wrapper of
  notion_client) together with the properties checked against them.

  Conventions of the embedding.
  - A JavaScript string is a Rocq [string]: the sequence of its UTF-8
    bytes.  [includes], [startsWith], [split], [join] and [===] act on
    bytes exactly as on code points.  [toLowerCase] and [trim] are the
    ASCII ones: letters [A-Z] are folded and the blanks U+0009..U+000D and
    U+0020 are stripped; bytes above 127 are left alone.
  - Indices are [Z] where the source uses the [-1] sentinel.
  - Remote calls (document store, classification service, config file)
    are replayed from a script of replies and recorded in a log; an
    exception is the [Throw] outcome of the small monad [M] below.
  - [console.log] output is not modelled. *)

From Stdlib Require Import String Ascii List ZArith QArith Lia Lqa Bool Arith.
Import ListNotations.
Local Open Scope string_scope.
Local Open Scope Z_scope.

Set Implicit Arguments.

(* ================================================================== *)
(** ** JavaScript string primitives *)
(* ================================================================== *)

Module JS.

Definition isUpper (c : ascii) : bool :=
  let n := nat_of_ascii c in ((65 <=? n) && (n <=? 90))%nat.

Definition lowerChar (c : ascii) : ascii :=
  if isUpper c then ascii_of_nat (nat_of_ascii c + 32) else c.

(** [s.toLowerCase()] *)
Fixpoint toLowerCase (s : string) : string :=
  match s with
  | EmptyString => EmptyString
  | String c s' => String (lowerChar c) (toLowerCase s')
  end.

(** White space removed by [trim] and matched by [\s]. *)
Definition isSpace (c : ascii) : bool :=
  let n := nat_of_ascii c in (((9 <=? n) && (n <=? 13)) || (n =? 32))%nat.

Definition isEmpty (s : string) : bool :=
  match s with EmptyString => true | _ => false end.

(** [s.trimStart()] *)
Fixpoint trimStart (s : string) : string :=
  match s with
  | EmptyString => EmptyString
  | String c s' => if isSpace c then trimStart s' else s
  end.

(** [s.trimEnd()] *)
Fixpoint trimEnd (s : string) : string :=
  match s with
  | EmptyString => EmptyString
  | String c s' =>
      let r := trimEnd s' in
      if isSpace c && isEmpty r then EmptyString else String c r
  end.

(** [s.trim()] *)
Definition trim (s : string) : string := trimEnd (trimStart s).

(** [s.startsWith(p)] *)
Definition startsWith (s p : string) : bool := String.prefix p s.

(** [s.includes(needle)] *)
Fixpoint includes (s needle : string) : bool :=
  String.prefix needle s ||
  match s with
  | EmptyString => false
  | String _ s' => includes s' needle
  end.

(** [parts.join(sep)] *)
Definition join (sep : string) (parts : list string) : string :=
  String.concat sep parts.

(** [s.split(sep)] for a one-character separator. *)
Fixpoint split (sep : ascii) (s : string) : list string :=
  match s with
  | EmptyString => [EmptyString]
  | String c s' =>
      if Ascii.eqb c sep then EmptyString :: split sep s'
      else match split sep s' with
           | [] => [String c EmptyString]
           | w :: ws => String c w :: ws
           end
  end.

(** [s.substring(n)]: the string without its first [n] bytes. *)
Fixpoint dropStart (n : nat) (s : string) : string :=
  match n, s with
  | O, _ => s
  | S n', String _ s' => dropStart n' s'
  | S _, EmptyString => EmptyString
  end.

(** A JavaScript value used as a condition: a string is truthy iff it is
    not empty. *)
Definition truthy (s : string) : bool := negb (isEmpty s).

Definition LF : ascii := ascii_of_nat 10.
Definition SP : ascii := ascii_of_nat 32.

End JS.

(* ================================================================== *)
(** ** Content nodes *)
(* ================================================================== *)

(** A block of the document store.  [rich_text] holds the [plain_text] of
  every run of [block[block.type].rich_text]. *)
Record block : Type := mkBlock {
  id : string;
  type : string;
  rich_text : list string;
  checked : bool;
  has_children : bool
}.

(** [block[block.type].rich_text.map(t => t.plain_text).join('')] *)
Definition plainText (b : block) : string := JS.join "" (rich_text b).

Definition isHeading (b : block) : bool := JS.includes (type b) "heading".

Definition heading (txt : string) : block := mkBlock "" "heading_2" [txt] false false.
Definition paragraph (txt : string) : block := mkBlock "" "paragraph" [txt] false false.
Definition bullet (txt : string) : block := mkBlock "" "bulleted_list_item" [txt] false false.

(* ================================================================== *)
(** ** Section scanner (project_info_extractor.js) *)
(* ================================================================== *)

Module SectionScanner.

Record section : Type := mkSection {
  startIndex : Z;
  endIndex : Z;
  sectionHeading : option block
}.

(** The heading test of [findProjectInfoSection]. *)
Definition matchesProjectInfo (b : block) : bool :=
  let text := JS.trim (JS.toLowerCase (plainText b)) in
  JS.includes text "project information" || JS.includes text "project info".

(** The heading-scanning [for] loop, written three times in the source
    ([findProjectInfoSection], [extractSectionContent], [deleteSection])
    with a different test [matches] on the heading text.  It runs from index
    [i] on with the current value of the section index and yields the final
    [(sectionIndex, nextHeadingIndex)]. *)
Fixpoint scanFrom (matches : block -> bool) (blocks : list block) (i : Z)
  (sectionIndex : Z) : Z * Z :=
  match blocks with
  | [] => (sectionIndex, -1)
  | block :: rest =>
      if isHeading block then
        if matches block then
          (* sectionIndex = i; continue *)
          scanFrom matches rest (i + 1) i
        else if negb (sectionIndex =? -1) then
          (* nextHeadingIndex = i; break *)
          (sectionIndex, i)
        else scanFrom matches rest (i + 1) sectionIndex
      else scanFrom matches rest (i + 1) sectionIndex
  end.

Definition findProjectInfoSection (blocks : list block) : option section :=
  let '(projectInfoIndex, nextHeadingIndex) :=
    scanFrom matchesProjectInfo blocks 0 (-1) in
  if projectInfoIndex =? -1 then None
  else
    let nextHeadingIndex :=
      if nextHeadingIndex =? -1 then Z.of_nat (length blocks) else nextHeadingIndex in
    Some (mkSection projectInfoIndex nextHeadingIndex
            (nth_error blocks (Z.to_nat projectInfoIndex))).

(** [blocks[i]], undefined outside the array. *)
Definition blockAt (blocks : list block) (i : Z) : option block :=
  if i <? 0 then None else nth_error blocks (Z.to_nat i).

(** [text.replace(/^[-•]\s*/, '').trim()] *)
Definition stripBullet (text : string) : string :=
  match find (fun ch => String.prefix ch text) ["-"; "•"] with
  | Some ch => JS.trim (JS.trimStart (JS.dropStart (String.length ch) text))
  | None => JS.trim text
  end.

(** What one block adds to [bullets] in [extractInfoBullets]. *)
Definition bulletsOfBlock (block : block) : list string :=
  let text := JS.trim (plainText block) in
  ((* Extract from bulleted_list_item *)
   (if String.eqb (type block) "bulleted_list_item" && JS.truthy text
    then [text] else [])
   (* Also extract from numbered_list_item *)
   ++ (if String.eqb (type block) "numbered_list_item" && JS.truthy text
       then [text] else [])
   (* Extract from paragraph (in case user just typed lines) *)
   ++ (if String.eqb (type block) "paragraph" && JS.truthy text
          && (JS.startsWith text "-" || JS.startsWith text "•"
              || (10 <? Z.of_nat (String.length text)))
       then let cleaned := stripBullet text in
            if JS.truthy cleaned then [cleaned] else []
       else []))%list.

(** The loop [for (let i = startIndex + 1; i < endIndex; i++)] with
    [remaining] rounds to go; [None] is the TypeError raised by
    [block.type] when [blocks[i]] is undefined. *)
Fixpoint bulletsLoop (remaining : nat) (blocks : list block) (i : Z)
  (bullets : list string) : option (list string) :=
  match remaining with
  | O => Some bullets
  | S remaining' =>
      match blockAt blocks i with
      | None => None
      | Some block =>
          bulletsLoop remaining' blocks (i + 1) (bullets ++ bulletsOfBlock block)
      end
  end.

Definition extractInfoBullets (blocks : list block) (startIndex endIndex : Z)
  : option (list string) :=
  bulletsLoop (Z.to_nat (endIndex - (startIndex + 1))) blocks (startIndex + 1) [].

End SectionScanner.


(* ================================================================== *)
(** ** Extractors (extractors.js) *)
(* ================================================================== *)

Module Extractors.

Section LineKey.

(** [crypto.createHash('sha256').update(content).digest('hex')]: the digest
    is the platform's; the key generator is parametric in it. *)
Variable sha256hex : string -> string.

Definition generateLineKey (meetingId todoText : string) : string :=
  let normalized := JS.toLowerCase (JS.trim todoText) in
  let content := meetingId ++ ":" ++ normalized in
  sha256hex content.

End LineKey.

(** The properties of a meeting page read by [shouldProcessMeeting]:
    [page.properties.Processed?.checkbox],
    [page.properties['Last Processed']?.date?.start] and
    [page.last_edited_time]. *)
Record meetingPage : Type := mkMeetingPage {
  Processed : option bool;
  Last_Processed : option string;
  last_edited_time : string
}.

Section Reprocessing.

(** [new Date(s)]: the time value in milliseconds, [None] for an invalid
    date (whose time value is NaN). *)
Variable newDate : string -> option Z.

(** [a > b] on two [Date] objects: the comparison of their time values,
    false as soon as one of them is NaN. *)
Definition dateGt (a b : option Z) : bool :=
  match a, b with
  | Some x, Some y => y <? x
  | _, _ => false
  end.

Definition shouldProcessMeeting (page : meetingPage) : bool :=
  let processed := match Processed page with Some c => c | None => false end in
  let lastProcessed := Last_Processed page in
  let lastEdited := newDate (last_edited_time page) in
  (* Case 1: never processed *)
  if negb processed then true
  else
    (* Case 2: processed but edited after last processing *)
    match lastProcessed with
    | Some lp =>
        if JS.truthy lp then
          let lastProcessedDate := newDate lp in
          if dateGt lastEdited lastProcessedDate then true else false
        else false
    | None => false
    end.

End Reprocessing.

(** A to-do found on a page. *)
Record todo : Type := mkTodo {
  text : string;
  todoChecked : bool;
  blockId : string
}.

(** Extract to-do blocks from a page. *)
Fixpoint extractTodos (blocks : list block) : list todo :=
  match blocks with
  | [] => []
  | block :: rest =>
      if String.eqb (type block) "to_do" then
        let text := JS.trim (plainText block) in
        if JS.truthy text
        then mkTodo text (checked block) (id block) :: extractTodos rest
        else extractTodos rest
      else extractTodos rest
  end.

(** The title properties of a meeting page: the plain text of the runs of
    [properties.Title?.title] and of [properties.Name?.title]. *)
Record titledPage : Type := mkTitledPage {
  TitleRuns : option (list string);
  NameRuns : option (list string);
  ProjectSelect : option string
}.

Definition getMeetingTitle (page : titledPage) : string :=
  match TitleRuns page with
  | Some runs => JS.trim (JS.join "" runs)
  | None =>
      match NameRuns page with
      | Some runs => JS.trim (JS.join "" runs)
      | None => "[Untitled Meeting]"
      end
  end.

Definition getProjectFromPage (page : titledPage) : option string :=
  ProjectSelect page.

End Extractors.

(* ================================================================== *)
(** ** Parsers (parsers.js) *)
(* ================================================================== *)

Module Parsers.

Definition highKeywords : list string :=
  [ "urgent"; "asap"; "critical"; "emergency"; "immediately";
    "high priority"; "top priority"; "blocking"; "must have";
    "important"; "crucial" ].

Definition lowKeywords : list string :=
  [ "nice to have"; "when you can"; "low priority";
    "optional"; "future"; "someday"; "backlog";
    "eventually"; "if time" ].

(** [for (const keyword of keywords) if (textLower.includes(keyword)) count++] *)
Definition countMatches (textLower : string) (keywords : list string) : Z :=
  fold_left (fun count keyword =>
               if JS.includes textLower keyword then count + 1 else count)
            keywords 0.

Definition parsePriority (text : string) : string :=
  let textLower := JS.toLowerCase text in
  let highCount := countMatches textLower highKeywords in
  let lowCount := countMatches textLower lowKeywords in
  (* Strong evidence for high priority *)
  if (2 <=? highCount) || JS.includes textLower "high priority"
     || JS.includes textLower "urgent" then "High"
  (* Evidence for low priority *)
  else if (1 <=? lowCount) || JS.includes textLower "low priority" then "Low"
  (* Default *)
  else "Medium".

End Parsers.

(* ================================================================== *)
(** ** Project inference (inference.js) *)
(* ================================================================== *)

Module Inference.

(** [Object.entries(PROJECT_KEYWORDS)], in insertion order. *)
Definition PROJECT_KEYWORDS : list (string * list string) :=
  [ ("ClickUp", ["clickup"; "click up"; "click-up"; "cu"; "cuarc"]);
    ("Docebo", ["docebo"; "lms"; "learning management"; "cogent uni"; "uni"]);
    ("HubSpot", ["hubspot"; "crm"; "hs"; "hub spot"]);
    ("AI Sales", ["ai sales"; "retell"; "retellai"; "retell ai"; "sai"; "sales ai"]);
    ("Insider Knowledge", ["insider"; "insider knowledge"; "ik"; "merlin"]);
    ("PD OTN", ["pd"; "otn"; "pd otn"; "professional development"]);
    ("Podcast", ["podcast"; "episode"; "recording"; "riverside"]);
    ("Quarterly Economic Review", ["qer"; "economic review"; "quarterly"; "eco repo"]);
    ("Support/Other", []) ].

Record inference : Type := mkInference {
  project : string;
  confidence : Q
}.

(** [\w] *)
Definition isWordChar (c : ascii) : bool :=
  let n := nat_of_ascii c in
  (((48 <=? n) && (n <=? 57)) || ((65 <=? n) && (n <=? 90))
   || ((97 <=? n) && (n <=? 122)) || (n =? 95))%nat.

(** The longest prefix of word characters: what a greedy [\w+] consumes. *)
Fixpoint takeWord (s : string) : string :=
  match s with
  | EmptyString => EmptyString
  | String c s' => if isWordChar c then String c (takeWord s') else EmptyString
  end.

(** Does [s] start with [pat] up to the case of its letters ([/.../i])?
    [pat] is given in lower case. *)
Fixpoint prefixIgnoreCase (pat s : string) : bool :=
  match pat, s with
  | EmptyString, _ => true
  | String p pat', String c s' =>
      Ascii.eqb p (JS.lowerChar c) && prefixIgnoreCase pat' s'
  | String _ _, EmptyString => false
  end.

(** [text.match(/#proj:(\w+)/i)]: the capture group of the leftmost match,
    [None] when the pattern matches nowhere. *)
Fixpoint matchProjTag (text : string) : option string :=
  match text with
  | EmptyString => None
  | String _ rest =>
      if prefixIgnoreCase "#proj:" text then
        let word := takeWord (JS.dropStart 6 text) in
        if JS.isEmpty word then matchProjTag rest else Some word
      else matchProjTag rest
  end.

(** [project.toLowerCase().includes(projectName) ||
     keywords.some(kw => kw.includes(projectName))] *)
Definition tagMatches (projectName : string) (entry : string * list string) : bool :=
  let '(project, keywords) := entry in
  JS.includes (JS.toLowerCase project) projectName
  || existsb (fun kw => JS.includes kw projectName) keywords.

(** The inner [for] over [Object.entries(PROJECT_KEYWORDS)]. *)
Definition lookupTag (projectName : string) : option inference :=
  match find (tagMatches projectName) PROJECT_KEYWORDS with
  | Some (project, _) => Some (mkInference project 1)
  | None => None
  end.

Fixpoint extractHashtagProject (blocks : list block) : option inference :=
  match blocks with
  | [] => None
  | block :: rest =>
      if String.eqb (type block) "paragraph" then
        let text := plainText block in
        match matchProjTag text with
        | Some m =>
            let projectName := JS.toLowerCase m in
            match lookupTag projectName with
            | Some r => Some r
            | None => extractHashtagProject rest
            end
        | None => extractHashtagProject rest
        end
      else extractHashtagProject rest
  end.

(** The title loop of [inferProject] over the entries of the table. *)
Fixpoint inferFromTitle (titleLower : string) (entries : list (string * list string))
  : option inference :=
  match entries with
  | [] => None
  | (project, keywords) :: rest =>
      if String.eqb project "Support/Other" then inferFromTitle titleLower rest
      else if existsb (fun keyword => JS.includes titleLower keyword) keywords
      then Some (mkInference project (8 # 10))
      else inferFromTitle titleLower rest
  end.

Definition inferProject (meetingTitle : string) (blocks : list block) : inference :=
  (* First check for hashtag override *)
  match extractHashtagProject blocks with
  | Some hashtagProject => hashtagProject
  | None =>
      let titleLower := JS.toLowerCase meetingTitle in
      match inferFromTitle titleLower PROJECT_KEYWORDS with
      | Some r => r
      | None => mkInference "Support/Other" 0
      end
  end.

(** [confidence < threshold] *)
Definition needsReview (confidence threshold : Q) : bool :=
  negb (Qle_bool threshold confidence).

End Inference.


(* ================================================================== *)
(** ** Remote calls: replies, log and exceptions *)
(* ================================================================== *)

Module Remote.

(** A thrown JavaScript error: [error.code], [error.status] (0 when the
    error carries none) and [error.message]. *)
Record jsError : Type := mkError {
  code : string;
  status : Z;
  message : string
}.

(** A property value written to a page. *)
Inductive propertyValue : Type :=
| TitleValue (content : string)
| SelectValue (name : string)
| DateValue (start : string).

Definition properties : Type := list (string * propertyValue).

(** One task returned by [openai.parseQuickTodo]. *)
Record parsedTask : Type := mkParsedTask {
  title : string;
  project : option string;
  priority : string;
  due : option string;
  context : option string
}.

(** The result of [openai.categorizeProjectInfo]. *)
Record bundle : Type := mkBundle {
  credentials : list string;
  contacts : list string;
  links : list string;
  decisions : list string;
  other : list string
}.

(** The fields of [CA_V2_CONFIG.json] that the engine reads. *)
Record config : Type := mkConfig {
  tasksDbId : string;
  projectsDbId : string
}.

(** The calls that leave the process. *)
Inductive request : Type :=
| GetAllBlocksRecursive (pageId : string)
| GetTopLevelBlocks (pageId : string)
| BlocksDelete (block_id : string)
| BlocksChildrenAppend (block_id : string) (children : list block) (after : string)
| PagesArchive (page_id : string)
| UpdatePage (pageId : string) (props : properties)
| CreatePage (databaseId : string) (props : properties)
| ReadConfig
| QueryByName (databaseId : string) (name : string)
| ParseQuickTodo (todoText : string)
| CategorizeProjectInfo (bullets : list string)
| Invoke (operation : string).

(** What such a call resolves to, or the error it rejects with. *)
Inductive response : Type :=
| Done
| Blocks (blocks : list block)
| Results (ids : list string)
| Config (cfg : config)
| Parsed (tasks : option (list parsedTask))
| Categorized (b : bundle)
| Value (v : string)
| Raised (error : jsError).

Inductive event : Type :=
| Called (rq : request) (rs : response)
| Slept (ms : Q).

(** The replies still to come, the values [Math.random()] will return, and
    what has happened so far. *)
Record state : Type := mkState {
  script : list response;
  randoms : list Q;
  log : list event
}.

Inductive outcome (A : Type) : Type :=
| Returned (a : A)
| Thrown (error : jsError)
| OutOfFuel.

Arguments Thrown {A} error.
Arguments OutOfFuel {A}.

Definition M (A : Type) : Type := state -> outcome A * state.

Definition ret {A} (a : A) : M A := fun st => (Returned a, st).

Definition bind {A B} (m : M A) (k : A -> M B) : M B :=
  fun st =>
    match m st with
    | (Returned a, st') => k a st'
    | (Thrown e, st') => (Thrown e, st')
    | (OutOfFuel, st') => (OutOfFuel, st')
    end.

Definition throw {A} (e : jsError) : M A := fun st => (Thrown e, st).

Definition outOfFuel {A} : M A := fun st => (OutOfFuel, st).

(** [try { m } catch (error) { handler(error) }] *)
Definition tryCatch {A} (m : M A) (handler : jsError -> M A) : M A :=
  fun st =>
    match m st with
    | (Thrown e, st') => handler e st'
    | r => r
    end.

(** The error seen when the script of replies has run out. *)
Definition connectionLost : jsError := mkError "ECONNRESET" 0 "socket hang up".

(** The error raised by code that receives a reply of the wrong shape. *)
Definition typeError : jsError := mkError "" 0 "TypeError".

(** Perform one remote call: take the next reply and record both. *)
Definition call (rq : request) : M response :=
  fun st =>
    let '(rs, rest) :=
      match script st with
      | [] => (Raised connectionLost, [])
      | rs :: rest => (rs, rest)
      end in
    (Returned rs, mkState rest (randoms st) (log st ++ [Called rq rs])).

(** [await new Promise(resolve => setTimeout(resolve, ms))] *)
Definition sleep (ms : Q) : M unit :=
  fun st => (Returned tt, mkState (script st) (randoms st) (log st ++ [Slept ms])).

(** [Math.random()] *)
Definition random : M Q :=
  fun st =>
    match randoms st with
    | [] => (Returned 0%Q, st)
    | r :: rest => (Returned r, mkState (script st) rest (log st))
    end.

End Remote.

Import Remote.

Declare Scope js_scope.
Delimit Scope js_scope with js.
Notation "x <- m ;; k" := (bind m (fun x => k))
  (at level 61, m at next level, right associativity) : js_scope.
Notation "m ;;; k" := (bind m (fun _ => k))
  (at level 61, right associativity) : js_scope.
Local Open Scope js_scope.

(** [for (const x of xs) { body(x) }] *)
Fixpoint forEach {A} (xs : list A) (body : A -> M unit) : M unit :=
  match xs with
  | [] => ret tt
  | x :: rest => body x ;;; forEach rest body
  end.

(** A call whose resolved value the caller does not use. *)
Definition perform (rq : request) : M unit :=
  rs <- call rq ;;
  match rs with
  | Raised e => throw e
  | _ => ret tt
  end.

(* ================================================================== *)
(** ** Resilient remote call wrapper (notion_client.js) *)
(* ================================================================== *)

Module NotionClient.

(** Rate limiting: 350ms delay between requests. *)
Definition RATE_LIMIT_DELAY : Q := 350.
Definition MAX_RETRIES : nat := 5.

(** [Math.min(1000 * Math.pow(2, attempt), 10000)] *)
Definition baseDelay (attempt : Z) : Z := Z.min (1000 * 2 ^ attempt) 10000.

(** Exponential backoff with jitter. *)
Definition getBackoffDelay (attempt : Z) : M Q :=
  r <- random ;;
  let jitter := (r * 1000)%Q in
  ret (inject_Z (baseDelay attempt) + jitter)%Q.

(** [error.code === 'rate_limited' || error.status === 429] *)
Definition isRateLimited (error : jsError) : bool :=
  String.eqb (code error) "rate_limited" || (status error =? 429).

(** What [throw lastError] throws while [lastError] is still undefined. *)
Definition undefinedThrown : jsError := mkError "" 0 "undefined".

(** The [for] loop of [apiCall] with [remaining = MAX_RETRIES - attempt]
    iterations left. *)
Fixpoint apiCallLoop {A} (remaining : nat) (attempt : Z) (lastError : option jsError)
  (fn : M A) : M A :=
  match remaining with
  | O =>
      match lastError with
      | Some e => throw e
      | None => throw undefinedThrown
      end
  | S remaining' =>
      r <- tryCatch
             (sleep RATE_LIMIT_DELAY ;;;
              v <- fn ;;
              ret (inl v))
             (fun error =>
                if isRateLimited error then
                  backoffDelay <- getBackoffDelay attempt ;;
                  sleep backoffDelay ;;;
                  (* continue *)
                  ret (inr error)
                else
                  (* Don't retry on other errors *)
                  throw error) ;;
      match r with
      | inl v => ret v
      | inr error => apiCallLoop remaining' (attempt + 1) (Some error) fn
      end
  end.

Definition apiCall {A} (fn : M A) : M A := apiCallLoop MAX_RETRIES 0 None fn.

(** The exported operations of the client, taken at the module boundary:
    one reply stands for the whole wrapped call. *)
Definition getBlocksLike (rq : request) : M (list block) :=
  rs <- call rq ;;
  match rs with
  | Blocks blocks => ret blocks
  | Raised e => throw e
  | _ => throw typeError
  end.

Definition getAllBlocksRecursive (pageId : string) : M (list block) :=
  getBlocksLike (GetAllBlocksRecursive pageId).

Definition getTopLevelBlocks (pageId : string) : M (list block) :=
  getBlocksLike (GetTopLevelBlocks pageId).

Definition updatePage (pageId : string) (props : properties) : M unit :=
  perform (UpdatePage pageId props).

Definition createPage (databaseId : string) (props : properties) : M unit :=
  perform (CreatePage databaseId props).

Definition queryByName (databaseId name : string) : M (list string) :=
  rs <- call (QueryByName databaseId name) ;;
  match rs with
  | Results ids => ret ids
  | Raised e => throw e
  | _ => throw typeError
  end.

(** [JSON.parse(await readFile('./CA_V2_CONFIG.json', 'utf-8'))] *)
Definition loadConfig : M config :=
  rs <- call ReadConfig ;;
  match rs with
  | Config cfg => ret cfg
  | Raised e => throw e
  | _ => throw typeError
  end.

(** A call of the SDK as it is handed to [apiCall], e.g.
    [() => notion.pages.retrieve({ page_id: pageId })]: it resolves to the
    reply or rejects with the error of the reply. *)
Definition invoke (operation : string) : M response :=
  rs <- call (Invoke operation) ;;
  match rs with
  | Raised e => throw e
  | _ => ret rs
  end.

End NotionClient.

(* ================================================================== *)
(** ** Classification service (openai_client.js), the function bodies *)
(* ================================================================== *)

Module OpenAIClient.

(** The object that [JSON.parse] makes of a categorization reply: a
    category that is missing (or falsy) is [None]. *)
Record rawBundle : Type := mkRawBundle {
  rawCredentials : option (list string);
  rawContacts : option (list string);
  rawLinks : option (list string);
  rawDecisions : option (list string);
  rawOther : option (list string)
}.

(** A task object of a parsed reply, every field optional. *)
Record rawTask : Type := mkRawTask {
  rawTitle : option string;
  rawProject : option string;
  rawPriority : option string;
  rawDue : option string;
  rawContext : option string
}.

(** The object that [JSON.parse] makes of a task reply: [result.tasks]
    when it is an array, and the fields of the top level read as one
    task. *)
Record rawParse : Type := mkRawParse {
  rawTasks : option (list rawTask);
  rawTop : rawTask
}.

(** What [parseQuickTodo] returns: [{ tasks: [...] }], or the bare task of
    its error path, an object without a [tasks] field. *)
Inductive parsed : Type :=
| WithTasks (tasks : list parsedTask)
| BareTask (task : parsedTask).

(** [parsed.tasks] *)
Definition tasksField (p : parsed) : option (list parsedTask) :=
  match p with
  | WithTasks tasks => Some tasks
  | BareTask _ => None
  end.

(** [x || []] *)
Definition orNil (x : option (list string)) : list string :=
  match x with
  | Some items => items
  | None => []
  end.

(** [x || d] on strings *)
Definition orElse (x : option string) (d : string) : string :=
  match x with
  | Some s => if JS.truthy s then s else d
  | None => d
  end.

(** [x || null] on strings *)
Definition orNull (x : option string) : option string :=
  match x with
  | Some s => if JS.truthy s then Some s else None
  | None => None
  end.

(** The error of [JSON.parse] on a content that is no JSON. *)
Definition syntaxError : jsError := mkError "" 0 "SyntaxError".

Definition emptyTextError : jsError := mkError "" 0 "Todo text cannot be empty".

(** [error.status === 429 || error.code === 'ETIMEDOUT'] *)
Definition isRetryable (error : jsError) : bool :=
  (status error =? 429) || String.eqb (code error) "ETIMEDOUT".

Definition RETRY_DELAY : Q := 2000.

Section Json.

(** [JSON.parse] of the content of a reply, read at the fields that the
    two functions use; [None] when it throws. *)
Variable parseCategories : string -> option rawBundle.
Variable parseTasks : string -> option rawParse.

(** [categorizeProjectInfo] calls itself from its [catch] block; [fuel]
    bounds the nesting of these calls. *)
Fixpoint categorizeFuel (fuel : nat) (bullets : list string) : M bundle :=
  match fuel with
  | O => outOfFuel
  | S fuel' =>
      match bullets with
      | [] => ret (mkBundle [] [] [] [] [])
      | _ :: _ =>
          tryCatch
            (rs <- call (CategorizeProjectInfo bullets) ;;
             match rs with
             | Value content =>
                 match parseCategories content with
                 | Some result =>
                     (* Ensure all categories exist *)
                     ret (mkBundle (orNil (rawCredentials result))
                                   (orNil (rawContacts result))
                                   (orNil (rawLinks result))
                                   (orNil (rawDecisions result))
                                   (orNil (rawOther result)))
                 | None => throw syntaxError
                 end
             | Raised e => throw e
             | _ => throw typeError
             end)
            (fun error =>
               if isRetryable error then
                 sleep RETRY_DELAY ;;;
                 categorizeFuel fuel' bullets
               else
                 (* On other errors, return all items as "other" *)
                 ret (mkBundle [] [] [] [] bullets))
      end
  end.

(** Every nested call follows a reply that was consumed, so the replies
    that are left bound the nesting. *)
Definition categorizeProjectInfo (bullets : list string) : M bundle :=
  fun st => categorizeFuel (S (length (script st))) bullets st.

(** [{ title: task.title || todoText, project: task.project || null, ... }] *)
Definition withDefaults (todoText : string) (task : rawTask) : parsedTask :=
  mkParsedTask (orElse (rawTitle task) todoText)
               (orNull (rawProject task))
               (orElse (rawPriority task) "Medium")
               (orNull (rawDue task))
               (orNull (rawContext task)).

Fixpoint parseFuel (fuel : nat) (todoText : string) : M parsed :=
  match fuel with
  | O => outOfFuel
  | S fuel' =>
      if negb (JS.truthy todoText) || (String.length (JS.trim todoText) =? 0)%nat
      then throw emptyTextError
      else
        tryCatch
          (rs <- call (ParseQuickTodo todoText) ;;
           match rs with
           | Value content =>
               match parseTasks content with
               | Some result =>
                   match rawTasks result with
                   | Some tasks =>
                       (* Return tasks array *)
                       ret (WithTasks (map (withDefaults todoText) tasks))
                   | None =>
                       (* Fallback to single task format *)
                       ret (WithTasks [withDefaults todoText (rawTop result)])
                   end
               | None => throw syntaxError
               end
           | Raised e => throw e
           | _ => throw typeError
           end)
          (fun error =>
             if isRetryable error then
               sleep RETRY_DELAY ;;;
               parseFuel fuel' todoText
             else
               (* On other errors, return basic parsed todo *)
               ret (BareTask (mkParsedTask todoText None "Medium" None None)))
  end.

Definition parseQuickTodo (todoText : string) : M parsed :=
  fun st => parseFuel (S (length (script st))) todoText st.

End Json.

End OpenAIClient.

(* ================================================================== *)
(** ** Classification service (openai_client.js), at its contract *)
(* ================================================================== *)

Module OpenAI.

(** [parsed.tasks] of the reply, [None] when the reply has no such field
    (the fallback object returned after a failed request). *)
Definition parseQuickTodo (todoText : string) : M (option (list parsedTask)) :=
  rs <- call (ParseQuickTodo todoText) ;;
  match rs with
  | Parsed tasks => ret tasks
  | Raised e => throw e
  | _ => throw typeError
  end.

Definition categorizeProjectInfo (bullets : list string) : M bundle :=
  rs <- call (CategorizeProjectInfo bullets) ;;
  match rs with
  | Categorized b => ret b
  | Raised e => throw e
  | _ => throw typeError
  end.

End OpenAI.

(* ================================================================== *)
(** ** Project-information extraction (project_info_extractor.js) *)
(* ================================================================== *)

Module ProjectInfo.

(** The bullets of the section of [blocks], as both functions below
    compute them; [extractInfoBullets] throws when it reads past the
    blocks. *)
Definition sectionBullets (blocks : list block) (section : SectionScanner.section)
  : M (list string) :=
  match SectionScanner.extractInfoBullets blocks
          (SectionScanner.startIndex section) (SectionScanner.endIndex section) with
  | Some bullets => ret bullets
  | None => throw typeError
  end.

Definition extractAndCategorize (meetingPageId : string) : M (option bundle) :=
  tryCatch
    (blocks <- NotionClient.getAllBlocksRecursive meetingPageId ;;
     match SectionScanner.findProjectInfoSection blocks with
     | None => ret None
     | Some section =>
         bullets <- sectionBullets blocks section ;;
         match bullets with
         | [] => ret None
         | _ :: _ =>
             categorized <- OpenAI.categorizeProjectInfo bullets ;;
             ret (Some categorized)
         end
     end)
    (fun _ => ret None).

Definition hasProjectInfo (meetingPageId : string) : M bool :=
  tryCatch
    (blocks <- NotionClient.getAllBlocksRecursive meetingPageId ;;
     match SectionScanner.findProjectInfoSection blocks with
     | None => ret false
     | Some section =>
         bullets <- sectionBullets blocks section ;;
         ret (0 <? Z.of_nat (length bullets))
     end)
    (fun _ => ret false).

End ProjectInfo.

(* ================================================================== *)
(** ** Categorization routing engine (project_page_updater.js) *)
(* ================================================================== *)

Module ProjectPage.

Definition CREDENTIALS : string := "🔑 Credentials & Access".
Definition CONTACTS : string := "👥 Key Contacts".
Definition LINKS : string := "🔗 Important Links".
Definition DECISIONS : string := "💡 Project Context & Decisions".

Definition findProjectPage (projectName : string) : M (option string) :=
  tryCatch
    (config <- NotionClient.loadConfig ;;
     results <- NotionClient.queryByName (projectsDbId config) projectName ;;
     match results with
     | [] => ret None
     | pageId :: _ => ret (Some pageId)
     end)
    (fun _ => ret None).

Definition formatEntry (content meetingTitle meetingId : string) : string := content.

(** [sectionHeading.split(' ').slice(1).join(' ')] *)
Definition headingTail (sectionHeading : string) : string :=
  JS.join " " (tl (JS.split JS.SP sectionHeading)).

(** The test applied to each top-level block while looking for the section
    heading. *)
Definition matchesSection (sectionHeading : string) (block : block) : bool :=
  isHeading block &&
  (let text := JS.trim (plainText block) in
   String.eqb text sectionHeading || JS.includes text (headingTail sectionHeading)).

(** [for (const block of blocks) ... { sectionBlock = block; break; }] *)
Definition findSectionBlock (sectionHeading : string) (blocks : list block) : option block :=
  find (matchesSection sectionHeading) blocks.

(** [line.trim().replace(/^-\s*/, '')] *)
Definition cleanLine (line : string) : string :=
  match JS.trim line with
  | String "-" rest => JS.trimStart rest
  | t => t
  end.

(** One bulleted list item per non-blank line of [content]. *)
Definition bulletBlocks (content : string) : list block :=
  let lines := filter (fun line => JS.truthy (JS.trim line)) (JS.split JS.LF content) in
  map (fun line => bullet (cleanLine line)) lines.

(** [error.code === 'notionhq_client_request_timeout' || error.status === 429] *)
Definition retryable (error : jsError) : bool :=
  String.eqb (code error) "notionhq_client_request_timeout" || (status error =? 429).

(** [appendToSection], recursive on itself for the fallback section and
    for the retries; [fuel] bounds the depth of the recursion. *)
Fixpoint appendToSectionFuel (fuel : nat) (pageId sectionHeading content : string)
  (fallbackSection : option string) (retryCount : Z) : M bool :=
  match fuel with
  | O => outOfFuel
  | S fuel' =>
      tryCatch
        (blocks <- NotionClient.getTopLevelBlocks pageId ;;
         match findSectionBlock sectionHeading blocks with
         | None =>
             match fallbackSection with
             | Some fallback =>
                 if JS.truthy fallback && negb (String.eqb sectionHeading fallback) then
                   (* No further fallback *)
                   appendToSectionFuel fuel' pageId fallback content None retryCount
                 else ret false
             | None => ret false
             end
         | Some sectionBlock =>
             perform (BlocksChildrenAppend pageId (bulletBlocks content) (id sectionBlock)) ;;;
             ret true
         end)
        (fun error =>
           if retryable error && (retryCount <? 2) then
             let waitTime := (retryCount + 1) * 3000 in
             sleep (inject_Z waitTime) ;;;
             appendToSectionFuel fuel' pageId sectionHeading content fallbackSection
               (retryCount + 1)
           else ret false)
  end.

(** Depth that the recursion cannot exceed: two levels per remaining retry
    and one for the fallback. *)
Definition appendFuel (retryCount : Z) : nat := 2 * Z.to_nat (2 - retryCount) + 2.

Definition appendToSection (pageId sectionHeading content : string)
  (fallbackSection : option string) (retryCount : Z) : M bool :=
  appendToSectionFuel (appendFuel retryCount) pageId sectionHeading content
    fallbackSection retryCount.

(** The default value of the parameter [fallbackSection]. *)
Definition defaultFallback : option string := Some DECISIONS.

(** [for (const item of items) { ...; if (success) successCount++; }] *)
Fixpoint appendEach (pageId sectionHeading meetingTitle meetingId : string)
  (items : list string) (successCount : Z) : M Z :=
  match items with
  | [] => ret successCount
  | item :: rest =>
      let formatted := formatEntry item meetingTitle meetingId in
      success <- appendToSection pageId sectionHeading formatted defaultFallback 0 ;;
      appendEach pageId sectionHeading meetingTitle meetingId rest
        (if success then successCount + 1 else successCount)
  end.

(** The joined block of the decisions and of the uncategorized items. *)
Definition appendJoined (pageId : string) (items : list string) (successCount : Z) : M Z :=
  match items with
  | [] => ret successCount
  | _ :: _ =>
      let joined := JS.join (String JS.LF "") items in
      success <- appendToSection pageId DECISIONS joined defaultFallback 0 ;;
      ret (if success then successCount + 1 else successCount)
  end.

Definition updateProjectPage (projectName : string) (categorized : bundle)
  (meetingTitle meetingId : string) : M bool :=
  tryCatch
    (pageId <- findProjectPage projectName ;;
     match pageId with
     | None => ret false
     | Some pageId =>
         let successCount := 0 in
         successCount <- appendEach pageId CREDENTIALS meetingTitle meetingId
                           (credentials categorized) successCount ;;
         successCount <- appendEach pageId CONTACTS meetingTitle meetingId
                           (contacts categorized) successCount ;;
         successCount <- appendEach pageId LINKS meetingTitle meetingId
                           (links categorized) successCount ;;
         successCount <- appendJoined pageId (decisions categorized) successCount ;;
         successCount <- appendJoined pageId (other categorized) successCount ;;
         ret (0 <? successCount)
     end)
    (fun _ => ret false).

End ProjectPage.

(* ================================================================== *)
(** ** Quick-entry dual-channel state machine (quick_todo_processor_v2.js) *)
(* ================================================================== *)

Module QuickTodo.

(** The two section headings, byte for byte as the source file spells
    them. *)
Definition TASK : string := "ðŸ“‹ Task".
Definition PROJECT_INFO : string := "ðŸ“Œ Project Info".

(** The characters of the class [[ðŸ“‹ðŸ“Œ]]. *)
Definition markerChars : list string := ["ð"; "Ÿ"; "“"; "‹"; "Œ"].

(** Remove every occurrence of a character of [chars]; [skip] counts the
    bytes of the current occurrence still to drop. *)
Fixpoint removeChars (chars : list string) (skip : nat) (s : string) : string :=
  match s with
  | EmptyString => EmptyString
  | String c rest =>
      match skip with
      | S k => removeChars chars k rest
      | O =>
          match find (fun ch => String.prefix ch s) chars with
          | Some ch => removeChars chars (String.length ch - 1) rest
          | None => String c (removeChars chars 0 rest)
          end
      end
  end.

(** [sectionHeading.replace(/[ðŸ“‹ðŸ“Œ]/g, '').trim()] *)
Definition bareHeading (sectionHeading : string) : string :=
  JS.trim (removeChars markerChars 0 sectionHeading).

(** The heading test of [extractSectionContent] and [deleteSection]. *)
Definition matchesHeading (sectionHeading : string) (block : block) : bool :=
  let text := JS.trim (plainText block) in
  JS.includes text sectionHeading || JS.includes text (bareHeading sectionHeading).

(** [blocks[from], ..., blocks[to - 1]] *)
Definition slice (blocks : list block) (from to : Z) : list block :=
  firstn (Z.to_nat (to - from)) (skipn (Z.to_nat from) blocks).

(** One round of the content loop of [extractSectionContent]. *)
Definition addContent (content : string) (block : block) : string :=
  if String.eqb (type block) "divider" then content
  else
    let text := JS.trim (plainText block) in
    let content :=
      if String.eqb (type block) "paragraph" && JS.truthy text
      then content ++ text ++ String JS.LF "" else content in
    let content :=
      if isHeading block && JS.truthy text
      then content ++ text ++ String JS.LF "" else content in
    let content :=
      if String.eqb (type block) "bulleted_list_item" && JS.truthy text
      then content ++ "- " ++ text ++ String JS.LF "" else content in
    content.

Definition extractSectionContent (blocks : list block) (sectionHeading : string) : string :=
  let '(sectionIndex, nextHeadingIndex) :=
    SectionScanner.scanFrom (matchesHeading sectionHeading) blocks 0 (-1) in
  if sectionIndex =? -1 then ""
  else
    let endIndex :=
      if nextHeadingIndex =? -1 then Z.of_nat (length blocks) else nextHeadingIndex in
    let content := fold_left addContent (slice blocks (sectionIndex + 1) endIndex) "" in
    JS.trim content.

Definition deleteSection (pageId sectionHeading : string) : M bool :=
  tryCatch
    (blocks <- NotionClient.getAllBlocksRecursive pageId ;;
     let '(sectionIndex, nextHeadingIndex) :=
       SectionScanner.scanFrom (matchesHeading sectionHeading) blocks 0 (-1) in
     if sectionIndex =? -1 then
       (* Already gone, that's fine *)
       ret true
     else
       let endIndex :=
         if nextHeadingIndex =? -1 then Z.of_nat (length blocks) else nextHeadingIndex in
       forEach (slice blocks sectionIndex endIndex)
         (fun block =>
            tryCatch (perform (BlocksDelete (id block))) (fun _ => ret tt)) ;;;
       ret true)
    (fun _ => ret false).

(** The properties of a task page read by the processor:
    [properties.Title?.title] (the plain text of its runs) and the
    [select] / [date] values of Project, Priority, Due and Status. *)
Record taskPage : Type := mkTaskPage {
  page_id : string;
  Title : option (list string);
  Project : option string;
  Priority : option string;
  Due : option string;
  Status : option string
}.

Record result : Type := mkResult {
  taskCreated : bool;
  projectInfoRouted : bool;
  pageDeleted : bool
}.

Definition isSet {A} (o : option A) : bool :=
  match o with Some _ => true | None => false end.

Definition truthyOpt (o : option string) : bool :=
  match o with Some s => JS.truthy s | None => false end.

Definition strLength (s : string) : Z := Z.of_nat (String.length s).

(** [!currentTitleText || currentTitleText.length < 5 ||
     currentTitleText.toLowerCase().includes('untitled')] *)
Definition hasMinimalTitle (page : taskPage) : bool :=
  let currentTitle := match Title page with Some t => t | None => [] end in
  let currentTitleText := JS.trim (JS.join "" currentTitle) in
  negb (JS.truthy currentTitleText) || (strLength currentTitleText <? 5)
  || JS.includes (JS.toLowerCase currentTitleText) "untitled".

Definition orEmpty (o : option string) : string :=
  match o with Some s => s | None => "" end.

(** The [updates] object built from the first parsed task, in insertion
    order. *)
Definition buildUpdates (page : taskPage) (firstTask : parsedTask) : properties :=
  ((if hasMinimalTitle page then [("Title", TitleValue (title firstTask))] else [])
   ++ (if negb (isSet (Project page)) && truthyOpt (project firstTask)
       then [("Project", SelectValue (orEmpty (project firstTask)))] else [])
   ++ (if negb (isSet (Priority page))
       then [("Priority", SelectValue (priority firstTask))] else [])
   ++ (if negb (isSet (Due page)) && truthyOpt (due firstTask)
       then [("Due", DateValue (orEmpty (due firstTask)))] else [])
   ++ (if negb (isSet (Status page))
       then [("Status", SelectValue "Backlog")] else []))%list.

(** The properties of an additional task created as a new page. *)
Definition newTaskProperties (task : parsedTask) : properties :=
  ([("Title", TitleValue (title task));
    ("Status", SelectValue "Backlog");
    ("Priority", SelectValue (priority task))]
   ++ (if truthyOpt (due task) then [("Due", DateValue (orEmpty (due task)))] else [])
   ++ (if truthyOpt (project task)
       then [("Project", SelectValue (orEmpty (project task)))] else []))%list.

(** How a step of [processQuickTodo] ends: the function goes on with a
    value, or it returns at once. *)
Inductive step (A : Type) : Type :=
| Continue (a : A)
| ReturnNow (r : option result).

Arguments ReturnNow {A} r.

(** STEP 1: process the Task section (if filled); yields [taskSuccess]. *)
Definition processTaskSection (page : taskPage) (taskContent : string) : M (step bool) :=
  let pageId := page_id page in
  if JS.truthy taskContent && (3 <? strLength taskContent) then
    tryCatch
      (parsed <- OpenAI.parseQuickTodo taskContent ;;
       let tasks := match parsed with Some ts => ts | None => [] end in
       match tasks with
       | [] => ret (ReturnNow None)
       | firstTask :: additional =>
           let updates := buildUpdates page firstTask in
           (match updates with
            | [] => ret tt
            | _ :: _ => NotionClient.updatePage pageId updates
            end) ;;;
           (* Create additional tasks as new pages *)
           (match additional with
            | [] => ret tt
            | _ :: _ =>
                config <- NotionClient.loadConfig ;;
                let tasksDbId := tasksDbId config in
                forEach additional
                  (fun task =>
                     tryCatch
                       (NotionClient.createPage tasksDbId (newTaskProperties task))
                       (fun _ => ret tt))
            end) ;;;
           ret (Continue true)
       end)
      (fun _ => ret (Continue false))
  else ret (Continue false).

(** The characters of the class [[-â€¢]]. *)
Definition bulletMarks : list string := ["-"; "â"; "€"; "¢"].

(** [line.replace(/^[-â€¢]\s*/, '').trim()] *)
Definition stripBulletMark (line : string) : string :=
  match find (fun ch => String.prefix ch line) bulletMarks with
  | Some ch => JS.trim (JS.trimStart (JS.dropStart (String.length ch) line))
  | None => JS.trim line
  end.

Definition bulletsOf (projectInfoContent : string) : list string :=
  filter (fun line => 0 <? strLength line)
    (map stripBulletMark (JS.split JS.LF projectInfoContent)).

Definition projectKeywords : list (string * list string) :=
  [ ("ClickUp", ["clickup"; "click up"]);
    ("HubSpot", ["hubspot"; "hub spot"]);
    ("Docebo", ["docebo"]);
    ("AI Sales", ["ai sales"; "retell"]);
    ("Insider Knowledge", ["insider"; "merlin"]);
    ("PD OTN", ["pd otn"; "otn"]);
    ("Podcast", ["podcast"]);
    ("Quarterly Economic Review", ["qer"; "economic"]) ].

Definition detectProject (allContent : string) : string :=
  match find (fun entry => existsb (fun kw => JS.includes allContent kw) (snd entry))
             projectKeywords with
  | Some (project, _) => project
  | None => "Support/Other"
  end.

(** STEP 2: process the Project Info section (if filled); yields
    [projectInfoSuccess]. *)
Definition processProjectInfoSection (pageId projectInfoContent : string) : M bool :=
  if JS.truthy projectInfoContent && (5 <? strLength projectInfoContent) then
    tryCatch
      (let bullets := bulletsOf projectInfoContent in
       match bullets with
       | [] => ret false
       | _ :: _ =>
           categorized <- OpenAI.categorizeProjectInfo bullets ;;
           let allContent := JS.toLowerCase (JS.join " " bullets) in
           let detectedProject := detectProject allContent in
           let meetingTitle := "Quick Info Entry" in
           updated <- ProjectPage.updateProjectPage detectedProject categorized
                        meetingTitle pageId ;;
           ret updated
       end)
      (fun _ => ret false)
  else ret false.

(** STEP 3: cleanup (only after successful processing). *)
Definition cleanup (pageId taskContent projectInfoContent : string)
  (taskSuccess projectInfoSuccess : bool) : M (option result) :=
  if taskSuccess || projectInfoSuccess then
    (* Scenario A: both sections filled *)
    if JS.truthy taskContent && JS.truthy projectInfoContent
       && taskSuccess && projectInfoSuccess then
      deleteSection pageId PROJECT_INFO ;;;
      ret (Some (mkResult true true false))
    (* Scenario B: only Project Info filled *)
    else if negb (JS.truthy taskContent) && JS.truthy projectInfoContent
            && projectInfoSuccess then
      tryCatch
        (perform (PagesArchive pageId) ;;;
         ret (Some (mkResult false true true)))
        (fun _ => ret (Some (mkResult false true false)))
    (* Scenario C: only Task filled *)
    else if JS.truthy taskContent && negb (JS.truthy projectInfoContent)
            && taskSuccess then
      deleteSection pageId PROJECT_INFO ;;;
      ret (Some (mkResult true false false))
    else ret (Some (mkResult taskSuccess projectInfoSuccess false))
  else
    (* Processing failed, not cleaning up *)
    ret None.

Definition processQuickTodo (page : taskPage) : M (option result) :=
  tryCatch
    (let pageId := page_id page in
     blocks <- NotionClient.getAllBlocksRecursive pageId ;;
     let taskContent := extractSectionContent blocks TASK in
     let projectInfoContent := extractSectionContent blocks PROJECT_INFO in
     if negb (JS.truthy taskContent) && negb (JS.truthy projectInfoContent) then
       ret None
     else
       s <- processTaskSection page taskContent ;;
       match s with
       | ReturnNow r => ret r
       | Continue taskSuccess =>
           projectInfoSuccess <- processProjectInfoSection pageId projectInfoContent ;;
           cleanup pageId taskContent projectInfoContent taskSuccess projectInfoSuccess
       end)
    (fun _ => ret None).

(** Check if a task is a quick todo that needs processing. *)
Definition isQuickTodo (page : taskPage) : bool :=
  let title := match Title page with Some t => t | None => [] end in
  let titleText := JS.trim (JS.join "" title) in
  let hasMinimalTitle :=
    negb (JS.truthy titleText) || (strLength titleText <? 5)
    || JS.includes (JS.toLowerCase titleText) "untitled" in
  let hasMissingFields := negb (isSet (Project page)) || negb (isSet (Priority page)) in
  let isNewTask :=
    match Status page with
    | None => true
    | Some name => String.eqb name "Backlog"
    end in
  hasMinimalTitle && hasMissingFields && isNewTask.

End QuickTodo.

(* ================================================================== *)
(** * Vocabulary of the properties *)
(* ================================================================== *)

(** A string made of white space only. *)
Fixpoint blank (s : string) : bool :=
  match s with
  | EmptyString => true
  | String c s' => JS.isSpace c && blank s'
  end.

(** [s] and [t] are the same text up to the case of their letters. *)
Inductive caseVariant : string -> string -> Prop :=
| cv_nil : caseVariant "" ""
| cv_same c s t : caseVariant s t -> caseVariant (String c s) (String c t)
| cv_lower c s t :
    JS.isUpper c = true -> caseVariant s t ->
    caseVariant (String c s) (String (JS.lowerChar c) t)
| cv_upper c s t :
    JS.isUpper c = true -> caseVariant s t ->
    caseVariant (String (JS.lowerChar c) s) (String c t).


(** [a] is a valid date strictly later than the valid date [b]. *)
Definition strictlyLater (a b : option Z) : Prop :=
  exists x y, a = Some x /\ b = Some y /\ y < x.

(** The keywords of a list found in a (case-folded) text. *)
Definition matched (textLower : string) (keywords : list string) : list string :=
  filter (JS.includes textLower) keywords.

(** The high-priority rule of [parsePriority]: two high keywords, or one
    of the two decisive phrases. *)
Definition highRule (textLower : string) : Prop :=
  (2 <= length (matched textLower Parsers.highKeywords))%nat
  \/ JS.includes textLower "high priority" = true
  \/ JS.includes textLower "urgent" = true.

(** A fixed clock for examples: the time values of three timestamps. *)
Definition exampleClock (s : string) : option Z :=
  if String.eqb s "2025-10-24T09:00:00.000Z" then Some 1761296400000
  else if String.eqb s "2025-10-24T09:00:00.001Z" then Some 1761296400001
  else None.

(** Every character of [s] satisfies [p]. *)
Fixpoint allChars (p : ascii -> bool) (s : string) : bool :=
  match s with
  | EmptyString => true
  | String c s' => p c && allChars p s'
  end.

Definition startsWithWordChar (s : string) : bool :=
  match s with
  | EmptyString => false
  | String c _ => Inference.isWordChar c
  end.

(** [text] contains an override tag [#proj:<token>]: the marker, in any
    case, followed by the word [token] and then by no further word
    character. *)
Definition hasOverrideTag (text token : string) : Prop :=
  exists pre tag post,
    text = pre ++ tag ++ token ++ post
    /\ Inference.prefixIgnoreCase "#proj:" tag = true /\ String.length tag = 6%nat
    /\ token <> "" /\ allChars Inference.isWordChar token = true
    /\ startsWithWordChar post = false.

(** The token of a tag names the project of a table entry: case-folded, it
    is a substring of the case-folded project name or of one of the
    project's keywords. *)
Definition tokenNames (token : string) (entry : string * list string) : Prop :=
  JS.includes (JS.toLowerCase (fst entry)) (JS.toLowerCase token) = true
  \/ exists kw, In kw (snd entry) /\ JS.includes kw (JS.toLowerCase token) = true.

(** The tail of a sequence ends a section: it is empty, or it starts with
    a heading that does not match. *)
Definition endsSection (matches : block -> bool) (tail : list block) : Prop :=
  tail = []
  \/ exists n post, tail = n :: post /\ isHeading n = true /\ matches n = false.

(** [blocks] splits around the section of the matching heading [h]: blocks
    [pre], the heading, a body [mid] without headings, and a tail that ends
    the section. *)
Definition sectionSplit (matches : block -> bool) (blocks pre : list block)
  (h : block) (mid tail : list block) : Prop :=
  blocks = (pre ++ h :: mid ++ tail)%list
  /\ isHeading h = true /\ matches h = true
  /\ Forall (fun b => isHeading b = false) mid
  /\ endsSection matches tail.

(** The log entries of deleting the blocks [blocks] one by one, each call
    paired with the reply it got. *)
Definition deletions (blocks : list block) (replies : list response) : list event :=
  map (fun br => Called (BlocksDelete (id (fst br))) (snd br)) (combine blocks replies).

(** A reply that carries blocks. *)
Definition isBlocks (rs : response) : bool :=
  match rs with Blocks _ => true | _ => false end.

(** The next reply of a script; a script that has run out answers with a
    lost connection. *)
Definition nextReply (script : list response) : response :=
  match script with
  | [] => Raised connectionLost
  | rs :: _ => rs
  end.

(** The state after the remote call [rq]: the next reply is consumed and
    the call is logged with it. *)
Definition step (rq : request) (st : state) : state :=
  mkState (tl (script st)) (randoms st)
          (log st ++ [Called rq (nextReply (script st))]).

(** The state after a pause of [ms] milliseconds. *)
Definition pause (ms : Q) (st : state) : state :=
  mkState (script st) (randoms st) (log st ++ [Slept ms]).

(** The fallback section is used: it is given, not empty, and not the
    section asked for. *)
Definition usable (sectionHeading : string) (fallbackSection : option string) : bool :=
  match fallbackSection with
  | Some fallback => JS.truthy fallback && negb (String.eqb sectionHeading fallback)
  | None => false
  end.

(** A bound on the depth of the recursion of [appendToSection]. *)
Definition appendDepth (sectionHeading : string) (fallbackSection : option string)
  (retryCount : Z) : nat :=
  2 * Z.to_nat (2 - retryCount) + (if usable sectionHeading fallbackSection then 1 else 0).

(** The error with which a fetch of blocks fails on a reply, if it does. *)
Definition fetchError (rs : response) : option jsError :=
  match rs with
  | Blocks _ => None
  | Raised e => Some e
  | _ => Some typeError
  end.

Definition isRaised (rs : response) : bool :=
  match rs with Raised _ => true | _ => false end.

(** The runs of [appendToSection pageId _ content]: from which state, with
    which section, fallback and retry count, it returns which boolean in
    which state.  One rule per path through the function. *)
Inductive AppendRun (pageId content : string)
  : string -> option string -> Z -> state -> bool -> state -> Prop :=
| AR_appended h fb rc st blocks sectionBlock :
    nextReply (script st) = Blocks blocks ->
    ProjectPage.findSectionBlock h blocks = Some sectionBlock ->
    let st1 := step (GetTopLevelBlocks pageId) st in
    let rq := BlocksChildrenAppend pageId (ProjectPage.bulletBlocks content)
                (id sectionBlock) in
    isRaised (nextReply (script st1)) = false ->
    AppendRun pageId content h fb rc st true (step rq st1)
| AR_refused_retry h fb rc st blocks sectionBlock e b st' :
    nextReply (script st) = Blocks blocks ->
    ProjectPage.findSectionBlock h blocks = Some sectionBlock ->
    let st1 := step (GetTopLevelBlocks pageId) st in
    let rq := BlocksChildrenAppend pageId (ProjectPage.bulletBlocks content)
                (id sectionBlock) in
    nextReply (script st1) = Raised e ->
    ProjectPage.retryable e && (rc <? 2) = true ->
    AppendRun pageId content h fb (rc + 1)
      (pause (inject_Z ((rc + 1) * 3000)) (step rq st1)) b st' ->
    AppendRun pageId content h fb rc st b st'
| AR_refused_final h fb rc st blocks sectionBlock e :
    nextReply (script st) = Blocks blocks ->
    ProjectPage.findSectionBlock h blocks = Some sectionBlock ->
    let st1 := step (GetTopLevelBlocks pageId) st in
    let rq := BlocksChildrenAppend pageId (ProjectPage.bulletBlocks content)
                (id sectionBlock) in
    nextReply (script st1) = Raised e ->
    ProjectPage.retryable e && (rc <? 2) = false ->
    AppendRun pageId content h fb rc st false (step rq st1)
| AR_fallback h fallback rc st blocks b st' :
    nextReply (script st) = Blocks blocks ->
    ProjectPage.findSectionBlock h blocks = None ->
    usable h (Some fallback) = true ->
    AppendRun pageId content fallback None rc (step (GetTopLevelBlocks pageId) st) b st' ->
    AppendRun pageId content h (Some fallback) rc st b st'
| AR_missing h fb rc st blocks :
    nextReply (script st) = Blocks blocks ->
    ProjectPage.findSectionBlock h blocks = None ->
    usable h fb = false ->
    AppendRun pageId content h fb rc st false (step (GetTopLevelBlocks pageId) st)
| AR_fetch_retry h fb rc st e b st' :
    fetchError (nextReply (script st)) = Some e ->
    ProjectPage.retryable e && (rc <? 2) = true ->
    AppendRun pageId content h fb (rc + 1)
      (pause (inject_Z ((rc + 1) * 3000)) (step (GetTopLevelBlocks pageId) st)) b st' ->
    AppendRun pageId content h fb rc st b st'
| AR_fetch_final h fb rc st e :
    fetchError (nextReply (script st)) = Some e ->
    ProjectPage.retryable e && (rc <? 2) = false ->
    AppendRun pageId content h fb rc st false (step (GetTopLevelBlocks pageId) st).

(** Every append request of a log is anchored at a block, accepted by
    [ok], of the blocks fetched last before it; [known] are the blocks
    fetched before the log starts. *)
Fixpoint appendsAnchored (ok : block -> Prop) (known : list block) (evs : list event)
  : Prop :=
  match evs with
  | [] => True
  | Called (GetTopLevelBlocks _) (Blocks blocks) :: evs' =>
      appendsAnchored ok blocks evs'
  | Called (BlocksChildrenAppend _ _ after) _ :: evs' =>
      (exists b, In b known /\ id b = after /\ ok b)
      /\ appendsAnchored ok known evs'
  | _ :: evs' => appendsAnchored ok known evs'
  end.

(** An append request that the store accepted. *)
Definition acceptedAppend (ev : event) : bool :=
  match ev with
  | Called (BlocksChildrenAppend _ _ _) rs => negb (isRaised rs)
  | _ => false
  end.

(** The pauses of a log, in order. *)
Fixpoint pauses (evs : list event) : list Q :=
  match evs with
  | [] => []
  | Slept ms :: evs' => ms :: pauses evs'
  | _ :: evs' => pauses evs'
  end.

(** The fetches of top-level blocks in a log. *)
Definition isFetch (ev : event) : bool :=
  match ev with
  | Called (GetTopLevelBlocks _) _ => true
  | _ => false
  end.

(** The blocks after which [appendToSection] may insert when asked for
    [sectionHeading] with fallback [fallbackSection]: a heading found for
    the section, or for the fallback when it is used. *)
Definition anchorFor (sectionHeading : string) (fallbackSection : option string)
  (b : block) : Prop :=
  ProjectPage.matchesSection sectionHeading b = true
  \/ (usable sectionHeading fallbackSection = true
      /\ exists fallback, fallbackSection = Some fallback
                          /\ ProjectPage.matchesSection fallback b = true).

(** The pauses of [j] successive retries after [retryCount] earlier ones:
    3 s times the number of the retry. *)
Fixpoint waitPlan (j : nat) (retryCount : Z) : list Q :=
  match j with
  | O => []
  | S j' => inject_Z ((retryCount + 1) * 3000) :: waitPlan j' (retryCount + 1)
  end.

(** Number of events of a log that satisfy [p]. *)
Definition countEvents (p : event -> bool) (evs : list event) : nat :=
  length (filter p evs).

(** [m], started in [st], returns [a] in state [st'] after logging [evs]. *)
Definition Runs {A} (m : M A) (st : state) (a : A) (st' : state) (evs : list event)
  : Prop :=
  m st = (Returned a, st') /\ log st' = (log st ++ evs)%list.

(** A log made of project look-ups only: reads of the configuration file
    and queries by name. *)
Definition isLookup (ev : event) : bool :=
  match ev with
  | Called ReadConfig _ => true
  | Called (QueryByName _ _) _ => true
  | _ => false
  end.

(** A heading found for one of the four target sections of a project
    page. *)
Definition targetSection (b : block) : Prop :=
  ProjectPage.matchesSection ProjectPage.CREDENTIALS b = true
  \/ ProjectPage.matchesSection ProjectPage.CONTACTS b = true
  \/ ProjectPage.matchesSection ProjectPage.LINKS b = true
  \/ ProjectPage.matchesSection ProjectPage.DECISIONS b = true.

(** A heading found for the decisions log; its text is then none of the
    names of the three other sections. *)
Definition decisionsLog (b : block) : Prop :=
  ProjectPage.matchesSection ProjectPage.DECISIONS b = true
  /\ JS.trim (plainText b) <> ProjectPage.CREDENTIALS
  /\ JS.trim (plainText b) <> ProjectPage.CONTACTS
  /\ JS.trim (plainText b) <> ProjectPage.LINKS.

(** [m] never stops for lack of fuel. *)
Definition NoFuelOut {A} (m : M A) : Prop :=
  forall st, fst (m st) <> OutOfFuel.

(** [m] always returns a value: it neither throws nor stops. *)
Definition Total {A} (m : M A) : Prop :=
  forall st, exists a st', m st = (Returned a, st').

(** A value that [Math.random()] can return. *)
Definition unitInterval (r : Q) : Prop := (0 <= r /\ r < 1)%Q.

(** A backoff pause for attempt [k]: the exponential base delay plus at
    most one second of jitter. *)
Definition backoffOf (k : Z) (d : Q) : Prop :=
  (inject_Z (NotionClient.baseDelay k) <= d
   /\ d <= inject_Z (NotionClient.baseDelay k) + 1000)%Q.

Definition isInvoke (ev : event) : bool :=
  match ev with
  | Called (Invoke _) _ => true
  | _ => false
  end.

(** The logs of [apiCall] from attempt [k] on, with the outcome of the
    call: a paced invocation that succeeds; one that fails with an error
    that is no rate limit, which is thrown at once; one that is rate
    limited, followed by a backoff pause and the schedule of the next
    attempt; or the last allowed attempt, rate limited, whose error is
    thrown after the pause. *)
Inductive Schedule (operation : string) : Z -> list event -> outcome response -> Prop :=
| S_success k rs :
    isRaised rs = false ->
    Schedule operation k
      [Slept NotionClient.RATE_LIMIT_DELAY; Called (Invoke operation) rs] (Returned rs)
| S_fatal k e :
    NotionClient.isRateLimited e = false ->
    Schedule operation k
      [Slept NotionClient.RATE_LIMIT_DELAY; Called (Invoke operation) (Raised e)]
      (Thrown e)
| S_retry k e d evs res :
    NotionClient.isRateLimited e = true -> k + 1 < 5 -> backoffOf k d ->
    Schedule operation (k + 1) evs res ->
    Schedule operation k
      ([Slept NotionClient.RATE_LIMIT_DELAY; Called (Invoke operation) (Raised e);
        Slept d] ++ evs)
      res
| S_exhausted k e d :
    NotionClient.isRateLimited e = true -> k + 1 = 5 -> backoffOf k d ->
    Schedule operation k
      [Slept NotionClient.RATE_LIMIT_DELAY; Called (Invoke operation) (Raised e);
       Slept d]
      (Thrown e).

(** The line that a block of a section body contributes to the section
    content: the text of a paragraph, the text of a bulleted item behind a
    dash, nothing for a divider, an empty block or any other type. *)
Definition contentLine (b : block) : string :=
  let text := JS.trim (plainText b) in
  if JS.truthy text then
    if String.eqb (type b) "paragraph" then text ++ String JS.LF ""
    else if String.eqb (type b) "bulleted_list_item"
         then "- " ++ text ++ String JS.LF ""
         else ""
  else "".

(** The concatenation of the lines of a section body. *)
Definition contentLines (body : list block) : string :=
  fold_right append "" (map contentLine body).

(** The bullets of the project-information section of [blocks]; none when
    there is no such section. *)
Definition infoBullets (blocks : list block) : list string :=
  match SectionScanner.findProjectInfoSection blocks with
  | Some section =>
      match SectionScanner.extractInfoBullets blocks
              (SectionScanner.startIndex section) (SectionScanner.endIndex section) with
      | Some bullets => bullets
      | None => []
      end
  | None => []
  end.

Definition hasBullets (blocks : list block) : bool :=
  match infoBullets blocks with
  | [] => false
  | _ :: _ => true
  end.

(** A reply after which the classification service is asked again: an
    error with status 429 or code ETIMEDOUT. *)
Definition retryableReply (rs : response) : bool :=
  match rs with
  | Raised e => OpenAIClient.isRetryable e
  | _ => false
  end.

(** The leading replies of a script that are retried ... *)
Fixpoint retried (script : list response) : list response :=
  match script with
  | rs :: rest => if retryableReply rs then rs :: retried rest else []
  | [] => []
  end.

(** ... and the script from the first reply on that is not. *)
Fixpoint settled (script : list response) : list response :=
  match script with
  | rs :: rest => if retryableReply rs then settled rest else script
  | [] => []
  end.

(** The log of the retried requests: each one followed by the pause. *)
Definition retryLog (rq : request) (replies : list response) : list event :=
  flat_map (fun rs => [Called rq rs; Slept OpenAIClient.RETRY_DELAY]) replies.

(** The state after the request [rq] was retried as long as the script
    said so and then settled. *)
Definition afterRetries (rq : request) (st : state) : state :=
  mkState (tl (settled (script st))) (randoms st)
          (log st ++ retryLog rq (retried (script st))
               ++ [Called rq (nextReply (settled (script st)))]).

(** The reply that settles the request. *)
Definition settlingReply (st : state) : response := nextReply (settled (script st)).

(** The shape shared by the two functions of the service: one request,
    whose reply is decoded; a retryable error pauses and starts over, any
    other error yields the fallback. *)
Fixpoint retryLoop {A} (rq : request) (decode : response -> A + jsError) (fallback : A)
  (fuel : nat) : M A :=
  match fuel with
  | O => outOfFuel
  | S fuel' =>
      tryCatch
        (rs <- call rq ;;
         match decode rs with
         | inl a => ret a
         | inr e => throw e
         end)
        (fun error =>
           if OpenAIClient.isRetryable error then
             sleep OpenAIClient.RETRY_DELAY ;;; retryLoop rq decode fallback fuel'
           else ret fallback)
  end.

(** What the categorization makes of a reply: the bundle with its
    defaults, or the error that the [catch] block receives. *)
Definition decodeCategories (parseCategories : string -> option OpenAIClient.rawBundle)
  (rs : response) : bundle + jsError :=
  match rs with
  | Value content =>
      match parseCategories content with
      | Some result =>
          inl (mkBundle (OpenAIClient.orNil (OpenAIClient.rawCredentials result))
                        (OpenAIClient.orNil (OpenAIClient.rawContacts result))
                        (OpenAIClient.orNil (OpenAIClient.rawLinks result))
                        (OpenAIClient.orNil (OpenAIClient.rawDecisions result))
                        (OpenAIClient.orNil (OpenAIClient.rawOther result)))
      | None => inr OpenAIClient.syntaxError
      end
  | Raised e => inr e
  | _ => inr typeError
  end.

(** What the task parser makes of a reply. *)
Definition decodeTasks (parseTasks : string -> option OpenAIClient.rawParse)
  (todoText : string) (rs : response) : OpenAIClient.parsed + jsError :=
  match rs with
  | Value content =>
      match parseTasks content with
      | Some result =>
          inl (OpenAIClient.WithTasks
                 (match OpenAIClient.rawTasks result with
                  | Some tasks => map (OpenAIClient.withDefaults todoText) tasks
                  | None =>
                      [OpenAIClient.withDefaults todoText (OpenAIClient.rawTop result)]
                  end))
      | None => inr OpenAIClient.syntaxError
      end
  | Raised e => inr e
  | _ => inr typeError
  end.

(** A text without a character that is no white space. *)
Definition noText (todoText : string) : bool := JS.isEmpty (JS.trim todoText).

(** The task that stands for the whole text. *)
Definition basicTask (todoText : string) : parsedTask :=
  mkParsedTask todoText None "Medium" None None.
(* ================================================================== *)
(** * Properties *)
(* ================================================================== *)

(** ** Strings *)

Lemma isSpace_lowerChar (c : ascii) : JS.isSpace (JS.lowerChar c) = JS.isSpace c.
Proof. destruct c as [[] [] [] [] [] [] [] []]; reflexivity. Qed.

Lemma lowerChar_idem (c : ascii) : JS.lowerChar (JS.lowerChar c) = JS.lowerChar c.
Proof. destruct c as [[] [] [] [] [] [] [] []]; reflexivity. Qed.

Lemma isEmpty_toLowerCase (s : string) : JS.isEmpty (JS.toLowerCase s) = JS.isEmpty s.
Proof. destruct s; reflexivity. Qed.

Lemma toLowerCase_app (s t : string) :
  JS.toLowerCase (s ++ t) = JS.toLowerCase s ++ JS.toLowerCase t.
Proof. induction s as [|c s IH]; simpl; [reflexivity | now rewrite IH]. Qed.

Lemma toLowerCase_idem (s : string) : JS.toLowerCase (JS.toLowerCase s) = JS.toLowerCase s.
Proof.
  induction s as [|c s IH]; simpl; [reflexivity|].
  now rewrite lowerChar_idem, IH.
Qed.

Lemma trimStart_toLowerCase (s : string) :
  JS.trimStart (JS.toLowerCase s) = JS.toLowerCase (JS.trimStart s).
Proof.
  induction s as [|c s IH]; simpl; [reflexivity|].
  rewrite isSpace_lowerChar. destruct (JS.isSpace c); [exact IH | reflexivity].
Qed.

Lemma trimEnd_toLowerCase (s : string) :
  JS.trimEnd (JS.toLowerCase s) = JS.toLowerCase (JS.trimEnd s).
Proof.
  induction s as [|c s IH]; simpl; [reflexivity|].
  rewrite isSpace_lowerChar, IH, isEmpty_toLowerCase.
  destruct (JS.isSpace c && JS.isEmpty (JS.trimEnd s)); reflexivity.
Qed.

(** Trimming and case folding commute. *)
Lemma trim_toLowerCase (s : string) :
  JS.trim (JS.toLowerCase s) = JS.toLowerCase (JS.trim s).
Proof. unfold JS.trim. now rewrite trimStart_toLowerCase, trimEnd_toLowerCase. Qed.

Lemma trimStart_blank (s : string) : blank s = true -> JS.trimStart s = "".
Proof.
  induction s as [|c s IH]; simpl; [reflexivity|].
  intros H. apply andb_prop in H as [Hc Hs]. rewrite Hc. auto.
Qed.

Lemma trimEnd_blank (s : string) : blank s = true -> JS.trimEnd s = "".
Proof.
  induction s as [|c s IH]; simpl; [reflexivity|].
  intros H. apply andb_prop in H as [Hc Hs]. rewrite Hc, (IH Hs). reflexivity.
Qed.

Lemma trimStart_blank_app (a s : string) :
  blank a = true -> JS.trimStart (a ++ s) = JS.trimStart s.
Proof.
  induction a as [|c a IH]; simpl; [reflexivity|].
  intros H. apply andb_prop in H as [Hc Ha]. rewrite Hc. auto.
Qed.

Lemma trimEnd_app_blank (s b : string) :
  blank b = true -> JS.trimEnd (s ++ b) = JS.trimEnd s.
Proof.
  intros Hb. induction s as [|c s IH]; simpl.
  - now apply trimEnd_blank.
  - now rewrite IH.
Qed.

Lemma trim_app_blank (s b : string) :
  blank b = true -> JS.trim (s ++ b) = JS.trim s.
Proof.
  intros Hb. unfold JS.trim. induction s as [|c s IH]; simpl.
  - now rewrite (trimStart_blank _ Hb).
  - destruct (JS.isSpace c); [exact IH|].
    change (String c (s ++ b)) with (String c s ++ b).
    now apply trimEnd_app_blank.
Qed.

(** Surrounding white space does not survive [trim]. *)
Lemma trim_padding (a s b : string) :
  blank a = true -> blank b = true -> JS.trim (a ++ s ++ b) = JS.trim s.
Proof.
  intros Ha Hb. unfold JS.trim at 1. rewrite (trimStart_blank_app _ _ Ha).
  now apply trim_app_blank.
Qed.

Lemma caseVariant_toLowerCase (s t : string) :
  caseVariant s t -> JS.toLowerCase s = JS.toLowerCase t.
Proof.
  induction 1; simpl; rewrite ?lowerChar_idem; congruence.
Qed.

Lemma prefix_app (k b : string) : String.prefix k (k ++ b) = true.
Proof.
  induction k as [|c k IH]; simpl; [now destruct b|].
  destruct (ascii_dec c c); [exact IH | contradiction].
Qed.

Lemma includes_prefix (s k : string) : String.prefix k s = true -> JS.includes s k = true.
Proof. intros H. destruct s; cbn [JS.includes]; rewrite H; reflexivity. Qed.

Lemma includes_app (a k b : string) : JS.includes (a ++ k ++ b) k = true.
Proof.
  induction a as [|c a IH].
  - change ("" ++ k ++ b) with (k ++ b). apply includes_prefix, prefix_app.
  - cbn [append JS.includes]. rewrite IH. apply orb_true_r.
Qed.

(* ------------------------------------------------------------------ *)
(** ** Idempotency key generator *)
(* ------------------------------------------------------------------ *)



(* ------------------------------------------------------------------ *)
(** ** Reprocessing decider *)
(* ------------------------------------------------------------------ *)

Lemma dateGt_strictlyLater (a b : option Z) :
  Extractors.dateGt a b = true <-> strictlyLater a b.
Proof.
  unfold Extractors.dateGt, strictlyLater. split.
  - destruct a as [x|], b as [y|]; try discriminate.
    intros H. exists x, y. repeat split. now apply Z.ltb_lt.
  - intros (x & y & -> & -> & H). now apply Z.ltb_lt.
Qed.

(** C3. [shouldProcessMeeting] is true when [processed] is false; when
    [processed] is true and the last-processed date is set, it is true iff
    the last edit is strictly later (equal timestamps give false); when
    [processed] is true and the last-processed date is unset, it is
    false. *)
Theorem shouldProcessMeeting_rules (newDate : string -> option Z)
  (page : Extractors.meetingPage) :
  let processed :=
    match Extractors.Processed page with Some c => c | None => false end in
  (processed = false -> Extractors.shouldProcessMeeting newDate page = true)
  /\ (processed = true ->
      forall lp, Extractors.Last_Processed page = Some lp -> lp <> "" ->
        (Extractors.shouldProcessMeeting newDate page = true
         <-> strictlyLater (newDate (Extractors.last_edited_time page)) (newDate lp))
        /\ (newDate (Extractors.last_edited_time page) = newDate lp ->
            Extractors.shouldProcessMeeting newDate page = false))
  /\ (processed = true ->
      Extractors.Last_Processed page = None
      \/ Extractors.Last_Processed page = Some "" ->
      Extractors.shouldProcessMeeting newDate page = false).
Proof.
  destruct page as [pr lpo le]. cbn.
  unfold Extractors.shouldProcessMeeting; cbn.
  set (processed := match pr with Some c => c | None => false end).
  split; [| split].
  - intros ->. reflexivity.
  - intros -> lp -> Hne. cbn.
    assert (Ht : JS.truthy lp = true) by (destruct lp; [contradiction | reflexivity]).
    rewrite Ht. split.
    + rewrite <- dateGt_strictlyLater.
      destruct (Extractors.dateGt (newDate le) (newDate lp)); intuition congruence.
    + intros ->. unfold Extractors.dateGt.
      destruct (newDate lp); [rewrite Z.ltb_irrefl|]; reflexivity.
  - intros -> [-> | ->]; reflexivity.
Qed.

Lemma shouldProcessMeeting_rules_witness :
  Extractors.shouldProcessMeeting exampleClock
    (Extractors.mkMeetingPage (Some true) (Some "2025-10-24T09:00:00.000Z")
       "2025-10-24T09:00:00.001Z") = true
  /\ Extractors.shouldProcessMeeting exampleClock
       (Extractors.mkMeetingPage (Some true) (Some "2025-10-24T09:00:00.000Z")
          "2025-10-24T09:00:00.000Z") = false.
Proof.
  pose proof (@shouldProcessMeeting_rules exampleClock
    (Extractors.mkMeetingPage (Some true) (Some "2025-10-24T09:00:00.000Z")
       "2025-10-24T09:00:00.001Z")) as (_ & Hlater & _).
  pose proof (@shouldProcessMeeting_rules exampleClock
    (Extractors.mkMeetingPage (Some true) (Some "2025-10-24T09:00:00.000Z")
       "2025-10-24T09:00:00.000Z")) as (_ & Hequal & _).
  split.
  - apply (proj1 (Hlater eq_refl _ eq_refl ltac:(discriminate))).
    exists 1761296400001, 1761296400000. repeat split.
  - apply (proj2 (Hequal eq_refl _ eq_refl ltac:(discriminate))). reflexivity.
Defined.

(* ------------------------------------------------------------------ *)
(** ** Priority parser *)
(* ------------------------------------------------------------------ *)

Lemma countMatches_acc (textLower : string) (keywords : list string) (acc : Z) :
  fold_left (fun count keyword =>
               if JS.includes textLower keyword then count + 1 else count)
            keywords acc
  = acc + Z.of_nat (length (matched textLower keywords)).
Proof.
  revert acc. induction keywords as [|kw kws IH]; intros acc; cbn [fold_left].
  - cbn. lia.
  - rewrite IH. unfold matched. cbn [filter].
    destruct (JS.includes textLower kw); cbn [length]; lia.
Qed.

Lemma countMatches_length (textLower : string) (keywords : list string) :
  Parsers.countMatches textLower keywords
  = Z.of_nat (length (matched textLower keywords)).
Proof. unfold Parsers.countMatches. now rewrite countMatches_acc. Qed.

Lemma filter_nil_false {A} (f : A -> bool) (l : list A) (x : A) :
  filter f l = [] -> In x l -> f x = false.
Proof.
  induction l as [|y l IH]; cbn [filter]; intros Hnil Hin; [contradiction|].
  destruct (f y) eqn:Fy; [discriminate|].
  destruct Hin as [-> | Hin]; auto.
Qed.

(** A text that contains a lower-case phrase contains it after case
    folding too. *)
Lemma includes_toLowerCase (a k b : string) :
  JS.toLowerCase k = k -> JS.includes (JS.toLowerCase (a ++ k ++ b)) k = true.
Proof.
  intros Hk. rewrite !toLowerCase_app, Hk. apply includes_app.
Qed.



(* ------------------------------------------------------------------ *)
(** ** Section scanner *)
(* ------------------------------------------------------------------ *)

Section Scan.

Variable matches : block -> bool.

(** No heading matches: the scan finds nothing. *)
Lemma scanFrom_no_match (blocks : list block) (i : Z) :
  Forall (fun b => isHeading b && matches b = false) blocks ->
  SectionScanner.scanFrom matches blocks i (-1) = (-1, -1).
Proof.
  intros H. revert i. induction H as [|b bs Hb _ IH]; intros i; cbn; [reflexivity|].
  destruct (isHeading b); [|apply IH].
  cbn in Hb. rewrite Hb. cbn. apply IH.
Qed.

(** Blocks before the first matching heading only shift the index. *)
Lemma scanFrom_skip (pre rest : list block) (i : Z) :
  Forall (fun b => isHeading b && matches b = false) pre ->
  SectionScanner.scanFrom matches (pre ++ rest) i (-1)
  = SectionScanner.scanFrom matches rest (i + Z.of_nat (length pre)) (-1).
Proof.
  intros H. revert i. induction H as [|b bs Hb _ IH]; intros i.
  - cbn. now rewrite Z.add_0_r.
  - cbn [app SectionScanner.scanFrom length].
    replace (i + Z.of_nat (S (length bs))) with (i + 1 + Z.of_nat (length bs)) by lia.
    destruct (isHeading b); [|apply IH].
    cbn in Hb. rewrite Hb. cbn. apply IH.
Qed.

(** Once the section has started, blocks that are no headings are passed
    over. *)
Lemma scanFrom_body (mid rest : list block) (i s : Z) :
  Forall (fun b => isHeading b = false) mid ->
  SectionScanner.scanFrom matches (mid ++ rest) i s
  = SectionScanner.scanFrom matches rest (i + Z.of_nat (length mid)) s.
Proof.
  intros H. revert i. induction H as [|b bs Hb _ IH]; intros i.
  - cbn. now rewrite Z.add_0_r.
  - cbn [app SectionScanner.scanFrom length]. rewrite Hb.
    replace (i + Z.of_nat (S (length bs))) with (i + 1 + Z.of_nat (length bs)) by lia.
    apply IH.
Qed.

(** The section index never moves backwards. *)
Lemma scanFrom_index_ge (blocks : list block) (i s : Z) :
  s <= i -> s <= fst (SectionScanner.scanFrom matches blocks i s).
Proof.
  revert i s. induction blocks as [|b bs IH]; intros i s Hle; cbn; [lia|].
  destruct (isHeading b); [|apply IH; lia].
  destruct (matches b).
  - specialize (IH (i + 1) i). lia.
  - destruct (negb (s =? -1)); cbn; [lia | apply IH; lia].
Qed.

End Scan.

(** The section found when the heading that follows the first matching
    heading does not match (or when no heading follows): it starts at the
    first match and ends at the next heading, or at the end of the
    sequence. *)
Lemma findProjectInfoSection_first_match (pre mid : list block) (h : block) :
  Forall (fun b => isHeading b && SectionScanner.matchesProjectInfo b = false) pre ->
  isHeading h = true -> SectionScanner.matchesProjectInfo h = true ->
  Forall (fun b => isHeading b = false) mid ->
  let i := Z.of_nat (length pre) in
  SectionScanner.findProjectInfoSection (pre ++ h :: mid)
  = Some (SectionScanner.mkSection i (Z.of_nat (length (pre ++ h :: mid))) (Some h))
  /\ forall n post,
       isHeading n = true -> SectionScanner.matchesProjectInfo n = false ->
       SectionScanner.findProjectInfoSection (pre ++ h :: mid ++ n :: post)
       = Some (SectionScanner.mkSection i (i + 1 + Z.of_nat (length mid)) (Some h)).
Proof.
  intros Hpre Hh Hm Hmid i.
  assert (Hi : (i =? -1) = false) by (apply Z.eqb_neq; subst i; lia).
  assert (Hnth : forall rest, nth_error (pre ++ h :: rest) (Z.to_nat i) = Some h).
  { intros rest. subst i. rewrite Nat2Z.id, nth_error_app2, Nat.sub_diag by lia.
    reflexivity. }
  assert (Hscan : forall rest,
             SectionScanner.scanFrom SectionScanner.matchesProjectInfo
               (pre ++ h :: mid ++ rest) 0 (-1)
             = SectionScanner.scanFrom SectionScanner.matchesProjectInfo rest
                 (i + 1 + Z.of_nat (length mid)) i).
  { intros rest. rewrite (scanFrom_skip _ _ _ Hpre). cbn [SectionScanner.scanFrom].
    rewrite Hh, Hm, (scanFrom_body _ _ _ _ Hmid). reflexivity. }
  split.
  - unfold SectionScanner.findProjectInfoSection.
    pose proof (Hscan []) as H0. rewrite app_nil_r in H0. rewrite H0.
    cbn [SectionScanner.scanFrom]. rewrite Hi, Hnth. reflexivity.
  - intros n post Hn Hnm.
    unfold SectionScanner.findProjectInfoSection.
    rewrite Hscan. cbn [SectionScanner.scanFrom].
    rewrite Hn, Hnm, Hi. cbn [negb].
    rewrite Hi, Hnth.
    destruct (i + 1 + Z.of_nat (length mid) =? -1) eqn:E;
      [apply Z.eqb_eq in E; subst i; lia | reflexivity].
Qed.

(** When the heading that follows the first matching heading matches as
    well, the section no longer starts at the first match. *)
Lemma findProjectInfoSection_repeated_match (pre mid post : list block) (h n : block) :
  Forall (fun b => isHeading b && SectionScanner.matchesProjectInfo b = false) pre ->
  isHeading h = true -> SectionScanner.matchesProjectInfo h = true ->
  Forall (fun b => isHeading b = false) mid ->
  isHeading n = true -> SectionScanner.matchesProjectInfo n = true ->
  exists sec,
    SectionScanner.findProjectInfoSection (pre ++ h :: mid ++ n :: post) = Some sec
    /\ Z.of_nat (length pre) < SectionScanner.startIndex sec.
Proof.
  intros Hpre Hh Hm Hmid Hn Hnm.
  unfold SectionScanner.findProjectInfoSection.
  rewrite (scanFrom_skip _ _ _ Hpre). cbn [SectionScanner.scanFrom].
  rewrite Hh, Hm, (scanFrom_body _ _ _ _ Hmid). cbn [SectionScanner.scanFrom].
  rewrite Hn, Hnm.
  set (j := 0 + Z.of_nat (length pre) + 1 + Z.of_nat (length mid)).
  pose proof (@scanFrom_index_ge SectionScanner.matchesProjectInfo post (j + 1) j
                ltac:(lia)) as Hge.
  destruct (SectionScanner.scanFrom SectionScanner.matchesProjectInfo post (j + 1) j)
    as [s e]. cbn in Hge.
  assert (Hs : (s =? -1) = false) by (apply Z.eqb_neq; subst j; lia).
  rewrite Hs. eexists. split; [reflexivity|]. cbn. subst j. lia.
Qed.

(** C1 (evaluation at the failing input).  Two matching headings with no
    other heading between them: the scanner reports the section of the
    second one, [start = 2] and [end = 4], where the first match is at
    index 0 and the next heading at index 2. *)
Theorem findProjectInfoSection_second_match_wins :
  SectionScanner.findProjectInfoSection
    [ heading "Project Info"; bullet "API key: abc-123";
      heading "Project Information"; bullet "Owner: Karen";
      heading "Notes" ]
  = Some (SectionScanner.mkSection 2 4 (Some (heading "Project Information"))).
Proof. reflexivity. Qed.

(* ------------------------------------------------------------------ *)
(** ** Project inference *)
(* ------------------------------------------------------------------ *)

Lemma tagMatches_tokenNames (token : string) (entry : string * list string) :
  Inference.tagMatches (JS.toLowerCase token) entry = true <-> tokenNames token entry.
Proof.
  destruct entry as [project keywords]. unfold Inference.tagMatches, tokenNames. cbn.
  rewrite orb_true_iff, existsb_exists. reflexivity.
Qed.

Lemma lowerChar_hash (c : ascii) : Ascii.eqb "#" (JS.lowerChar c) = Ascii.eqb "#" c.
Proof. destruct c as [[] [] [] [] [] [] [] []]; reflexivity. Qed.

Lemma prefixIgnoreCase_app (pat tag rest : string) :
  Inference.prefixIgnoreCase pat tag = true ->
  Inference.prefixIgnoreCase pat (tag ++ rest) = true.
Proof.
  revert tag. induction pat as [|p pat IH]; intros tag; [reflexivity|].
  destruct tag as [|c tag]; cbn; [discriminate|].
  intros H. apply andb_prop in H as [Hc Ht]. rewrite Hc. cbn. auto.
Qed.

Lemma dropStart_app (tag rest : string) :
  JS.dropStart (String.length tag) (tag ++ rest) = rest.
Proof. induction tag as [|c tag IH]; cbn; [now destruct rest | exact IH]. Qed.

Lemma takeWord_app (token post : string) :
  allChars Inference.isWordChar token = true -> startsWithWordChar post = false ->
  Inference.takeWord (token ++ post) = token.
Proof.
  intros Ht Hp. induction token as [|c token IH]; cbn.
  - destruct post as [|d post]; cbn in *; [reflexivity | now rewrite Hp].
  - cbn in Ht. apply andb_prop in Ht as [Hc Ht]. rewrite Hc, (IH Ht). reflexivity.
Qed.

(** The pattern match returns the token of the leftmost tag: a tag that no
    ['#'] precedes is the one found. *)
Lemma matchProjTag_leftmost (pre tag token post : string) :
  allChars (fun c => negb (Ascii.eqb "#" c)) pre = true ->
  Inference.prefixIgnoreCase "#proj:" tag = true -> String.length tag = 6%nat ->
  token <> "" -> allChars Inference.isWordChar token = true ->
  startsWithWordChar post = false ->
  Inference.matchProjTag (pre ++ tag ++ token ++ post) = Some token.
Proof.
  intros Hpre Htag Hlen Hne Hword Hpost.
  induction pre as [|c pre IH].
  - change ("" ++ tag ++ token ++ post) with (tag ++ token ++ post).
    destruct tag as [|t tag]; [discriminate|].
    change (String t tag ++ token ++ post) with (String t (tag ++ token ++ post)).
    cbn [Inference.matchProjTag].
    change (String t (tag ++ token ++ post)) with (String t tag ++ token ++ post).
    rewrite (prefixIgnoreCase_app _ _ _ Htag), <- Hlen, dropStart_app.
    rewrite (takeWord_app _ _ Hword Hpost).
    destruct token; [contradiction | reflexivity].
  - cbn [allChars] in Hpre. apply andb_prop in Hpre as [Hc Hpre].
    change (String c pre ++ tag ++ token ++ post)
      with (String c (pre ++ tag ++ token ++ post)).
    cbn [Inference.matchProjTag Inference.prefixIgnoreCase].
    rewrite lowerChar_hash. apply negb_true_iff in Hc. rewrite Hc. cbn [andb].
    exact (IH Hpre).
Qed.

(** The override scan stops at the first paragraph whose first tag names a
    project of the table, and reports the first project so named. *)
Lemma extractHashtagProject_first (blocks : list block) :
  (exists b token entry,
      In b blocks /\ type b = "paragraph"
      /\ Inference.matchProjTag (plainText b) = Some token
      /\ In entry Inference.PROJECT_KEYWORDS /\ tokenNames token entry) ->
  exists pre b post token entry,
    blocks = (pre ++ b :: post)%list
    /\ Inference.extractHashtagProject pre = None
    /\ type b = "paragraph"
    /\ Inference.matchProjTag (plainText b) = Some token
    /\ find (Inference.tagMatches (JS.toLowerCase token)) Inference.PROJECT_KEYWORDS
       = Some entry
    /\ Inference.extractHashtagProject blocks
       = Some (Inference.mkInference (fst entry) 1).
Proof.
  induction blocks as [|x xs IH]; intros (b & token & entry & Hin & Hty & Hm & He & Hn).
  - contradiction.
  - destruct (Inference.extractHashtagProject [x]) as [r|] eqn:Hx.
    + (* the first block decides *)
      cbn in Hx. destruct (String.eqb (type x) "paragraph") eqn:Tx; [|discriminate].
      destruct (Inference.matchProjTag (plainText x)) as [m|] eqn:Mx; [|discriminate].
      unfold Inference.lookupTag in Hx.
      destruct (find (Inference.tagMatches (JS.toLowerCase m)) Inference.PROJECT_KEYWORDS)
        as [[project keywords]|] eqn:Fx; [|discriminate].
      exists [], x, xs, m, (project, keywords).
      repeat split; try assumption; try reflexivity.
      * now apply String.eqb_eq.
      * cbn [Inference.extractHashtagProject]. rewrite Tx, Mx.
        unfold Inference.lookupTag. rewrite Fx. reflexivity.
    + (* the first block yields nothing: the witness lies further on *)
      assert (Hstep : Inference.extractHashtagProject (x :: xs)
                      = Inference.extractHashtagProject xs).
      { cbn in Hx |- *. destruct (String.eqb (type x) "paragraph"); [|reflexivity].
        destruct (Inference.matchProjTag (plainText x)) as [m|]; [|reflexivity].
        destruct (Inference.lookupTag (JS.toLowerCase m)); [discriminate | reflexivity]. }
      destruct Hin as [<- | Hin].
      * exfalso. cbn in Hx. apply String.eqb_eq in Hty. rewrite Hty, Hm in Hx.
        unfold Inference.lookupTag in Hx.
        destruct (find (Inference.tagMatches (JS.toLowerCase token))
                    Inference.PROJECT_KEYWORDS) as [[p k]|] eqn:Fx; [discriminate|].
        apply tagMatches_tokenNames in Hn.
        pose proof (find_none _ _ Fx _ He) as Hf. congruence.
      * destruct IH as (pre & b' & post & token' & entry' & -> & Hpre & Hb & Hm' & Hf & Hr).
        { now exists b, token, entry. }
        exists (x :: pre), b', post, token', entry'.
        repeat split; try assumption.
        -- change (x :: pre) with ([x] ++ pre)%list.
           cbn in Hx |- *. destruct (String.eqb (type x) "paragraph"); [|exact Hpre].
           destruct (Inference.matchProjTag (plainText x)) as [m|]; [|exact Hpre].
           destruct (Inference.lookupTag (JS.toLowerCase m)); [discriminate | exact Hpre].
        -- rewrite <- Hr. exact Hstep.
Qed.

(** C7 (amended).  If some paragraph's first override tag [#proj:<token>]
    has a token that names a known project, [inferProject] returns
    confidence 1.0 whatever the title: the first such paragraph decides,
    and the project is the first of the table that its token names. *)
Theorem inferProject_override (blocks : list block) :
  (exists b token entry,
      In b blocks /\ type b = "paragraph"
      /\ Inference.matchProjTag (plainText b) = Some token
      /\ In entry Inference.PROJECT_KEYWORDS /\ tokenNames token entry) ->
  exists pre b post token entry,
    blocks = (pre ++ b :: post)%list
    /\ Inference.extractHashtagProject pre = None
    /\ type b = "paragraph"
    /\ Inference.matchProjTag (plainText b) = Some token
    /\ find (Inference.tagMatches (JS.toLowerCase token)) Inference.PROJECT_KEYWORDS
       = Some entry
    /\ tokenNames token entry
    /\ forall title,
         Inference.inferProject title blocks = Inference.mkInference (fst entry) 1.
Proof.
  intros H.
  destruct (@extractHashtagProject_first blocks H)
    as (pre & b & post & token & entry & Hb & Hpre & Hty & Hm & Hf & Hr).
  exists pre, b, post, token, entry. repeat split; try assumption.
  - apply tagMatches_tokenNames. now destruct (find_some _ _ Hf).
  - intros title. unfold Inference.inferProject. now rewrite Hr.
Qed.

Lemma inferProject_override_witness :
  Inference.inferProject "Podcast planning" [paragraph "agenda #PROJ:hs, invite Karen"]
  = Inference.mkInference "HubSpot" 1.
Proof.
  destruct (@inferProject_override [paragraph "agenda #PROJ:hs, invite Karen"])
    as (pre & b & post & token & entry & Hb & _ & _ & Hm & Hf & _ & Hr).
  - exists (paragraph "agenda #PROJ:hs, invite Karen"), "hs",
      ("HubSpot", ["hubspot"; "crm"; "hs"; "hub spot"]).
    repeat split.
    + left. reflexivity.
    + cbn. tauto.
    + right. exists "hs". split; [cbn; tauto | reflexivity].
  - assert (b = paragraph "agenda #PROJ:hs, invite Karen") as ->.
    { destruct pre as [|x pre]; cbn [app] in Hb.
      - now injection Hb as <- _.
      - injection Hb as _ Hb. destruct pre; discriminate. }
    vm_compute in Hm. injection Hm as <-. vm_compute in Hf. injection Hf as <-.
    exact (Hr "Podcast planning").
Defined.

(** C7 (counterexample).  A paragraph that contains the override tag
    [#proj:clickup], whose token names ClickUp, after another tag whose
    token names nothing: the tag is not seen and the project comes from
    the title, with confidence 0.8. *)
Lemma inferProject_later_tag_ignored :
  In (paragraph "see #proj:zzz or #proj:clickup") [paragraph "see #proj:zzz or #proj:clickup"]
  /\ type (paragraph "see #proj:zzz or #proj:clickup") = "paragraph"
  /\ hasOverrideTag (plainText (paragraph "see #proj:zzz or #proj:clickup")) "clickup"
  /\ In ("ClickUp", ["clickup"; "click up"; "click-up"; "cu"; "cuarc"])
        Inference.PROJECT_KEYWORDS
  /\ tokenNames "clickup" ("ClickUp", ["clickup"; "click up"; "click-up"; "cu"; "cuarc"])
  /\ Inference.inferProject "Podcast planning" [paragraph "see #proj:zzz or #proj:clickup"]
     = Inference.mkInference "Podcast" (8 # 10)
  /\ ~ (Inference.confidence
          (Inference.inferProject "Podcast planning"
             [paragraph "see #proj:zzz or #proj:clickup"]) == 1)%Q.
Proof.
  repeat split.
  - left. reflexivity.
  - exists "see #proj:zzz or ", "#proj:", "". repeat split. discriminate.
  - cbn. tauto.
  - left. reflexivity.
  - intros H. vm_compute in H. discriminate H.
Qed.

(* ------------------------------------------------------------------ *)
(** ** Section deletion *)
(* ------------------------------------------------------------------ *)

(** C9. When no heading of the record matches the section heading,
    [deleteSection] returns true and the only remote call it makes is the
    fetch of the blocks: no block is deleted. *)
Theorem deleteSection_absent (pageId sectionHeading : string) (blocks : list block)
  (rest : list response) (rnd : list Q) (lg : list event) :
  Forall (fun b => isHeading b && QuickTodo.matchesHeading sectionHeading b = false)
         blocks ->
  QuickTodo.deleteSection pageId sectionHeading (mkState (Blocks blocks :: rest) rnd lg)
  = (Returned true,
     mkState rest rnd (lg ++ [Called (GetAllBlocksRecursive pageId) (Blocks blocks)])).
Proof.
  intros Hnone. unfold QuickTodo.deleteSection, tryCatch, bind.
  cbn. rewrite (scanFrom_no_match _ _ Hnone). reflexivity.
Qed.

Lemma deleteSection_absent_witness :
  QuickTodo.deleteSection "page-1" QuickTodo.PROJECT_INFO
    (mkState [Blocks [heading "Task"; paragraph "call Karen"]; Done] [] [])
  = (Returned true,
     mkState [Done] []
       [Called (GetAllBlocksRecursive "page-1")
          (Blocks [heading "Task"; paragraph "call Karen"])]).
Proof.
  apply (@deleteSection_absent "page-1" QuickTodo.PROJECT_INFO
           [heading "Task"; paragraph "call Karen"] [Done] [] []).
  repeat constructor.
Defined.

(* ------------------------------------------------------------------ *)
(** ** Section scanner: the shape of every result *)
(* ------------------------------------------------------------------ *)

Section ScanShape.

Variable matches : block -> bool.

(** What the scanning loop can return, from any index and any current
    section index: either the section index is unchanged (the rest holds no
    matching heading, and ends the current section if there is one), or the
    loop has settled on a matching heading of the rest, whose body runs to
    the next non-matching heading or to the end. *)
Lemma scanFrom_shape (blocks : list block) :
  forall i s s' e',
    0 <= i ->
    SectionScanner.scanFrom matches blocks i s = (s', e') ->
    (s' = s
     /\ ((e' = -1
          /\ Forall (fun b => isHeading b && matches b = false) blocks
          /\ (s <> -1 -> Forall (fun b => isHeading b = false) blocks))
         \/ (s <> -1
             /\ exists mid n post,
                 blocks = (mid ++ n :: post)%list
                 /\ Forall (fun b => isHeading b = false) mid
                 /\ isHeading n = true /\ matches n = false
                 /\ e' = i + Z.of_nat (length mid))))
    \/ exists pre h mid tail,
         sectionSplit matches blocks pre h mid tail
         /\ s' = i + Z.of_nat (length pre)
         /\ e' = (match tail with [] => -1 | _ => s' + 1 + Z.of_nat (length mid) end).
Proof.
  induction blocks as [|b rest IH]; intros i s s' e' Hi Hscan.
  - cbn in Hscan. injection Hscan as <- <-. left. split; [reflexivity|].
    left. repeat split; constructor.
  - cbn [SectionScanner.scanFrom] in Hscan.
    destruct (isHeading b) eqn:Hb; [destruct (matches b) eqn:Hm|].
    + (* a matching heading: the section (re)starts here *)
      right. destruct (IH (i + 1) i s' e' ltac:(lia) Hscan)
        as [[-> [(-> & _ & Hnone) | (_ & mid & n & post & -> & Hmid & Hn & Hnm & ->)]]
           | (pre & h & mid & tail & (-> & Hh & Hhm & Hmid & Htail) & -> & ->)].
      * exists [], b, rest, []. unfold sectionSplit, endsSection.
        rewrite app_nil_r. cbn. repeat split; auto; try lia.
        apply Hnone. lia.
      * exists [], b, mid, (n :: post). unfold sectionSplit, endsSection. cbn.
        repeat split; auto; try lia. right. now exists n, post.
      * exists (b :: pre), h, mid, tail. unfold sectionSplit. cbn [app length].
        repeat split; auto; try lia; try (destruct tail; lia).
    + destruct (s =? -1) eqn:Hs; cbn [negb] in Hscan.
      * (* a heading that does not match, before any section *)
        apply Z.eqb_eq in Hs. subst s.
        destruct (IH (i + 1) (-1) s' e' ltac:(lia) Hscan)
          as [[-> [(-> & Hall & _) | (Hne & _)]]
             | (pre & h & mid & tail & (-> & Hh & Hhm & Hmid & Htail) & -> & ->)].
        -- left. split; [reflexivity|]. left. repeat split.
           ++ constructor; [now rewrite Hb, Hm | exact Hall].
           ++ intros Hne. contradiction.
        -- contradiction.
        -- right. exists (b :: pre), h, mid, tail. unfold sectionSplit. cbn [app length].
           repeat split; auto; try lia; try (destruct tail; lia).
      * (* a heading that does not match ends the current section *)
        injection Hscan as <- <-. apply Z.eqb_neq in Hs.
        left. split; [reflexivity|]. right. split; [exact Hs|].
        exists [], b, rest. cbn. repeat split; auto. lia.
    + (* no heading: passed over *)
      destruct (IH (i + 1) s s' e' ltac:(lia) Hscan)
        as [[-> [(-> & Hall & Hnone) | (Hne & mid & n & post & -> & Hmid & Hn & Hnm & ->)]]
           | (pre & h & mid & tail & (-> & Hh & Hhm & Hmid & Htail) & -> & ->)].
      * left. split; [reflexivity|]. left. repeat split.
        -- constructor; [now rewrite Hb | exact Hall].
        -- intros Hne. constructor; [exact Hb | auto].
      * left. split; [reflexivity|]. right. split; [exact Hne|].
        exists (b :: mid), n, post. cbn [app length]. repeat split; auto. lia.
      * right. exists (b :: pre), h, mid, tail. unfold sectionSplit. cbn [app length].
        repeat split; auto; try lia; try (destruct tail; lia).
Qed.

End ScanShape.

(** The shape of a reported section. *)
Lemma findProjectInfoSection_split (blocks : list block)
  (sec : SectionScanner.section) :
  SectionScanner.findProjectInfoSection blocks = Some sec ->
  exists pre h mid tail,
    sectionSplit SectionScanner.matchesProjectInfo blocks pre h mid tail
    /\ SectionScanner.startIndex sec = Z.of_nat (length pre)
    /\ SectionScanner.endIndex sec = Z.of_nat (length pre) + 1 + Z.of_nat (length mid)
    /\ SectionScanner.sectionHeading sec = Some h
    /\ 0 <= SectionScanner.startIndex sec < SectionScanner.endIndex sec
    /\ SectionScanner.endIndex sec <= Z.of_nat (length blocks).
Proof.
  unfold SectionScanner.findProjectInfoSection.
  destruct (SectionScanner.scanFrom SectionScanner.matchesProjectInfo blocks 0 (-1))
    as [s e] eqn:Hscan.
  destruct (@scanFrom_shape SectionScanner.matchesProjectInfo blocks 0 (-1) s e
              ltac:(lia) Hscan)
    as [[-> _] | (pre & h & mid & tail & Hsplit & -> & ->)].
  - cbn. discriminate.
  - intros Hsec. exists pre, h, mid, tail.
    pose proof Hsplit as (Hb & _).
    assert (Hlen : Z.of_nat (length blocks)
                   = Z.of_nat (length pre) + 1 + Z.of_nat (length mid)
                     + Z.of_nat (length tail)).
    { rewrite Hb. rewrite !length_app. cbn [length]. rewrite length_app. lia. }
    assert (Hs : (0 + Z.of_nat (length pre) =? -1) = false) by (apply Z.eqb_neq; lia).
    rewrite Hs in Hsec. injection Hsec as <-. cbn.
    assert (Hnth : nth_error blocks (Z.to_nat (0 + Z.of_nat (length pre))) = Some h).
    { rewrite Hb, Z.add_0_l, Nat2Z.id, nth_error_app2, Nat.sub_diag by lia. reflexivity. }
    rewrite Z.add_0_l in Hnth. cbn [length] in Hlen.
    destruct tail as [|n post].
    + change (-1 =? -1) with true. cbv iota. cbn [length] in Hlen.
      split; [exact Hsplit|]. repeat split; auto; lia.
    + assert (He : (Z.of_nat (length pre) + 1 + Z.of_nat (length mid) =? -1) = false)
        by (apply Z.eqb_neq; lia).
      rewrite He. cbn [length] in Hlen.
      split; [exact Hsplit|]. repeat split; auto; lia.
Qed.

(** Every section that [findProjectInfoSection] reports is well formed: it
    starts at a matching heading, its body holds no heading, it ends at a
    non-matching heading or at the end of the sequence, and
    [0 <= start < end <= length]. *)
Theorem findProjectInfoSection_well_formed (blocks : list block)
  (sec : SectionScanner.section) :
  SectionScanner.findProjectInfoSection blocks = Some sec ->
  exists pre h mid tail,
    sectionSplit SectionScanner.matchesProjectInfo blocks pre h mid tail
    /\ SectionScanner.startIndex sec = Z.of_nat (length pre)
    /\ SectionScanner.endIndex sec = Z.of_nat (length pre) + 1 + Z.of_nat (length mid)
    /\ SectionScanner.sectionHeading sec = Some h
    /\ 0 <= SectionScanner.startIndex sec < SectionScanner.endIndex sec
    /\ SectionScanner.endIndex sec <= Z.of_nat (length blocks).
Proof. exact (@findProjectInfoSection_split blocks sec). Qed.

Lemma findProjectInfoSection_well_formed_witness :
  exists pre h mid tail,
    sectionSplit SectionScanner.matchesProjectInfo
      [paragraph "intro"; heading "Project Info"; bullet "a"; heading "Next"]
      pre h mid tail
    /\ 1 = Z.of_nat (length pre)
    /\ 3 = Z.of_nat (length pre) + 1 + Z.of_nat (length mid).
Proof.
  destruct (@findProjectInfoSection_well_formed
              [paragraph "intro"; heading "Project Info"; bullet "a"; heading "Next"]
              (SectionScanner.mkSection 1 3 (Some (heading "Project Info"))))
    as (pre & h & mid & tail & Hsplit & Hs & He & _).
  - vm_compute. reflexivity.
  - exists pre, h, mid, tail. cbn in Hs, He. auto.
Defined.

(** [findProjectInfoSection] finds nothing exactly when no heading of the
    sequence matches. *)
Theorem findProjectInfoSection_none_iff (blocks : list block) :
  SectionScanner.findProjectInfoSection blocks = None
  <-> Forall (fun b => isHeading b && SectionScanner.matchesProjectInfo b = false) blocks.
Proof.
  split.
  - unfold SectionScanner.findProjectInfoSection.
    destruct (SectionScanner.scanFrom SectionScanner.matchesProjectInfo blocks 0 (-1))
      as [s e] eqn:Hscan.
    destruct (@scanFrom_shape SectionScanner.matchesProjectInfo blocks 0 (-1) s e
                ltac:(lia) Hscan)
      as [[-> [(_ & Hall & _) | (Hne & _)]] | (pre & h & mid & tail & _ & -> & _)].
    + intros _. exact Hall.
    + contradiction.
    + assert (Hs : (0 + Z.of_nat (length pre) =? -1) = false) by (apply Z.eqb_neq; lia).
      rewrite Hs. discriminate.
  - intros Hall. unfold SectionScanner.findProjectInfoSection.
    rewrite (@scanFrom_no_match SectionScanner.matchesProjectInfo blocks 0 Hall).
    reflexivity.
Qed.

Lemma findProjectInfoSection_first_match_witness :
  SectionScanner.findProjectInfoSection
    ([paragraph "intro"] ++ heading "Project Information" :: [bullet "a"; paragraph "b"]
     ++ heading "Next steps" :: [bullet "c"])
  = Some (SectionScanner.mkSection 1 4 (Some (heading "Project Information"))).
Proof.
  refine (proj2 (@findProjectInfoSection_first_match [paragraph "intro"]
                   [bullet "a"; paragraph "b"] (heading "Project Information")
                   _ _ _ _) (heading "Next steps") [bullet "c"] _ _);
    try (vm_compute; reflexivity); repeat constructor.
Defined.

(* ------------------------------------------------------------------ *)
(** ** Trimmed strings *)
(* ------------------------------------------------------------------ *)

Lemma truthy_iff (s : string) : JS.truthy s = true <-> s <> "".
Proof. destruct s; cbn; split; intros H; congruence. Qed.

Lemma trimEnd_idem (s : string) : JS.trimEnd (JS.trimEnd s) = JS.trimEnd s.
Proof.
  induction s as [|c s IH]; cbn [JS.trimEnd]; [reflexivity|].
  destruct (JS.isSpace c && JS.isEmpty (JS.trimEnd s)) eqn:E; [reflexivity|].
  cbn [JS.trimEnd]. rewrite IH, E. reflexivity.
Qed.

Lemma trimStart_head (s : string) :
  JS.trimStart s = "" \/ exists c r, JS.trimStart s = String c r /\ JS.isSpace c = false.
Proof.
  induction s as [|c s IH]; cbn [JS.trimStart]; [now left|].
  destruct (JS.isSpace c) eqn:E; [exact IH|]. right. now exists c, s.
Qed.

(** [trim] is idempotent: a trimmed string is left alone. *)
Lemma trim_idem (s : string) : JS.trim (JS.trim s) = JS.trim s.
Proof.
  unfold JS.trim. destruct (trimStart_head s) as [-> | (c & r & -> & Hc)].
  - reflexivity.
  - cbn [JS.trimEnd]. rewrite Hc. cbn [andb JS.trimStart]. rewrite Hc.
    cbn [JS.trimEnd]. rewrite Hc. cbn [andb]. now rewrite trimEnd_idem.
Qed.

(* ------------------------------------------------------------------ *)
(** ** Bullets of the project-information section *)
(* ------------------------------------------------------------------ *)

Lemma blockAt_middle (front : list block) (b : block) (back : list block) :
  SectionScanner.blockAt (front ++ b :: back) (Z.of_nat (length front)) = Some b.
Proof.
  unfold SectionScanner.blockAt.
  destruct (Z.of_nat (length front) <? 0) eqn:E; [apply Z.ltb_lt in E; lia|].
  rewrite Nat2Z.id, nth_error_app2, Nat.sub_diag by lia. reflexivity.
Qed.

(** The loop visits exactly the blocks of the range, in order. *)
Lemma bulletsLoop_range (body : list block) :
  forall front back acc,
    SectionScanner.bulletsLoop (length body) (front ++ body ++ back)
      (Z.of_nat (length front)) acc
    = Some (acc ++ flat_map SectionScanner.bulletsOfBlock body)%list.
Proof.
  induction body as [|b body IH]; intros front back acc.
  - cbn. now rewrite app_nil_r.
  - cbn [length SectionScanner.bulletsLoop app].
    rewrite blockAt_middle.
    replace (front ++ b :: body ++ back)%list with ((front ++ [b]) ++ body ++ back)%list
      by (rewrite <- app_assoc; reflexivity).
    replace (Z.of_nat (length front) + 1) with (Z.of_nat (length (front ++ [b])))
      by (rewrite length_app; cbn; lia).
    rewrite IH. cbn [flat_map]. now rewrite app_assoc.
Qed.

Lemma bulletsOfBlock_trimmed (b : block) :
  Forall (fun s => s <> "" /\ JS.trim s = s) (SectionScanner.bulletsOfBlock b).
Proof.
  unfold SectionScanner.bulletsOfBlock.
  set (text := JS.trim (plainText b)).
  assert (Htext : JS.truthy text = true -> text <> "" /\ JS.trim text = text).
  { intros H. split; [now apply truthy_iff | apply trim_idem]. }
  assert (Hclean : JS.truthy (SectionScanner.stripBullet text) = true ->
                   SectionScanner.stripBullet text <> ""
                   /\ JS.trim (SectionScanner.stripBullet text)
                      = SectionScanner.stripBullet text).
  { intros H. split; [now apply truthy_iff|]. unfold SectionScanner.stripBullet.
    destruct (find _ _); apply trim_idem. }
  apply Forall_app; split; [| apply Forall_app; split].
  - destruct (String.eqb (type b) "bulleted_list_item" && JS.truthy text) eqn:E;
      [|constructor].
    apply andb_prop in E as [_ E]. repeat constructor; now apply Htext.
  - destruct (String.eqb (type b) "numbered_list_item" && JS.truthy text) eqn:E;
      [|constructor].
    apply andb_prop in E as [_ E]. repeat constructor; now apply Htext.
  - destruct (_ && _ && _); [|constructor].
    destruct (JS.truthy (SectionScanner.stripBullet text)) eqn:E; [|constructor].
    repeat constructor; now apply Hclean.
Qed.

(** The bullets of a reported section. *)
Lemma extractInfoBullets_body (blocks : list block)
  (sec : SectionScanner.section) :
  SectionScanner.findProjectInfoSection blocks = Some sec ->
  exists pre h mid tail,
    sectionSplit SectionScanner.matchesProjectInfo blocks pre h mid tail
    /\ SectionScanner.extractInfoBullets blocks
         (SectionScanner.startIndex sec) (SectionScanner.endIndex sec)
       = Some (flat_map SectionScanner.bulletsOfBlock mid)
    /\ Forall (fun s => s <> "" /\ JS.trim s = s)
              (flat_map SectionScanner.bulletsOfBlock mid).
Proof.
  intros Hsec.
  destruct (@findProjectInfoSection_split blocks sec Hsec)
    as (pre & h & mid & tail & Hsplit & Hs & He & _).
  exists pre, h, mid, tail. split; [exact Hsplit|]. split.
  - unfold SectionScanner.extractInfoBullets. rewrite Hs, He.
    replace (Z.to_nat (Z.of_nat (length pre) + 1 + Z.of_nat (length mid)
                       - (Z.of_nat (length pre) + 1))) with (length mid) by lia.
    destruct Hsplit as (-> & _).
    replace (pre ++ h :: mid ++ tail)%list with ((pre ++ [h]) ++ mid ++ tail)%list
      by (rewrite <- app_assoc; reflexivity).
    replace (Z.of_nat (length pre) + 1) with (Z.of_nat (length (pre ++ [h])))
      by (rewrite length_app; cbn; lia).
    now rewrite bulletsLoop_range.
  - apply Forall_flat_map, Forall_forall. intros b _. apply bulletsOfBlock_trimmed.
Qed.



(* ------------------------------------------------------------------ *)
(** ** To-do extraction *)
(* ------------------------------------------------------------------ *)


(* ------------------------------------------------------------------ *)
(** ** Project inference: what can be returned *)
(* ------------------------------------------------------------------ *)

Lemma inferFromTitle_some (titleLower : string) (entries : list (string * list string))
  (r : Inference.inference) :
  Inference.inferFromTitle titleLower entries = Some r ->
  Inference.confidence r = (8 # 10)%Q
  /\ Inference.project r <> "Support/Other"
  /\ In (Inference.project r) (map fst entries).
Proof.
  induction entries as [|[project keywords] rest IH]; cbn [Inference.inferFromTitle];
    [discriminate|].
  destruct (String.eqb project "Support/Other") eqn:E.
  - intros H. destruct (IH H) as (Hc & Hp & Hin). cbn. auto.
  - destruct (existsb _ keywords).
    + intros H. injection H as <-. cbn. apply String.eqb_neq in E. auto.
    + intros H. destruct (IH H) as (Hc & Hp & Hin). cbn. auto.
Qed.

Lemma extractHashtagProject_some (blocks : list block) (r : Inference.inference) :
  Inference.extractHashtagProject blocks = Some r ->
  Inference.confidence r = 1%Q
  /\ In (Inference.project r) (map fst Inference.PROJECT_KEYWORDS).
Proof.
  induction blocks as [|b rest IH]; cbn [Inference.extractHashtagProject]; [discriminate|].
  destruct (String.eqb (type b) "paragraph"); [|exact IH].
  destruct (Inference.matchProjTag (plainText b)) as [m|]; [|exact IH].
  unfold Inference.lookupTag.
  destruct (find (Inference.tagMatches (JS.toLowerCase m)) Inference.PROJECT_KEYWORDS)
    as [[project keywords]|] eqn:F; [|exact IH].
  intros H. injection H as <-. cbn [Inference.confidence Inference.project].
  split; [reflexivity|].
  apply find_some in F as [Hin _]. apply (in_map fst) in Hin. exact Hin.
Qed.


Lemma inferFromTitle_first (titleLower : string)
  (before after : list (string * list string)) (entry : string * list string) :
  fst entry <> "Support/Other" ->
  existsb (fun kw => JS.includes titleLower kw) (snd entry) = true ->
  Forall (fun e => existsb (fun kw => JS.includes titleLower kw) (snd e) = false) before ->
  Inference.inferFromTitle titleLower (before ++ entry :: after)
  = Some (Inference.mkInference (fst entry) (8 # 10)).
Proof.
  intros Hne Hkw Hbefore. induction Hbefore as [|[p k] before Hp _ IH];
    cbn [app Inference.inferFromTitle].
  - destruct entry as [project keywords]. cbn in *.
    apply String.eqb_neq in Hne. now rewrite Hne, Hkw.
  - cbn in Hp. rewrite Hp. destruct (String.eqb p "Support/Other"); exact IH.
Qed.

(** Without an override tag, the title decides in table order: the first
    project of the table with a keyword contained in the case-folded title
    is returned with confidence 0.8, whatever later projects match. *)
Theorem inferProject_title_first (title : string) (blocks : list block)
  (before after : list (string * list string)) (entry : string * list string) :
  Inference.extractHashtagProject blocks = None ->
  Inference.PROJECT_KEYWORDS = (before ++ entry :: after)%list ->
  fst entry <> "Support/Other" ->
  existsb (fun kw => JS.includes (JS.toLowerCase title) kw) (snd entry) = true ->
  Forall (fun e => existsb (fun kw => JS.includes (JS.toLowerCase title) kw) (snd e)
                   = false) before ->
  Inference.inferProject title blocks = Inference.mkInference (fst entry) (8 # 10).
Proof.
  intros Hx Htable Hne Hkw Hbefore. unfold Inference.inferProject.
  rewrite Hx, Htable, (@inferFromTitle_first _ before after entry Hne Hkw Hbefore).
  reflexivity.
Qed.

Lemma inferProject_title_first_witness :
  Inference.inferProject "HubSpot CRM: plan the podcast" [paragraph "agenda"]
  = Inference.mkInference "HubSpot" (8 # 10).
Proof.
  apply (@inferProject_title_first "HubSpot CRM: plan the podcast" [paragraph "agenda"]
           (firstn 2 Inference.PROJECT_KEYWORDS) (skipn 3 Inference.PROJECT_KEYWORDS)
           ("HubSpot", ["hubspot"; "crm"; "hs"; "hub spot"])).
  - vm_compute. reflexivity.
  - reflexivity.
  - discriminate.
  - vm_compute. reflexivity.
  - repeat constructor.
Defined.

Lemma findProjectInfoSection_repeated_match_witness :
  exists sec,
    SectionScanner.findProjectInfoSection
      ([paragraph "intro"] ++ heading "Project Info" :: [bullet "a"]
       ++ heading "Project Information (cont.)" :: [bullet "b"])
    = Some sec
    /\ Z.of_nat (length [paragraph "intro"]) < SectionScanner.startIndex sec.
Proof.
  apply (@findProjectInfoSection_repeated_match [paragraph "intro"] [bullet "a"]
           [bullet "b"] (heading "Project Info") (heading "Project Information (cont.)"));
    try (vm_compute; reflexivity); repeat constructor.
Defined.

Lemma matchProjTag_leftmost_witness :
  Inference.matchProjTag ("agenda for " ++ "#Proj:" ++ "ClickUp" ++ ", then lunch")
  = Some "ClickUp".
Proof.
  apply (@matchProjTag_leftmost "agenda for " "#Proj:" "ClickUp" ", then lunch");
    try (vm_compute; reflexivity).
  discriminate.
Defined.

(* ------------------------------------------------------------------ *)
(** ** Running the monad *)
(* ------------------------------------------------------------------ *)

Lemma bind_returned {A B} (m : M A) (k : A -> M B) (st st' : state) (a : A) :
  m st = (Returned a, st') -> bind m k st = k a st'.
Proof. intros H. unfold bind. now rewrite H. Qed.

Lemma bind_thrown {A B} (m : M A) (k : A -> M B) (st st' : state) (e : jsError) :
  m st = (Thrown e, st') -> bind m k st = (Thrown e, st').
Proof. intros H. unfold bind. now rewrite H. Qed.

Lemma tryCatch_returned {A} (m : M A) (handler : jsError -> M A) (st st' : state) (a : A) :
  m st = (Returned a, st') -> tryCatch m handler st = (Returned a, st').
Proof. intros H. unfold tryCatch. now rewrite H. Qed.

Lemma tryCatch_thrown {A} (m : M A) (handler : jsError -> M A) (st st' : state)
  (e : jsError) :
  m st = (Thrown e, st') -> tryCatch m handler st = handler e st'.
Proof. intros H. unfold tryCatch. now rewrite H. Qed.

(** One remote call: the next reply is consumed and logged. *)
Lemma call_run (rq : request) (sc : list response) (rnd : list Q) (lg : list event) :
  call rq (mkState sc rnd lg)
  = (Returned (nextReply sc), mkState (tl sc) rnd (lg ++ [Called rq (nextReply sc)])).
Proof. destruct sc; reflexivity. Qed.

Lemma perform_run (rq : request) (sc : list response) (rnd : list Q) (lg : list event) :
  perform rq (mkState sc rnd lg)
  = (match nextReply sc with Raised e => Thrown e | _ => Returned tt end,
     mkState (tl sc) rnd (lg ++ [Called rq (nextReply sc)])).
Proof.
  unfold perform. unfold bind. rewrite call_run. now destruct (nextReply sc).
Qed.

Lemma getBlocksLike_run (rq : request) (sc : list response) (rnd : list Q)
  (lg : list event) :
  NotionClient.getBlocksLike rq (mkState sc rnd lg)
  = (match nextReply sc with
     | Blocks blocks => Returned blocks
     | Raised e => Thrown e
     | _ => Thrown typeError
     end,
     mkState (tl sc) rnd (lg ++ [Called rq (nextReply sc)])).
Proof.
  unfold NotionClient.getBlocksLike. unfold bind. rewrite call_run.
  now destruct (nextReply sc).
Qed.

Lemma getBlocksLike_blocks (rq : request) (sc : list response) (rnd : list Q)
  (lg : list event) (blocks : list block) :
  nextReply sc = Blocks blocks ->
  NotionClient.getBlocksLike rq (mkState sc rnd lg)
  = (Returned blocks, mkState (tl sc) rnd (lg ++ [Called rq (Blocks blocks)])).
Proof. intros H. rewrite getBlocksLike_run, H. reflexivity. Qed.

(** A fetch that is not answered with blocks throws. *)
Lemma getBlocksLike_fails (rq : request) (sc : list response) (rnd : list Q)
  (lg : list event) :
  isBlocks (nextReply sc) = false ->
  exists e,
    NotionClient.getBlocksLike rq (mkState sc rnd lg)
    = (Thrown e, mkState (tl sc) rnd (lg ++ [Called rq (nextReply sc)])).
Proof.
  intros H. rewrite getBlocksLike_run.
  destruct (nextReply sc); try discriminate; eexists; reflexivity.
Qed.

(* ------------------------------------------------------------------ *)
(** ** Section deletion: what is deleted *)
(* ------------------------------------------------------------------ *)

Lemma scanFrom_split (matches : block -> bool) (blocks pre : list block) (h : block)
  (mid tail : list block) :
  sectionSplit matches blocks pre h mid tail ->
  Forall (fun b => isHeading b && matches b = false) pre ->
  SectionScanner.scanFrom matches blocks 0 (-1)
  = (Z.of_nat (length pre),
     match tail with
     | [] => -1
     | _ => Z.of_nat (length pre) + 1 + Z.of_nat (length mid)
     end).
Proof.
  intros (-> & Hh & Hm & Hmid & Htail) Hpre.
  rewrite (@scanFrom_skip matches pre _ 0 Hpre). cbn [SectionScanner.scanFrom].
  rewrite Hh, Hm, (@scanFrom_body matches mid tail _ _ Hmid), Z.add_0_l.
  destruct Htail as [-> | (n & post & -> & Hn & Hnm)]; cbn [SectionScanner.scanFrom].
  - reflexivity.
  - rewrite Hn, Hnm.
    assert (Hs : (Z.of_nat (length pre) =? -1) = false) by (apply Z.eqb_neq; lia).
    rewrite Hs. reflexivity.
Qed.

Lemma slice_section (pre : list block) (h : block) (mid tail : list block) :
  QuickTodo.slice (pre ++ h :: mid ++ tail) (Z.of_nat (length pre))
    (Z.of_nat (length pre) + 1 + Z.of_nat (length mid))
  = h :: mid.
Proof.
  unfold QuickTodo.slice.
  replace (Z.to_nat (Z.of_nat (length pre) + 1 + Z.of_nat (length mid)
                     - Z.of_nat (length pre))) with (S (length mid)) by lia.
  rewrite Nat2Z.id, skipn_app, skipn_all, Nat.sub_diag. cbn [app skipn firstn].
  f_equal. rewrite firstn_app, firstn_all, Nat.sub_diag. cbn. apply app_nil_r.
Qed.

(** The deletion loop asks for every block in turn and goes on after a
    refusal. *)
Lemma deleteOne_run (b : block) (sc : list response) (rnd : list Q) (lg : list event) :
  tryCatch (perform (BlocksDelete (id b))) (fun _ => ret tt) (mkState sc rnd lg)
  = (Returned tt,
     mkState (tl sc) rnd (lg ++ [Called (BlocksDelete (id b)) (nextReply sc)])).
Proof.
  unfold tryCatch. rewrite perform_run. now destruct (nextReply sc).
Qed.

(** The deletion loop asks for every block in turn and goes on after a
    refusal. *)
Lemma deleteLoop_run (blocks : list block) :
  forall replies rest rnd lg,
    length replies = length blocks ->
    forEach blocks
      (fun block => tryCatch (perform (BlocksDelete (id block))) (fun _ => ret tt))
      (mkState (replies ++ rest) rnd lg)
    = (Returned tt, mkState rest rnd (lg ++ deletions blocks replies)).
Proof.
  induction blocks as [|b bs IH]; intros replies rest rnd lg Hlen.
  - destruct replies; [|discriminate]. cbn. unfold deletions. cbn.
    now rewrite app_nil_r.
  - destruct replies as [|r replies]; [discriminate|].
    injection Hlen as Hlen.
    cbn [forEach]. erewrite bind_returned by apply deleteOne_run.
    cbn [app tl nextReply]. rewrite (IH _ _ _ _ Hlen).
    unfold deletions. cbn [combine map fst snd].
    now rewrite <- app_assoc.
Qed.

(** When the section is found, [deleteSection] requests the deletion of
    the heading and of every block of its body, in order and nothing else,
    goes on when a deletion is refused, and returns true whatever the
    replies were. *)
Theorem deleteSection_found (pageId sectionHeading : string)
  (blocks pre : list block) (h : block) (mid tail : list block)
  (replies rest : list response) (rnd : list Q) (lg : list event) :
  sectionSplit (QuickTodo.matchesHeading sectionHeading) blocks pre h mid tail ->
  Forall (fun b => isHeading b && QuickTodo.matchesHeading sectionHeading b = false) pre ->
  length replies = length (h :: mid) ->
  QuickTodo.deleteSection pageId sectionHeading
    (mkState (Blocks blocks :: replies ++ rest) rnd lg)
  = (Returned true,
     mkState rest rnd
       (lg ++ Called (GetAllBlocksRecursive pageId) (Blocks blocks)
           :: deletions (h :: mid) replies)).
Proof.
  intros Hsplit Hpre Hlen.
  unfold QuickTodo.deleteSection. apply tryCatch_returned.
  erewrite bind_returned
    by (unfold NotionClient.getAllBlocksRecursive; apply getBlocksLike_blocks;
        reflexivity).
  cbn [nextReply tl].
  rewrite (scanFrom_split Hsplit Hpre).
  assert (Hs : (Z.of_nat (length pre) =? -1) = false) by (apply Z.eqb_neq; lia).
  rewrite Hs.
  assert (Hslice : QuickTodo.slice blocks (Z.of_nat (length pre))
                     (if (match tail with
                          | [] => -1
                          | _ => Z.of_nat (length pre) + 1 + Z.of_nat (length mid)
                          end =? -1)
                      then Z.of_nat (length blocks)
                      else match tail with
                           | [] => -1
                           | _ => Z.of_nat (length pre) + 1 + Z.of_nat (length mid)
                           end)
                   = h :: mid).
  { destruct Hsplit as (-> & _). destruct tail as [|n post].
    - change (-1 =? -1) with true. cbv iota.
      replace (Z.of_nat (length (pre ++ h :: mid ++ [])))
        with (Z.of_nat (length pre) + 1 + Z.of_nat (length mid))
        by (rewrite length_app; cbn [length]; rewrite length_app; cbn [length]; lia).
      apply slice_section.
    - assert (He : (Z.of_nat (length pre) + 1 + Z.of_nat (length mid) =? -1) = false)
        by (apply Z.eqb_neq; lia).
      rewrite He. apply slice_section. }
  rewrite Hslice.
  erewrite bind_returned by (apply deleteLoop_run; exact Hlen).
  unfold ret. rewrite <- app_assoc. reflexivity.
Qed.

Lemma deleteSection_found_witness :
  QuickTodo.deleteSection "page-1" QuickTodo.PROJECT_INFO
    (mkState (Blocks [heading "Task"; paragraph "call Karen";
                      mkBlock "b1" "heading_2" ["Project Info"] false false;
                      mkBlock "b2" "paragraph" ["hubspot key"] false false]
              :: [Raised connectionLost; Done] ++ [Done]) [] [])
  = (Returned true,
     mkState [Done] []
       ([] ++ Called (GetAllBlocksRecursive "page-1")
                (Blocks [heading "Task"; paragraph "call Karen";
                         mkBlock "b1" "heading_2" ["Project Info"] false false;
                         mkBlock "b2" "paragraph" ["hubspot key"] false false])
           :: deletions [mkBlock "b1" "heading_2" ["Project Info"] false false;
                         mkBlock "b2" "paragraph" ["hubspot key"] false false]
                [Raised connectionLost; Done])).
Proof.
  apply (@deleteSection_found "page-1" QuickTodo.PROJECT_INFO _
           [heading "Task"; paragraph "call Karen"]
           (mkBlock "b1" "heading_2" ["Project Info"] false false)
           [mkBlock "b2" "paragraph" ["hubspot key"] false false] []).
  - unfold sectionSplit, endsSection. repeat split; try (vm_compute; reflexivity).
    + repeat constructor.
    + now left.
  - repeat constructor.
  - reflexivity.
Defined.

(** The runs of [deleteSection]. *)
Lemma deleteSection_run (pageId sectionHeading : string) (st : state) :
  exists b st',
    QuickTodo.deleteSection pageId sectionHeading st = (Returned b, st')
    /\ (b = false <-> isBlocks (nextReply (script st)) = false)
    /\ (b = false ->
        log st' = (log st ++ [Called (GetAllBlocksRecursive pageId)
                                (nextReply (script st))])%list).
Proof.
  destruct st as [sc rnd lg]. cbn [script log].
  assert (Hloop : forall bs st1, exists st2,
             forEach bs
               (fun block => tryCatch (perform (BlocksDelete (id block)))
                                      (fun _ => ret tt)) st1
             = (Returned tt, st2)).
  { induction bs as [|b bs IH]; intros [sc1 rnd1 lg1]; cbn [forEach].
    - eexists. reflexivity.
    - erewrite bind_returned by apply deleteOne_run. apply IH. }
  unfold QuickTodo.deleteSection.
  destruct (isBlocks (nextReply sc)) eqn:Hb.
  - destruct (nextReply sc) as [ | blocks | | | | | | ] eqn:Hn; try discriminate.
    destruct (SectionScanner.scanFrom (QuickTodo.matchesHeading sectionHeading)
                blocks 0 (-1)) as [s e] eqn:Hscan.
    destruct (s =? -1) eqn:Hs.
    + exists true. eexists.
      split; [| split; [split; intros H; cbn in H; discriminate H
                       | intros H; discriminate H]].
      apply tryCatch_returned.
      erewrite bind_returned
        by (unfold NotionClient.getAllBlocksRecursive; apply getBlocksLike_blocks;
            exact Hn).
      rewrite Hscan, Hs. reflexivity.
    + match type of Hscan with _ = (?s0, ?e0) =>
        destruct (Hloop (QuickTodo.slice blocks s0
                           (if e0 =? -1 then Z.of_nat (length blocks) else e0))
                    (mkState (tl sc) rnd
                       (lg ++ [Called (GetAllBlocksRecursive pageId) (Blocks blocks)])))
          as (st2 & Hrun) end.
      exists true, st2.
      split; [| split; [split; intros H; cbn in H; discriminate H
                       | intros H; discriminate H]].
      apply tryCatch_returned.
      erewrite bind_returned
        by (unfold NotionClient.getAllBlocksRecursive; apply getBlocksLike_blocks;
            exact Hn).
      rewrite Hscan, Hs.
      erewrite bind_returned by exact Hrun. reflexivity.
  - destruct (@getBlocksLike_fails (GetAllBlocksRecursive pageId) sc rnd lg Hb)
      as (e & Hfail).
    exists false,
      (mkState (tl sc) rnd
         (lg ++ [Called (GetAllBlocksRecursive pageId) (nextReply sc)])).
    split; [|split; [tauto | intros _; reflexivity]].
    erewrite tryCatch_thrown
      by (erewrite bind_thrown
            by (unfold NotionClient.getAllBlocksRecursive; exact Hfail);
          reflexivity).
    reflexivity.
Qed.

(** [deleteSection] never throws: it always returns a boolean, and the
    boolean is false only when the fetch of the blocks did not answer with
    blocks; in that case no deletion is requested. *)
Theorem deleteSection_returns (pageId sectionHeading : string) (st : state) :
  exists b st',
    QuickTodo.deleteSection pageId sectionHeading st = (Returned b, st')
    /\ (b = false <-> isBlocks (nextReply (script st)) = false)
    /\ (b = false ->
        log st' = (log st ++ [Called (GetAllBlocksRecursive pageId)
                                (nextReply (script st))])%list).
Proof. exact (@deleteSection_run pageId sectionHeading st). Qed.

(* ------------------------------------------------------------------ *)
(** ** Appending to a section: the runs of [appendToSection] *)
(* ------------------------------------------------------------------ *)

Lemma call_step (rq : request) (st : state) :
  call rq st = (Returned (nextReply (script st)), step rq st).
Proof. destruct st as [sc rnd lg]. apply call_run. Qed.

Lemma perform_step (rq : request) (st : state) :
  perform rq st
  = (match nextReply (script st) with Raised e => Thrown e | _ => Returned tt end,
     step rq st).
Proof. destruct st as [sc rnd lg]. apply perform_run. Qed.

Lemma getTopLevelBlocks_step (pageId : string) (st : state) :
  NotionClient.getTopLevelBlocks pageId st
  = (match fetchError (nextReply (script st)) with
     | Some e => Thrown e
     | None => match nextReply (script st) with
               | Blocks blocks => Returned blocks
               | _ => Thrown typeError
               end
     end,
     step (GetTopLevelBlocks pageId) st).
Proof.
  destruct st as [sc rnd lg]. unfold NotionClient.getTopLevelBlocks.
  rewrite getBlocksLike_run. unfold step. cbn [script randoms log].
  now destruct (nextReply sc).
Qed.

Lemma sleep_pause (ms : Q) (st : state) : sleep ms st = (Returned tt, pause ms st).
Proof. reflexivity. Qed.

Section AppendRuns.

Variables pageId content : string.

(** Every call of [appendToSection] is one of the runs, whatever the
    replies: with fuel beyond the depth bound it returns a boolean, it
    never throws, and the outcome does not depend on the fuel. *)
Lemma appendToSectionFuel_run :
  forall k h fb rc st,
    (appendDepth h fb rc <= k)%nat ->
    exists b st',
      AppendRun pageId content h fb rc st b st'
      /\ forall n, (appendDepth h fb rc < n)%nat ->
           ProjectPage.appendToSectionFuel n pageId h content fb rc st
           = (Returned b, st').
Proof.
  induction k as [k IH] using lt_wf_ind. intros h fb rc st Hk.
  (* the catch block, after an error [e] in state [st1] *)
  assert (Hcatch : forall e st1,
    exists b st',
      ((ProjectPage.retryable e && (rc <? 2) = true
        /\ AppendRun pageId content h fb (rc + 1)
             (pause (inject_Z ((rc + 1) * 3000)) st1) b st')
       \/ (ProjectPage.retryable e && (rc <? 2) = false /\ b = false /\ st' = st1))
      /\ forall n', (appendDepth h fb rc <= n')%nat ->
           (if ProjectPage.retryable e && (rc <? 2)
            then sleep (inject_Z ((rc + 1) * 3000)) ;;;
                 ProjectPage.appendToSectionFuel n' pageId h content fb (rc + 1)
            else ret false) st1
           = (Returned b, st')).
  { intros e st1. destruct (ProjectPage.retryable e && (rc <? 2)) eqn:Hc.
    - assert (Hrc : rc < 2).
      { apply andb_prop in Hc as [_ Hc]. now apply Z.ltb_lt. }
      assert (Hd : (appendDepth h fb (rc + 1) < appendDepth h fb rc)%nat).
      { unfold appendDepth. destruct (usable h fb); lia. }
      destruct (IH (appendDepth h fb (rc + 1)) ltac:(lia) h fb (rc + 1)
                  (pause (inject_Z ((rc + 1) * 3000)) st1) (Nat.le_refl _))
        as (b & st' & Hrun & Hfuel).
      exists b, st'. split; [left; auto|].
      intros n' Hn'. erewrite bind_returned by apply sleep_pause.
      apply Hfuel. lia.
    - exists false, st1. split; [right; auto|]. intros n' _. reflexivity. }
  destruct (fetchError (nextReply (script st))) as [e|] eqn:Hfe.
  - (* the fetch failed *)
    destruct (Hcatch e (step (GetTopLevelBlocks pageId) st))
      as (b & st' & [(Hc & Hrun) | (Hc & -> & ->)] & Hfuel).
    + exists b, st'. split; [eapply AR_fetch_retry; eauto|].
      intros [|n'] Hn; [lia|]. cbn [ProjectPage.appendToSectionFuel].
      erewrite tryCatch_thrown
        by (erewrite bind_thrown
              by (rewrite getTopLevelBlocks_step, Hfe; reflexivity);
            reflexivity).
      apply Hfuel. lia.
    + exists false, (step (GetTopLevelBlocks pageId) st).
      split; [eapply AR_fetch_final; eauto|].
      intros [|n'] Hn; [lia|]. cbn [ProjectPage.appendToSectionFuel].
      erewrite tryCatch_thrown
        by (erewrite bind_thrown
              by (rewrite getTopLevelBlocks_step, Hfe; reflexivity);
            reflexivity).
      apply Hfuel. lia.
  - (* the fetch answered with blocks *)
    destruct (nextReply (script st)) as [ | blocks | | | | | | ] eqn:Hn; try discriminate.
    assert (Hfetch : NotionClient.getTopLevelBlocks pageId st
                     = (Returned blocks, step (GetTopLevelBlocks pageId) st)).
    { rewrite getTopLevelBlocks_step, Hn. reflexivity. }
    set (st1 := step (GetTopLevelBlocks pageId) st) in *.
    destruct (ProjectPage.findSectionBlock h blocks) as [sb|] eqn:Hfind.
    + (* the section heading is there *)
      set (rq := BlocksChildrenAppend pageId (ProjectPage.bulletBlocks content) (id sb)).
      destruct (nextReply (script st1)) as [ | | | | | | | e] eqn:Hr.
      8: { (* the append was refused *)
        destruct (Hcatch e (step rq st1))
          as (b & st' & [(Hc & Hrun) | (Hc & -> & ->)] & Hfuel).
        - exists b, st'. split; [eapply AR_refused_retry; eauto|].
          intros [|n'] Hlt; [lia|]. cbn [ProjectPage.appendToSectionFuel].
          erewrite tryCatch_thrown
            by (erewrite bind_returned by exact Hfetch;
                rewrite Hfind;
                erewrite bind_thrown
                  by (rewrite perform_step; fold st1; rewrite Hr; reflexivity);
                reflexivity).
          apply Hfuel. lia.
        - exists false, (step rq st1). split; [eapply AR_refused_final; eauto|].
          intros [|n'] Hlt; [lia|]. cbn [ProjectPage.appendToSectionFuel].
          erewrite tryCatch_thrown
            by (erewrite bind_returned by exact Hfetch;
                rewrite Hfind;
                erewrite bind_thrown
                  by (rewrite perform_step; fold st1; rewrite Hr; reflexivity);
                reflexivity).
          apply Hfuel. lia. }
      all: exists true, (step rq st1);
        (split;
         [ eapply AR_appended; eauto; fold st1; rewrite Hr; reflexivity
         | intros [|n'] Hlt; [lia|]; cbn [ProjectPage.appendToSectionFuel];
           apply tryCatch_returned;
           erewrite bind_returned by exact Hfetch;
           rewrite Hfind;
           erewrite bind_returned
             by (rewrite perform_step; fold st1; rewrite Hr; reflexivity);
           reflexivity ]).
    + (* the section heading is missing *)
      destruct (usable h fb) eqn:Hu.
      * destruct fb as [fallback|]; [|discriminate].
        assert (Hd : (appendDepth fallback None rc < appendDepth h (Some fallback) rc)%nat).
        { unfold appendDepth. rewrite Hu. cbn [usable]. lia. }
        destruct (IH (appendDepth fallback None rc) ltac:(lia) fallback None rc st1
                    (Nat.le_refl _)) as (b & st' & Hrun & Hfuel).
        exists b, st'. split; [eapply AR_fallback; eauto|].
        intros [|n'] Hlt; [lia|]. cbn [ProjectPage.appendToSectionFuel].
        apply tryCatch_returned.
        erewrite bind_returned by exact Hfetch.
        rewrite Hfind. cbn [usable] in Hu. rewrite Hu.
        apply Hfuel. lia.
      * exists false, st1. split; [eapply AR_missing; eauto|].
        intros [|n'] Hlt; [lia|]. cbn [ProjectPage.appendToSectionFuel].
        apply tryCatch_returned.
        erewrite bind_returned by exact Hfetch.
        rewrite Hfind. destruct fb as [fallback|]; [|reflexivity].
        cbn [usable] in Hu. rewrite Hu. reflexivity.
Qed.

End AppendRuns.

Lemma appendsAnchored_app (ok : block -> Prop) (evs1 evs2 : list event) :
  forall known,
    appendsAnchored ok known evs1 ->
    (forall known', appendsAnchored ok known' evs2) ->
    appendsAnchored ok known (evs1 ++ evs2).
Proof.
  induction evs1 as [|ev evs1 IH]; intros known H1 H2; [apply H2|].
  cbn [app]. destruct ev as [rq rs | ms]; [|cbn in *; auto].
  destruct rq; cbn in *; auto.
  - destruct rs; auto.
  - destruct H1 as [Hb H1]. auto.
Qed.

Lemma appendsAnchored_mono (ok1 ok2 : block -> Prop) (evs : list event) :
  (forall b, ok1 b -> ok2 b) ->
  forall known, appendsAnchored ok1 known evs -> appendsAnchored ok2 known evs.
Proof.
  intros Hok. induction evs as [|ev evs IH]; intros known H; [exact I|].
  destruct ev as [rq rs | ms]; [|cbn in *; auto].
  destruct rq; cbn in *; auto.
  - destruct rs; auto.
  - destruct H as [(b & Hin & Hid & Hb) H]. split; [exists b; auto | auto].
Qed.

Lemma pauses_app (evs1 evs2 : list event) :
  pauses (evs1 ++ evs2) = (pauses evs1 ++ pauses evs2)%list.
Proof.
  induction evs1 as [|[rq rs | ms] evs1 IH]; cbn; [reflexivity | exact IH | now rewrite IH].
Qed.

Lemma countEvents_app (p : event -> bool) (evs1 evs2 : list event) :
  countEvents p (evs1 ++ evs2) = (countEvents p evs1 + countEvents p evs2)%nat.
Proof. unfold countEvents. now rewrite filter_app, length_app. Qed.

Lemma countAccepted_fetch_append (p q : string) (rs1 rs2 : response)
  (children : list block) (after : string) (evs : list event) :
  countEvents acceptedAppend
    (Called (GetTopLevelBlocks p) rs1
     :: Called (BlocksChildrenAppend q children after) rs2 :: evs)
  = ((if isRaised rs2 then 0 else 1) + countEvents acceptedAppend evs)%nat.
Proof. unfold countEvents. cbn. now destruct (isRaised rs2). Qed.

(** What a run of [appendToSection] does to the log. *)
Lemma AppendRun_effects (pageId content h : string) (fb : option string) (rc : Z)
  (st : state) (b : bool) (st' : state) :
  AppendRun pageId content h fb rc st b st' ->
  exists evs,
    log st' = (log st ++ evs)%list
    /\ randoms st' = randoms st
    /\ (forall known, appendsAnchored (anchorFor h fb) known evs)
    /\ countEvents acceptedAppend evs = (if b then 1 else 0)%nat
    /\ (exists j, (j <= Z.to_nat (2 - rc))%nat /\ pauses evs = waitPlan j rc)
    /\ (countEvents isFetch evs
        <= Z.to_nat (2 - rc) + (if usable h fb then 1 else 0) + 1)%nat.
Proof.
  induction 1 as
    [ h fb rc st blocks sb Hn Hfind st1 rq Hok
    | h fb rc st blocks sb e b st' Hn Hfind st1 rq Hr Hc _ IH
    | h fb rc st blocks sb e Hn Hfind st1 rq Hr Hc
    | h fallback rc st blocks b st' Hn Hfind Hu _ IH
    | h fb rc st blocks Hn Hfind Hu
    | h fb rc st e b st' Hfe Hc _ IH
    | h fb rc st e Hfe Hc ].
  - (* appended *)
    exists [Called (GetTopLevelBlocks pageId) (nextReply (script st));
            Called rq (nextReply (script st1))].
    split; [subst st1; cbn; now rewrite <- app_assoc|].
    split; [reflexivity|]. split; [|split; [|split]].
    + intros known. rewrite Hn. cbn. split; [|exact I].
      apply find_some in Hfind as [Hin Hm]. exists sb. repeat split; auto. now left.
    + subst rq. rewrite countAccepted_fetch_append, Hok. reflexivity.
    + exists 0%nat. split; [lia | reflexivity].
    + unfold countEvents. cbn. lia.
  - (* refused, retried *)
    destruct IH as (evs & Hlog & Hrnd & Hanch & Hacc & (j & Hj & Hp) & Hf).
    assert (Hrc : rc < 2) by (apply andb_prop in Hc as [_ Hc]; now apply Z.ltb_lt).
    exists ([Called (GetTopLevelBlocks pageId) (nextReply (script st));
             Called rq (nextReply (script st1));
             Slept (inject_Z ((rc + 1) * 3000))] ++ evs)%list.
    split; [rewrite Hlog; subst st1; cbn; now rewrite <- !app_assoc|].
    split; [rewrite Hrnd; reflexivity|]. split; [|split; [|split]].
    + intros known. apply appendsAnchored_app; [|exact Hanch].
      rewrite Hn. cbn. split; [|exact I].
      apply find_some in Hfind as [Hin Hm]. exists sb. repeat split; auto. now left.
    + rewrite countEvents_app, Hacc. subst rq.
      rewrite countAccepted_fetch_append, Hr. reflexivity.
    + exists (S j). split; [lia|]. rewrite pauses_app, Hp. reflexivity.
    + rewrite countEvents_app. subst rq. unfold countEvents at 1.
      cbn [filter isFetch length]. lia.
  - (* refused, given up *)
    exists [Called (GetTopLevelBlocks pageId) (nextReply (script st));
            Called rq (nextReply (script st1))].
    split; [subst st1; cbn; now rewrite <- app_assoc|].
    split; [reflexivity|]. split; [|split; [|split]].
    + intros known. rewrite Hn. cbn. split; [|exact I].
      apply find_some in Hfind as [Hin Hm]. exists sb. repeat split; auto. now left.
    + subst rq. rewrite countAccepted_fetch_append, Hr. reflexivity.
    + exists 0%nat. split; [lia | reflexivity].
    + unfold countEvents. cbn. lia.
  - (* fallback *)
    destruct IH as (evs & Hlog & Hrnd & Hanch & Hacc & (j & Hj & Hp) & Hf).
    exists ([Called (GetTopLevelBlocks pageId) (nextReply (script st))] ++ evs)%list.
    split; [rewrite Hlog; cbn; now rewrite <- !app_assoc|].
    split; [rewrite Hrnd; reflexivity|]. split; [|split; [|split]].
    + intros known. apply appendsAnchored_app.
      * rewrite Hn. exact I.
      * intros known'. apply (appendsAnchored_mono (anchorFor fallback None));
          [|apply Hanch].
        intros b0 [Hb0 | (Hu' & _)]; [|discriminate].
        right. split; [exact Hu|]. now exists fallback.
    + rewrite countEvents_app, Hacc. unfold countEvents. cbn. reflexivity.
    + exists j. split; [lia|]. rewrite pauses_app, Hp. reflexivity.
    + rewrite countEvents_app. unfold countEvents at 1. cbn [filter isFetch length].
      rewrite Hu. cbn [usable] in Hf. lia.
  - (* missing, no fallback *)
    exists [Called (GetTopLevelBlocks pageId) (nextReply (script st))].
    split; [reflexivity|]. split; [reflexivity|]. split; [|split; [|split]].
    + intros known. rewrite Hn. exact I.
    + reflexivity.
    + exists 0%nat. split; [lia | reflexivity].
    + unfold countEvents. cbn. lia.
  - (* fetch failed, retried *)
    destruct IH as (evs & Hlog & Hrnd & Hanch & Hacc & (j & Hj & Hp) & Hf).
    assert (Hrc : rc < 2) by (apply andb_prop in Hc as [_ Hc]; now apply Z.ltb_lt).
    exists ([Called (GetTopLevelBlocks pageId) (nextReply (script st));
             Slept (inject_Z ((rc + 1) * 3000))] ++ evs)%list.
    split; [rewrite Hlog; cbn; now rewrite <- !app_assoc|].
    split; [rewrite Hrnd; reflexivity|]. split; [|split; [|split]].
    + intros known. apply appendsAnchored_app; [|exact Hanch].
      destruct (nextReply (script st)); try discriminate; exact I.
    + rewrite countEvents_app, Hacc. reflexivity.
    + exists (S j). split; [lia|]. rewrite pauses_app, Hp. reflexivity.
    + rewrite countEvents_app. unfold countEvents at 1. cbn [filter isFetch length].
      lia.
  - (* fetch failed, given up *)
    exists [Called (GetTopLevelBlocks pageId) (nextReply (script st))].
    split; [reflexivity|]. split; [reflexivity|]. split; [|split; [|split]].
    + intros known. destruct (nextReply (script st)); try discriminate; exact I.
    + reflexivity.
    + exists 0%nat. split; [lia | reflexivity].
    + unfold countEvents. cbn. lia.
Qed.

(** [appendToSection] is one of the runs. *)
Lemma appendToSection_run (pageId h content : string) (fb : option string) (rc : Z)
  (st : state) :
  exists b st',
    ProjectPage.appendToSection pageId h content fb rc st = (Returned b, st')
    /\ AppendRun pageId content h fb rc st b st'.
Proof.
  destruct (@appendToSectionFuel_run pageId content (appendDepth h fb rc) h fb rc st
              (Nat.le_refl _)) as (b & st' & Hrun & Hfuel).
  exists b, st'. split; [|exact Hrun].
  apply Hfuel. unfold ProjectPage.appendFuel, appendDepth. destruct (usable h fb); lia.
Qed.

(** [appendToSection] never throws and never exhausts its recursion
    budget: whatever the store replies, it returns a boolean. *)
Theorem appendToSection_returns (pageId sectionHeading content : string)
  (fallbackSection : option string) (retryCount : Z) (st : state) :
  exists b st',
    ProjectPage.appendToSection pageId sectionHeading content fallbackSection
      retryCount st
    = (Returned b, st').
Proof.
  destruct (appendToSection_run pageId sectionHeading content fallbackSection
              retryCount st) as (b & st' & Hrun & _).
  now exists b, st'.
Qed.


(** Every append request of [appendToSection] inserts after a heading of
    the blocks it fetched last, and that heading matches the section asked
    for, or the fallback section when the fallback is used. *)
Theorem appendToSection_anchored (pageId sectionHeading content : string)
  (fallbackSection : option string) (retryCount : Z) (st : state) :
  exists b st' evs,
    ProjectPage.appendToSection pageId sectionHeading content fallbackSection
      retryCount st
    = (Returned b, st')
    /\ log st' = (log st ++ evs)%list
    /\ forall known,
         appendsAnchored (anchorFor sectionHeading fallbackSection) known evs.
Proof.
  destruct (appendToSection_run pageId sectionHeading content fallbackSection
              retryCount st) as (b & st' & Hrun & Hrel).
  destruct (AppendRun_effects Hrel) as (evs & Hlog & _ & Hanch & _).
  now exists b, st', evs.
Qed.


(** When the section heading is not among the fetched top-level blocks,
    [appendToSection] goes on as a call for the decisions-log section
    that has no fallback left: the content is appended under that section
    when it is found on the second fetch, and the call returns false after
    exactly two fetches and no append when it is missing too. *)
Theorem appendToSection_fallback (pageId sectionHeading content : string)
  (retryCount : Z) (st : state) (blocks : list block) :
  nextReply (script st) = Blocks blocks ->
  ProjectPage.findSectionBlock sectionHeading blocks = None ->
  sectionHeading <> ProjectPage.DECISIONS ->
  let st1 := step (GetTopLevelBlocks pageId) st in
  ProjectPage.appendToSection pageId sectionHeading content
    (Some ProjectPage.DECISIONS) retryCount st
  = ProjectPage.appendToSection pageId ProjectPage.DECISIONS content None retryCount st1
  /\ (forall blocks',
        nextReply (script st1) = Blocks blocks' ->
        ProjectPage.findSectionBlock ProjectPage.DECISIONS blocks' = None ->
        ProjectPage.appendToSection pageId sectionHeading content
          (Some ProjectPage.DECISIONS) retryCount st
        = (Returned false, step (GetTopLevelBlocks pageId) st1))
  /\ (forall blocks' sectionBlock,
        nextReply (script st1) = Blocks blocks' ->
        ProjectPage.findSectionBlock ProjectPage.DECISIONS blocks' = Some sectionBlock ->
        isRaised (nextReply (script (step (GetTopLevelBlocks pageId) st1))) = false ->
        ProjectPage.appendToSection pageId sectionHeading content
          (Some ProjectPage.DECISIONS) retryCount st
        = (Returned true,
           step (BlocksChildrenAppend pageId (ProjectPage.bulletBlocks content)
                   (id sectionBlock))
                (step (GetTopLevelBlocks pageId) st1))).
Proof.
  intros Hn Hfind Hne st1.
  assert (Hfall : ProjectPage.appendToSection pageId sectionHeading content
                    (Some ProjectPage.DECISIONS) retryCount st
                  = ProjectPage.appendToSection pageId ProjectPage.DECISIONS content
                      None retryCount st1).
  { destruct (@appendToSectionFuel_run pageId content
                (appendDepth ProjectPage.DECISIONS None retryCount)
                ProjectPage.DECISIONS None retryCount st1 (Nat.le_refl _))
      as (b & st' & _ & Hfuel).
    unfold ProjectPage.appendToSection at 2.
    rewrite (Hfuel (ProjectPage.appendFuel retryCount))
      by (unfold ProjectPage.appendFuel, appendDepth; cbn [usable]; lia).
    unfold ProjectPage.appendToSection, ProjectPage.appendFuel.
    replace (2 * Z.to_nat (2 - retryCount) + 2)%nat
      with (S (2 * Z.to_nat (2 - retryCount) + 1)) by lia.
    cbn [ProjectPage.appendToSectionFuel].
    apply tryCatch_returned.
    erewrite bind_returned
      by (rewrite getTopLevelBlocks_step, Hn; reflexivity).
    rewrite Hfind.
    replace (JS.truthy ProjectPage.DECISIONS) with true by (vm_compute; reflexivity).
    apply String.eqb_neq in Hne. rewrite Hne. cbn [andb negb].
    apply Hfuel. unfold appendDepth. cbn [usable]. lia. }
  split; [exact Hfall | split].
  - intros blocks' Hn' Hfind'. rewrite Hfall.
    unfold ProjectPage.appendToSection, ProjectPage.appendFuel.
    replace (2 * Z.to_nat (2 - retryCount) + 2)%nat
      with (S (2 * Z.to_nat (2 - retryCount) + 1)) by lia.
    cbn [ProjectPage.appendToSectionFuel].
    apply tryCatch_returned.
    erewrite bind_returned
      by (rewrite getTopLevelBlocks_step, Hn'; reflexivity).
    rewrite Hfind'. reflexivity.
  - intros blocks' sb Hn' Hfind' Hok. rewrite Hfall.
    unfold ProjectPage.appendToSection, ProjectPage.appendFuel.
    replace (2 * Z.to_nat (2 - retryCount) + 2)%nat
      with (S (2 * Z.to_nat (2 - retryCount) + 1)) by lia.
    cbn [ProjectPage.appendToSectionFuel].
    apply tryCatch_returned.
    erewrite bind_returned
      by (rewrite getTopLevelBlocks_step, Hn'; reflexivity).
    rewrite Hfind'.
    erewrite bind_returned; [reflexivity|].
    rewrite perform_step.
    destruct (nextReply (script (step (GetTopLevelBlocks pageId) st1)));
      try reflexivity; discriminate.
Qed.

Lemma appendToSection_fallback_witness :
  ProjectPage.appendToSection "hub" ProjectPage.LINKS "Docs: https://example.com/api"
    (Some ProjectPage.DECISIONS) 0
    (mkState
       [Blocks [mkBlock "d1" "heading_2" ["💡 Project Context & Decisions"] false false];
        Blocks [mkBlock "d1" "heading_2" ["💡 Project Context & Decisions"] false false];
        Done] [] [])
  = (Returned true,
     step (BlocksChildrenAppend "hub"
             (ProjectPage.bulletBlocks "Docs: https://example.com/api") "d1")
       (step (GetTopLevelBlocks "hub")
          (step (GetTopLevelBlocks "hub")
             (mkState
                [Blocks [mkBlock "d1" "heading_2" ["💡 Project Context & Decisions"]
                           false false];
                 Blocks [mkBlock "d1" "heading_2" ["💡 Project Context & Decisions"]
                           false false];
                 Done] [] [])))).
Proof.
  refine (proj2 (proj2 (@appendToSection_fallback "hub" ProjectPage.LINKS
            "Docs: https://example.com/api" 0 _
            [mkBlock "d1" "heading_2" ["💡 Project Context & Decisions"] false false]
            _ _ _))
            [mkBlock "d1" "heading_2" ["💡 Project Context & Decisions"] false false]
            (mkBlock "d1" "heading_2" ["💡 Project Context & Decisions"] false false)
            _ _ _);
    try (vm_compute; reflexivity).
  vm_compute. discriminate.
Defined.

(* ------------------------------------------------------------------ *)
(** ** Composing runs *)
(* ------------------------------------------------------------------ *)

Lemma Runs_ret {A} (a : A) (st : state) : Runs (ret a) st a st [].
Proof. split; [reflexivity | now rewrite app_nil_r]. Qed.

Lemma Runs_bind {A B} (m : M A) (k : A -> M B) (st st1 st2 : state) (a : A) (b : B)
  (evs1 evs2 : list event) :
  Runs m st a st1 evs1 -> Runs (k a) st1 b st2 evs2 ->
  Runs (bind m k) st b st2 (evs1 ++ evs2).
Proof.
  intros [Hm Hl1] [Hk Hl2]. split.
  - now rewrite (@bind_returned _ _ m k st st1 a Hm).
  - now rewrite Hl2, Hl1, app_assoc.
Qed.

Lemma Runs_tryCatch {A} (m : M A) (handler : jsError -> M A) (st st' : state) (a : A)
  (evs : list event) :
  Runs m st a st' evs -> Runs (tryCatch m handler) st a st' evs.
Proof. intros [Hm Hl]. split; [now apply tryCatch_returned | exact Hl]. Qed.

Lemma log_step (rq : request) (st : state) :
  log (step rq st) = (log st ++ [Called rq (nextReply (script st))])%list.
Proof. reflexivity. Qed.

(* ------------------------------------------------------------------ *)
(** ** Looking up the project page *)
(* ------------------------------------------------------------------ *)

(** The runs of [findProjectPage]. *)
Lemma findProjectPage_run (projectName : string) (st : state) :
  exists o st' evs,
    Runs (ProjectPage.findProjectPage projectName) st o st' evs
    /\ forallb isLookup evs = true
    /\ forall pageId,
         o = Some pageId
         <-> exists cfg ids,
               nextReply (script st) = Config cfg
               /\ nextReply (script (step ReadConfig st)) = Results (pageId :: ids).
Proof.
  unfold ProjectPage.findProjectPage, NotionClient.loadConfig, NotionClient.queryByName.
  destruct (nextReply (script st)) as [ | | | cfg | | | | e0] eqn:Hn.
  4: { (* the configuration was read *)
    set (st1 := step ReadConfig st).
    set (rq := QueryByName (projectsDbId cfg) projectName).
    destruct (nextReply (script st1)) as [ | | ids | | | | | e1] eqn:Hq.
    3: { (* the query answered *)
      exists (match ids with [] => None | pageId :: _ => Some pageId end),
        (step rq st1),
        [Called ReadConfig (Config cfg); Called rq (Results ids)].
      split; [|split; [reflexivity|]].
      - split.
        + apply tryCatch_returned.
          erewrite bind_returned
            by (erewrite bind_returned by apply call_step; rewrite Hn; reflexivity).
          erewrite bind_returned
            by (erewrite bind_returned by apply call_step; fold st1; rewrite Hq;
                reflexivity).
          destruct ids; reflexivity.
        + subst rq st1. rewrite !log_step, Hn.
          change (script (step ReadConfig st)) with (tl (script st)).
          change (nextReply (tl (script st)))
            with (nextReply (script (step ReadConfig st))).
          rewrite Hq, <- app_assoc. reflexivity.
      - intros pageId. split.
        + intros Ho. exists cfg. destruct ids as [|p ids]; [discriminate|].
          injection Ho as ->. now exists ids.
        + intros (cfg' & ids' & _ & Hr). injection Hr as ->. reflexivity. }
    all: exists None, (step rq st1);
      eexists [Called ReadConfig (Config cfg); Called rq _];
      (split; [|split; [reflexivity|]]);
      [ split;
        [ erewrite tryCatch_thrown
            by (erewrite bind_returned
                  by (erewrite bind_returned by apply call_step; rewrite Hn;
                      reflexivity);
                erewrite bind_thrown
                  by (erewrite bind_returned by apply call_step; fold st1;
                      rewrite Hq; reflexivity);
                reflexivity);
          reflexivity
        | subst rq st1; rewrite !log_step, Hn;
          change (script (step ReadConfig st)) with (tl (script st));
          change (nextReply (tl (script st)))
            with (nextReply (script (step ReadConfig st)));
          rewrite Hq, <- app_assoc; reflexivity ]
      | intros pageId; split;
        [ discriminate
        | intros (cfg' & ids' & _ & Hr); discriminate Hr ] ]. }
  all: exists None, (step ReadConfig st);
    eexists [Called ReadConfig _];
    (split; [|split; [reflexivity|]]);
    [ split;
      [ erewrite tryCatch_thrown
          by (erewrite bind_thrown
                by (erewrite bind_returned by apply call_step; rewrite Hn;
                    reflexivity);
              reflexivity);
        reflexivity
      | rewrite log_step, Hn; reflexivity ]
    | intros pageId; split;
      [ discriminate
      | intros (cfg' & ids' & Hc & _); discriminate Hc ] ].
Qed.

(** [findProjectPage] never throws.  It returns the id of the first
    result when the configuration is read and the query answers with at
    least one page, and null in every other case; it only reads the
    configuration and queries by name. *)
Theorem findProjectPage_result (projectName : string) (st : state) :
  exists o st' evs,
    Runs (ProjectPage.findProjectPage projectName) st o st' evs
    /\ forallb isLookup evs = true
    /\ forall pageId,
         o = Some pageId
         <-> exists cfg ids,
               nextReply (script st) = Config cfg
               /\ nextReply (script (step ReadConfig st)) = Results (pageId :: ids).
Proof. exact (@findProjectPage_run projectName st). Qed.

(* ------------------------------------------------------------------ *)
(** ** Routing a bundle to the project page *)
(* ------------------------------------------------------------------ *)

Lemma lookups_neutral (evs : list event) :
  forallb isLookup evs = true ->
  countEvents acceptedAppend evs = 0%nat
  /\ countEvents isFetch evs = 0%nat
  /\ forall ok known, appendsAnchored ok known evs.
Proof.
  induction evs as [|ev evs IH]; intros H; [repeat split|].
  cbn [forallb] in H. apply andb_prop in H as [Hev H].
  destruct (IH H) as (Ha & Hf & Hanch).
  destruct ev as [rq rs | ms]; [|discriminate].
  destruct rq; try discriminate; unfold countEvents in *; cbn; auto.
Qed.

Lemma appendToSection_Runs (pageId h content : string) (fb : option string) (rc : Z)
  (st : state) :
  exists b st' evs,
    Runs (ProjectPage.appendToSection pageId h content fb rc) st b st' evs
    /\ countEvents acceptedAppend evs = (if b then 1 else 0)%nat
    /\ forall known, appendsAnchored (anchorFor h fb) known evs.
Proof.
  destruct (appendToSection_run pageId h content fb rc st) as (b & st' & Hrun & Hrel).
  destruct (AppendRun_effects Hrel) as (evs & Hlog & _ & Hanch & Hacc & _).
  exists b, st', evs. repeat split; auto.
Qed.

Lemma appendEach_Runs (pageId h meetingTitle meetingId : string) (items : list string) :
  forall count st,
  exists count' st' evs,
    Runs (ProjectPage.appendEach pageId h meetingTitle meetingId items count)
         st count' st' evs
    /\ count' = count + Z.of_nat (countEvents acceptedAppend evs)
    /\ (forall known, appendsAnchored (anchorFor h ProjectPage.defaultFallback) known evs)
    /\ (items = [] -> evs = []).
Proof.
  induction items as [|item items IH]; intros count st.
  - exists count, st, []. repeat split; auto.
    + cbn. now rewrite app_nil_r.
    + unfold countEvents. cbn. lia.
  - cbn [ProjectPage.appendEach].
    destruct (appendToSection_Runs pageId h
                (ProjectPage.formatEntry item meetingTitle meetingId)
                ProjectPage.defaultFallback 0 st)
      as (b & st1 & evs1 & Hrun1 & Hacc1 & Hanch1).
    destruct (IH (if b then count + 1 else count) st1)
      as (count' & st' & evs2 & Hrun2 & Hc & Hanch2 & _).
    exists count', st', (evs1 ++ evs2)%list. split; [|split; [|split]].
    + eapply Runs_bind; [exact Hrun1 | exact Hrun2].
    + rewrite Hc, countEvents_app, Hacc1. destruct b; lia.
    + intros known. apply appendsAnchored_app; auto.
    + discriminate.
Qed.

Lemma appendJoined_Runs (pageId : string) (items : list string) (count : Z) (st : state) :
  exists count' st' evs,
    Runs (ProjectPage.appendJoined pageId items count) st count' st' evs
    /\ count' = count + Z.of_nat (countEvents acceptedAppend evs)
    /\ (forall known,
          appendsAnchored (anchorFor ProjectPage.DECISIONS ProjectPage.defaultFallback)
            known evs)
    /\ (items = [] -> evs = []).
Proof.
  destruct items as [|item items].
  - exists count, st, []. repeat split; auto.
    + cbn. now rewrite app_nil_r.
    + unfold countEvents. cbn. lia.
  - cbn [ProjectPage.appendJoined].
    destruct (appendToSection_Runs pageId ProjectPage.DECISIONS
                (JS.join (String JS.LF "") (item :: items))
                ProjectPage.defaultFallback 0 st)
      as (b & st1 & evs1 & Hrun1 & Hacc1 & Hanch1).
    exists (if b then count + 1 else count), st1, (evs1 ++ [])%list.
    split; [|split; [|split]].
    + eapply Runs_bind; [exact Hrun1 | apply Runs_ret].
    + rewrite app_nil_r, Hacc1. destruct b; lia.
    + intros known. rewrite app_nil_r. auto.
    + discriminate.
Qed.

Lemma anchorFor_target (h : string) (b : block) :
  h = ProjectPage.CREDENTIALS \/ h = ProjectPage.CONTACTS
  \/ h = ProjectPage.LINKS \/ h = ProjectPage.DECISIONS ->
  anchorFor h ProjectPage.defaultFallback b -> targetSection b.
Proof.
  unfold anchorFor, targetSection, ProjectPage.defaultFallback.
  intros Hh [Hm | (_ & f & Hf & Hm)].
  - destruct Hh as [-> | [-> | [-> | ->]]]; auto.
  - injection Hf as <-. auto.
Qed.

Lemma decisions_not_other (b : block) :
  ProjectPage.matchesSection ProjectPage.DECISIONS b = true -> decisionsLog b.
Proof.
  intros H. split; [exact H|].
  unfold ProjectPage.matchesSection in H. apply andb_prop in H as [_ H].
  repeat split; intros Heq; rewrite Heq in H; vm_compute in H; discriminate.
Qed.

Lemma anchorFor_decisions (b : block) :
  anchorFor ProjectPage.DECISIONS ProjectPage.defaultFallback b -> decisionsLog b.
Proof.
  intros [Hm | (Hu & _)].
  - now apply decisions_not_other.
  - vm_compute in Hu. discriminate.
Qed.

(** The five steps of [updateProjectPage] after the page was found. *)
Lemma routeBundle_Runs (pageId meetingTitle meetingId : string) (categorized : bundle)
  (st : state) :
  exists count st' evs,
    Runs (successCount <- ProjectPage.appendEach pageId ProjectPage.CREDENTIALS
                            meetingTitle meetingId (credentials categorized) 0 ;;
          successCount <- ProjectPage.appendEach pageId ProjectPage.CONTACTS
                            meetingTitle meetingId (contacts categorized) successCount ;;
          successCount <- ProjectPage.appendEach pageId ProjectPage.LINKS
                            meetingTitle meetingId (links categorized) successCount ;;
          successCount <- ProjectPage.appendJoined pageId (decisions categorized)
                            successCount ;;
          successCount <- ProjectPage.appendJoined pageId (other categorized)
                            successCount ;;
          ret (0 <? successCount))
         st (0 <? count) st' evs
    /\ count = Z.of_nat (countEvents acceptedAppend evs)
    /\ (forall known, appendsAnchored targetSection known evs)
    /\ (credentials categorized = [] -> contacts categorized = [] ->
        links categorized = [] ->
        (forall known, appendsAnchored decisionsLog known evs)
        /\ (decisions categorized = [] -> other categorized = [] -> evs = [])).
Proof.
  destruct (appendEach_Runs pageId ProjectPage.CREDENTIALS meetingTitle meetingId
              (credentials categorized) 0 st)
    as (c1 & st1 & e1 & R1 & C1 & A1 & N1).
  destruct (appendEach_Runs pageId ProjectPage.CONTACTS meetingTitle meetingId
              (contacts categorized) c1 st1)
    as (c2 & st2 & e2 & R2 & C2 & A2 & N2).
  destruct (appendEach_Runs pageId ProjectPage.LINKS meetingTitle meetingId
              (links categorized) c2 st2)
    as (c3 & st3 & e3 & R3 & C3 & A3 & N3).
  destruct (appendJoined_Runs pageId (decisions categorized) c3 st3)
    as (c4 & st4 & e4 & R4 & C4 & A4 & N4).
  destruct (appendJoined_Runs pageId (other categorized) c4 st4)
    as (c5 & st5 & e5 & R5 & C5 & A5 & N5).
  exists c5, st5, (e1 ++ e2 ++ e3 ++ e4 ++ e5 ++ [])%list.
  split; [|split; [|split]].
  - eapply Runs_bind; [exact R1|]. eapply Runs_bind; [exact R2|].
    eapply Runs_bind; [exact R3|]. eapply Runs_bind; [exact R4|].
    eapply Runs_bind; [exact R5|]. apply Runs_ret.
  - rewrite !countEvents_app. unfold countEvents at 6. cbn [filter length]. lia.
  - intros known.
    repeat (apply appendsAnchored_app; [|intros ?]);
      try exact I;
      eapply appendsAnchored_mono; try (apply A1 || apply A2 || apply A3 || apply A4
                                        || apply A5);
      intros b0; apply anchorFor_target; auto.
  - intros H1 H2 H3. rewrite (N1 H1), (N2 H2), (N3 H3). cbn [app]. split.
    + intros known.
      repeat (apply appendsAnchored_app; [|intros ?]);
        try exact I;
        eapply appendsAnchored_mono; try (apply A4 || apply A5);
        exact anchorFor_decisions.
    + intros H4 H5. rewrite (N4 H4), (N5 H5). reflexivity.
Qed.

(** The runs of [updateProjectPage]. *)
Lemma updateProjectPage_run (projectName : string) (categorized : bundle)
  (meetingTitle meetingId : string) (st : state) :
  exists b st' evs,
    Runs (ProjectPage.updateProjectPage projectName categorized meetingTitle meetingId)
         st b st' evs
    /\ (b = true <-> (1 <= countEvents acceptedAppend evs)%nat)
    /\ forall known, appendsAnchored targetSection known evs.
Proof.
  destruct (findProjectPage_run projectName st) as (o & st0 & e0 & R0 & L0 & _).
  destruct (lookups_neutral _ L0) as (Hacc0 & _ & Hanch0).
  unfold ProjectPage.updateProjectPage.
  destruct o as [pageId|].
  - destruct (routeBundle_Runs pageId meetingTitle meetingId categorized st0)
      as (count & st' & evs & R & Hc & Hanch & _).
    exists (0 <? count), st', (e0 ++ evs)%list. split; [|split].
    + apply Runs_tryCatch. eapply Runs_bind; [exact R0 | exact R].
    + rewrite countEvents_app, Hacc0, Z.ltb_lt. lia.
    + intros known. apply appendsAnchored_app; auto.
  - exists false, st0, (e0 ++ [])%list. split; [|split].
    + apply Runs_tryCatch. eapply Runs_bind; [exact R0 | apply Runs_ret].
    + rewrite app_nil_r, Hacc0. split; [discriminate | lia].
    + intros known. rewrite app_nil_r. auto.
Qed.

(** [updateProjectPage] never throws.  It returns true exactly when the
    store accepted at least one append request, and every append request
    is anchored at a heading found for one of the four target sections. *)
Theorem updateProjectPage_result (projectName : string) (categorized : bundle)
  (meetingTitle meetingId : string) (st : state) :
  exists b st' evs,
    Runs (ProjectPage.updateProjectPage projectName categorized meetingTitle meetingId)
         st b st' evs
    /\ (b = true <-> (1 <= countEvents acceptedAppend evs)%nat)
    /\ forall known, appendsAnchored targetSection known evs.
Proof. exact (@updateProjectPage_run projectName categorized meetingTitle meetingId st). Qed.

(** Routing a bundle whose only non-empty categories are decisions and
    other touches the decisions log only: every append request is anchored
    at a heading found for the decisions-log section, whose text is none
    of the credentials, contacts and links headings. *)
Theorem updateProjectPage_decisions_only (projectName : string)
  (decisionItems otherItems : list string) (meetingTitle meetingId : string)
  (st : state) :
  exists b st' evs,
    Runs (ProjectPage.updateProjectPage projectName
            (mkBundle [] [] [] decisionItems otherItems) meetingTitle meetingId)
         st b st' evs
    /\ forall known, appendsAnchored decisionsLog known evs.
Proof.
  destruct (findProjectPage_run projectName st) as (o & st0 & e0 & R0 & L0 & _).
  destruct (lookups_neutral _ L0) as (_ & _ & Hanch0).
  unfold ProjectPage.updateProjectPage.
  destruct o as [pageId|].
  - destruct (routeBundle_Runs pageId meetingTitle meetingId
                (mkBundle [] [] [] decisionItems otherItems) st0)
      as (count & st' & evs & R & _ & _ & Hd).
    destruct (Hd eq_refl eq_refl eq_refl) as (Hanch & _).
    exists (0 <? count), st', (e0 ++ evs)%list. split.
    + apply Runs_tryCatch. eapply Runs_bind; [exact R0 | exact R].
    + intros known. apply appendsAnchored_app; auto.
  - exists false, st0, (e0 ++ [])%list. split.
    + apply Runs_tryCatch. eapply Runs_bind; [exact R0 | apply Runs_ret].
    + intros known. rewrite app_nil_r. auto.
Qed.

(** An empty bundle, or a project without a page, makes
    [updateProjectPage] return false after the look-up alone: no block is
    fetched and nothing is appended. *)
Theorem updateProjectPage_nothing_to_do (projectName : string) (categorized : bundle)
  (meetingTitle meetingId : string) (st : state) :
  (categorized = mkBundle [] [] [] [] []
   \/ exists st0, ProjectPage.findProjectPage projectName st = (Returned None, st0)) ->
  exists st' evs,
    Runs (ProjectPage.updateProjectPage projectName categorized meetingTitle meetingId)
         st false st' evs
    /\ forallb isLookup evs = true.
Proof.
  intros Hcase.
  destruct (findProjectPage_run projectName st) as (o & st0 & e0 & R0 & L0 & _).
  unfold ProjectPage.updateProjectPage.
  destruct o as [pageId|].
  - destruct Hcase as [-> | (st0' & Hnone)].
    + destruct (routeBundle_Runs pageId meetingTitle meetingId
                  (mkBundle [] [] [] [] []) st0)
        as (count & st' & evs & R & Hc & _ & Hd).
      destruct (Hd eq_refl eq_refl eq_refl) as (_ & Hnil).
      specialize (Hnil eq_refl eq_refl). subst evs.
      assert (count = 0) as -> by (rewrite Hc; reflexivity).
      exists st', (e0 ++ [])%list. split.
      * apply Runs_tryCatch. eapply Runs_bind; [exact R0 | exact R].
      * now rewrite app_nil_r.
    + destruct R0 as [R0 _]. rewrite R0 in Hnone. discriminate.
  - exists st0, (e0 ++ [])%list. split.
    + apply Runs_tryCatch. eapply Runs_bind; [exact R0 | apply Runs_ret].
    + now rewrite app_nil_r.
Qed.

Lemma updateProjectPage_nothing_to_do_witness :
  exists st' evs,
    Runs (ProjectPage.updateProjectPage "HubSpot" (mkBundle [] [] [] [] [])
            "Weekly sync" "meeting-1")
         (mkState [Config (mkConfig "tasks" "projects"); Results ["hub"]] [] [])
         false st' evs
    /\ forallb isLookup evs = true.
Proof.
  apply updateProjectPage_nothing_to_do. left. reflexivity.
Defined.

(* ------------------------------------------------------------------ *)
(** ** Computations that always return *)
(* ------------------------------------------------------------------ *)

Lemma Total_NoFuelOut {A} (m : M A) : Total m -> NoFuelOut m.
Proof. intros H st. destruct (H st) as (a & st' & ->). discriminate. Qed.

Lemma NoFuelOut_ret {A} (a : A) : NoFuelOut (ret a).
Proof. intros st. discriminate. Qed.

Lemma NoFuelOut_throw {A} (e : jsError) : NoFuelOut (@throw A e).
Proof. intros st. discriminate. Qed.

Lemma NoFuelOut_call (rq : request) : NoFuelOut (call rq).
Proof. intros st. rewrite call_step. discriminate. Qed.

Lemma NoFuelOut_bind {A B} (m : M A) (k : A -> M B) :
  NoFuelOut m -> (forall a, NoFuelOut (k a)) -> NoFuelOut (bind m k).
Proof.
  intros Hm Hk st. unfold bind. specialize (Hm st).
  destruct (m st) as [[a | e |] st']; cbn in *; [apply Hk | discriminate | contradiction].
Qed.

Lemma NoFuelOut_tryCatch {A} (m : M A) (handler : jsError -> M A) :
  NoFuelOut m -> (forall e, NoFuelOut (handler e)) -> NoFuelOut (tryCatch m handler).
Proof.
  intros Hm Hh st. unfold tryCatch. specialize (Hm st).
  destruct (m st) as [[a | e |] st']; cbn in *; [discriminate | apply Hh | contradiction].
Qed.

Lemma NoFuelOut_perform (rq : request) : NoFuelOut (perform rq).
Proof.
  apply NoFuelOut_bind; [apply NoFuelOut_call|].
  intros []; (apply NoFuelOut_ret || apply NoFuelOut_throw).
Qed.

Lemma NoFuelOut_forEach {A} (xs : list A) (body : A -> M unit) :
  (forall x, NoFuelOut (body x)) -> NoFuelOut (forEach xs body).
Proof.
  intros Hb. induction xs as [|x xs IH]; cbn [forEach]; [apply NoFuelOut_ret|].
  apply NoFuelOut_bind; auto.
Qed.

(** A [try] whose [catch] block always returns, around a body that cannot
    stop, always returns. *)
Lemma Total_tryCatch {A} (m : M A) (handler : jsError -> M A) :
  NoFuelOut m -> (forall e, Total (handler e)) -> Total (tryCatch m handler).
Proof.
  intros Hm Hh st. unfold tryCatch. specialize (Hm st).
  destruct (m st) as [[a | e |] st']; cbn in *;
    [now exists a, st' | apply Hh | contradiction].
Qed.

Lemma Total_ret {A} (a : A) : Total (ret a).
Proof. intros st. now exists a, st. Qed.

Lemma Total_bind {A B} (m : M A) (k : A -> M B) :
  Total m -> (forall a, Total (k a)) -> Total (bind m k).
Proof.
  intros Hm Hk st. destruct (Hm st) as (a & st' & Ha).
  rewrite (@bind_returned _ _ m k st st' a Ha). apply Hk.
Qed.

Lemma Total_deleteSection (pageId sectionHeading : string) :
  Total (QuickTodo.deleteSection pageId sectionHeading).
Proof.
  intros st. destruct (deleteSection_run pageId sectionHeading st)
    as (b & st' & H & _). now exists b, st'.
Qed.

Lemma Total_updateProjectPage (projectName : string) (categorized : bundle)
  (meetingTitle meetingId : string) :
  Total (ProjectPage.updateProjectPage projectName categorized meetingTitle meetingId).
Proof.
  intros st.
  destruct (updateProjectPage_run projectName categorized meetingTitle meetingId st)
    as (b & st' & evs & [H _] & _). now exists b, st'.
Qed.

(* ------------------------------------------------------------------ *)
(** ** Quick-entry state machine *)
(* ------------------------------------------------------------------ *)

(** The cleanup step decides by the two contents and the two success
    flags.  Nothing succeeded: no call, null.  Both sections filled and
    both succeeded: the Project Info section is deleted and the page is
    kept.  Only Project Info filled and routed: the page is archived, and
    [pageDeleted] tells whether the archive call was accepted.  Only Task
    filled and parsed: the Project Info section is deleted.  Any other
    partial success: no call at all, the flags are reported and the page
    is kept. *)
Theorem cleanup_table (pageId taskContent projectInfoContent : string)
  (taskSuccess projectInfoSuccess : bool) (st : state) :
  (taskSuccess = false -> projectInfoSuccess = false ->
   QuickTodo.cleanup pageId taskContent projectInfoContent taskSuccess
     projectInfoSuccess st = (Returned None, st))
  /\ (taskContent <> "" -> projectInfoContent <> "" ->
      taskSuccess = true -> projectInfoSuccess = true ->
      exists b st',
        QuickTodo.deleteSection pageId QuickTodo.PROJECT_INFO st = (Returned b, st')
        /\ QuickTodo.cleanup pageId taskContent projectInfoContent taskSuccess
             projectInfoSuccess st
           = (Returned (Some (QuickTodo.mkResult true true false)), st'))
  /\ (taskContent = "" -> projectInfoContent <> "" -> projectInfoSuccess = true ->
      QuickTodo.cleanup pageId taskContent projectInfoContent taskSuccess
        projectInfoSuccess st
      = (Returned (Some (QuickTodo.mkResult false true
                           (negb (isRaised (nextReply (script st)))))),
         step (PagesArchive pageId) st))
  /\ (taskContent <> "" -> projectInfoContent = "" -> taskSuccess = true ->
      exists b st',
        QuickTodo.deleteSection pageId QuickTodo.PROJECT_INFO st = (Returned b, st')
        /\ QuickTodo.cleanup pageId taskContent projectInfoContent taskSuccess
             projectInfoSuccess st
           = (Returned (Some (QuickTodo.mkResult true false false)), st'))
  /\ (taskContent <> "" -> projectInfoContent <> "" ->
      taskSuccess = negb projectInfoSuccess ->
      QuickTodo.cleanup pageId taskContent projectInfoContent taskSuccess
        projectInfoSuccess st
      = (Returned (Some (QuickTodo.mkResult taskSuccess projectInfoSuccess false)), st)).
Proof.
  assert (Ht : forall s, s <> "" -> JS.truthy s = true) by (intros s; apply truthy_iff).
  unfold QuickTodo.cleanup.
  split; [|split; [|split; [|split]]].
  - intros -> ->. reflexivity.
  - intros H1 H2 -> ->. rewrite (Ht _ H1), (Ht _ H2). cbn [orb andb].
    destruct (deleteSection_run pageId QuickTodo.PROJECT_INFO st)
      as (b & st' & Hd & _).
    exists b, st'. split; [exact Hd|].
    now rewrite (@bind_returned _ _ _ _ st st' b Hd).
  - intros -> H2 ->. rewrite (Ht _ H2), orb_true_r. cbn [JS.truthy JS.isEmpty negb andb].
    unfold tryCatch, bind. rewrite perform_step.
    destruct (nextReply (script st)); reflexivity.
  - intros H1 -> ->. rewrite (Ht _ H1). cbn [JS.truthy JS.isEmpty negb andb orb].
    destruct (deleteSection_run pageId QuickTodo.PROJECT_INFO st)
      as (b & st' & Hd & _).
    exists b, st'. split; [exact Hd|].
    now rewrite (@bind_returned _ _ _ _ st st' b Hd).
  - intros H1 H2 ->. rewrite (Ht _ H1), (Ht _ H2).
    destruct projectInfoSuccess; reflexivity.
Qed.

Lemma cleanup_table_witness :
  QuickTodo.cleanup "page-1" "" "hubspot api key: abc-123" false true
    (mkState [Raised (mkError "validation_error" 400 "cannot archive")] [] [])
  = (Returned (Some (QuickTodo.mkResult false true false)),
     step (PagesArchive "page-1")
       (mkState [Raised (mkError "validation_error" 400 "cannot archive")] [] [])).
Proof.
  refine (proj1 (proj2 (proj2 (@cleanup_table "page-1" "" "hubspot api key: abc-123"
            false true _))) eq_refl _ eq_refl).
  discriminate.
Defined.

Lemma Total_cleanup (pageId taskContent projectInfoContent : string)
  (taskSuccess projectInfoSuccess : bool) :
  Total (QuickTodo.cleanup pageId taskContent projectInfoContent taskSuccess
           projectInfoSuccess).
Proof.
  unfold QuickTodo.cleanup.
  destruct (taskSuccess || projectInfoSuccess); [|apply Total_ret].
  destruct (_ && _ && _ && _).
  - apply Total_bind; [apply Total_deleteSection | intros; apply Total_ret].
  - destruct (_ && _ && _).
    + apply Total_tryCatch; [|intros; apply Total_ret].
      apply NoFuelOut_bind; [apply NoFuelOut_perform | intros; apply NoFuelOut_ret].
    + destruct (_ && _ && _); [|apply Total_ret].
      apply Total_bind; [apply Total_deleteSection | intros; apply Total_ret].
Qed.

Lemma NoFuelOut_parseQuickTodo (todoText : string) :
  NoFuelOut (OpenAI.parseQuickTodo todoText).
Proof.
  apply NoFuelOut_bind; [apply NoFuelOut_call|].
  intros []; (apply NoFuelOut_ret || apply NoFuelOut_throw).
Qed.

Lemma NoFuelOut_categorizeProjectInfo (bullets : list string) :
  NoFuelOut (OpenAI.categorizeProjectInfo bullets).
Proof.
  apply NoFuelOut_bind; [apply NoFuelOut_call|].
  intros []; (apply NoFuelOut_ret || apply NoFuelOut_throw).
Qed.

Lemma NoFuelOut_loadConfig : NoFuelOut NotionClient.loadConfig.
Proof.
  apply NoFuelOut_bind; [apply NoFuelOut_call|].
  intros []; (apply NoFuelOut_ret || apply NoFuelOut_throw).
Qed.

Lemma NoFuelOut_getBlocksLike (rq : request) : NoFuelOut (NotionClient.getBlocksLike rq).
Proof.
  apply NoFuelOut_bind; [apply NoFuelOut_call|].
  intros []; (apply NoFuelOut_ret || apply NoFuelOut_throw).
Qed.

Lemma Total_processTaskSection (page : QuickTodo.taskPage) (taskContent : string) :
  Total (QuickTodo.processTaskSection page taskContent).
Proof.
  unfold QuickTodo.processTaskSection.
  destruct (_ && _); [|apply Total_ret].
  apply Total_tryCatch; [|intros; apply Total_ret].
  apply NoFuelOut_bind; [apply NoFuelOut_parseQuickTodo|]. intros parsed.
  destruct (match parsed with Some ts => ts | None => [] end) as [|firstTask additional];
    [apply NoFuelOut_ret|].
  apply NoFuelOut_bind.
  - destruct (QuickTodo.buildUpdates page firstTask);
      [apply NoFuelOut_ret | apply NoFuelOut_perform].
  - intros _. apply NoFuelOut_bind; [|intros; apply NoFuelOut_ret].
    destruct additional; [apply NoFuelOut_ret|].
    apply NoFuelOut_bind; [apply NoFuelOut_loadConfig|]. intros config.
    apply NoFuelOut_forEach. intros task.
    apply NoFuelOut_tryCatch; [apply NoFuelOut_perform | intros; apply NoFuelOut_ret].
Qed.

Lemma Total_processProjectInfoSection (pageId projectInfoContent : string) :
  Total (QuickTodo.processProjectInfoSection pageId projectInfoContent).
Proof.
  unfold QuickTodo.processProjectInfoSection.
  destruct (_ && _); [|apply Total_ret].
  apply Total_tryCatch; [|intros; apply Total_ret].
  destruct (QuickTodo.bulletsOf projectInfoContent); [apply NoFuelOut_ret|].
  apply NoFuelOut_bind; [apply NoFuelOut_categorizeProjectInfo|]. intros categorized.
  apply NoFuelOut_bind; [|intros; apply NoFuelOut_ret].
  apply Total_NoFuelOut, Total_updateProjectPage.
Qed.

(** [processQuickTodo] never throws: whatever the store, the parser and
    the classifier reply, it returns a result or null, so one record
    cannot abort the loop over the quick entries. *)
Theorem processQuickTodo_returns (page : QuickTodo.taskPage) (st : state) :
  exists r st', QuickTodo.processQuickTodo page st = (Returned r, st').
Proof.
  revert st. change (Total (QuickTodo.processQuickTodo page)).
  unfold QuickTodo.processQuickTodo.
  apply Total_tryCatch; [|intros; apply Total_ret].
  apply NoFuelOut_bind; [apply NoFuelOut_getBlocksLike|]. intros blocks.
  destruct (_ && _); [apply NoFuelOut_ret|].
  apply NoFuelOut_bind; [apply Total_NoFuelOut, Total_processTaskSection|].
  intros [taskSuccess | r]; [|apply NoFuelOut_ret].
  apply NoFuelOut_bind; [apply Total_NoFuelOut, Total_processProjectInfoSection|].
  intros projectInfoSuccess. apply Total_NoFuelOut, Total_cleanup.
Qed.

(** A record whose two sections are both empty (or whose blocks cannot be
    fetched) is left alone: [processQuickTodo] returns null after the fetch
    of the blocks, with no other call. *)
Theorem processQuickTodo_nothing_to_process (page : QuickTodo.taskPage) (st : state) :
  (isBlocks (nextReply (script st)) = false
   \/ exists blocks,
        nextReply (script st) = Blocks blocks
        /\ QuickTodo.extractSectionContent blocks QuickTodo.TASK = ""
        /\ QuickTodo.extractSectionContent blocks QuickTodo.PROJECT_INFO = "") ->
  QuickTodo.processQuickTodo page st
  = (Returned None, step (GetAllBlocksRecursive (QuickTodo.page_id page)) st).
Proof.
  unfold QuickTodo.processQuickTodo, NotionClient.getAllBlocksRecursive.
  destruct st as [sc rnd lg]. cbn [script].
  intros [Hfail | (blocks & Hn & Ht & Hp)].
  - destruct (@getBlocksLike_fails (GetAllBlocksRecursive (QuickTodo.page_id page))
                sc rnd lg Hfail) as (e & He).
    erewrite tryCatch_thrown by (erewrite bind_thrown by exact He; reflexivity).
    reflexivity.
  - apply tryCatch_returned.
    erewrite bind_returned by (apply getBlocksLike_blocks; exact Hn).
    rewrite Ht, Hp. cbn [JS.truthy JS.isEmpty negb andb]. unfold ret, step.
    cbn [script randoms log]. now rewrite Hn.
Qed.

Lemma processQuickTodo_nothing_to_process_witness :
  QuickTodo.processQuickTodo (QuickTodo.mkTaskPage "page-1" None None None None None)
    (mkState [Blocks [heading "Notes"; paragraph "nothing here"]; Done] [] [])
  = (Returned None,
     step (GetAllBlocksRecursive "page-1")
       (mkState [Blocks [heading "Notes"; paragraph "nothing here"]; Done] [] [])).
Proof.
  apply (@processQuickTodo_nothing_to_process
           (QuickTodo.mkTaskPage "page-1" None None None None None)).
  right. exists [heading "Notes"; paragraph "nothing here"].
  repeat split; vm_compute; reflexivity.
Defined.

Lemma getAllBlocksRecursive_step (pageId : string) (st : state) (blocks : list block) :
  nextReply (script st) = Blocks blocks ->
  NotionClient.getAllBlocksRecursive pageId st
  = (Returned blocks, step (GetAllBlocksRecursive pageId) st).
Proof.
  intros Hn. destruct st as [sc rnd lg]. unfold NotionClient.getAllBlocksRecursive.
  rewrite (getBlocksLike_blocks _ _ _ _ Hn). unfold step. cbn [script randoms log].
  cbn [script] in Hn. now rewrite Hn.
Qed.




(* ------------------------------------------------------------------ *)
(** ** Resilient remote call wrapper *)
(* ------------------------------------------------------------------ *)

(** The runs of [getBackoffDelay]. *)
Lemma getBackoffDelay_run (attempt : Z) (st : state) :
  0 <= attempt -> Forall unitInterval (randoms st) ->
  exists d st',
    NotionClient.getBackoffDelay attempt st = (Returned d, st')
    /\ script st' = script st /\ log st' = log st
    /\ Forall unitInterval (randoms st')
    /\ backoffOf attempt d
    /\ 1000 <= NotionClient.baseDelay attempt <= 10000
    /\ (attempt <= 3 -> NotionClient.baseDelay attempt = 1000 * 2 ^ attempt)
    /\ (4 <= attempt -> NotionClient.baseDelay attempt = 10000).
Proof.
  intros Hk Hr.
  assert (Hpow : 1 <= 2 ^ attempt) by (apply (Z.pow_le_mono_r 2 0 attempt); lia).
  assert (Hbase : 1000 <= NotionClient.baseDelay attempt <= 10000)
    by (unfold NotionClient.baseDelay; lia).
  assert (Hsmall : attempt <= 3 -> NotionClient.baseDelay attempt = 1000 * 2 ^ attempt).
  { intros H3. unfold NotionClient.baseDelay.
    assert (2 ^ attempt <= 2 ^ 3) by (apply Z.pow_le_mono_r; lia).
    change (2 ^ 3) with 8 in *. lia. }
  assert (Hbig : 4 <= attempt -> NotionClient.baseDelay attempt = 10000).
  { intros H4. unfold NotionClient.baseDelay.
    assert (2 ^ 4 <= 2 ^ attempt) by (apply Z.pow_le_mono_r; lia).
    change (2 ^ 4) with 16 in *. lia. }
  assert (Hd : forall r, unitInterval r ->
                 backoffOf attempt (inject_Z (NotionClient.baseDelay attempt) + r * 1000)).
  { intros r [H0 H1]. unfold backoffOf. split; lra. }
  destruct st as [sc rnd lg]. cbn [randoms script log] in *.
  unfold NotionClient.getBackoffDelay, bind, random, ret. cbn [randoms script log].
  destruct rnd as [|r rnd].
  - do 2 eexists. do 3 (split; [reflexivity|]). split; [constructor|].
    split; [|split; [exact Hbase | split; assumption]].
    apply Hd. split; [apply Qle_refl | reflexivity].
  - inversion Hr as [|? ? Hr0 Hrs]; subst.
    do 2 eexists. do 3 (split; [reflexivity|]). split; [exact Hrs|].
    split; [|split; [exact Hbase | split; assumption]].
    apply Hd. exact Hr0.
Qed.

(** The backoff delay of an attempt lies between the exponential base
    delay and one second more; the base delay doubles from 1 s and is
    capped at 10 s. *)
Theorem getBackoffDelay_bounds (attempt : Z) (st : state) :
  0 <= attempt -> Forall unitInterval (randoms st) ->
  exists d st',
    NotionClient.getBackoffDelay attempt st = (Returned d, st')
    /\ script st' = script st /\ log st' = log st
    /\ Forall unitInterval (randoms st')
    /\ backoffOf attempt d
    /\ 1000 <= NotionClient.baseDelay attempt <= 10000
    /\ (attempt <= 3 -> NotionClient.baseDelay attempt = 1000 * 2 ^ attempt)
    /\ (4 <= attempt -> NotionClient.baseDelay attempt = 10000).
Proof. exact (@getBackoffDelay_run attempt st). Qed.

Lemma getBackoffDelay_bounds_witness :
  exists d st',
    NotionClient.getBackoffDelay 2 (mkState [] [(1 # 2)%Q] []) = (Returned d, st')
    /\ backoffOf 2 d.
Proof.
  destruct (@getBackoffDelay_bounds 2 (mkState [] [(1 # 2)%Q] []))
    as (d & st' & H & _ & _ & _ & Hb & _).
  - lia.
  - repeat constructor; cbn; lra.
  - now exists d, st'.
Defined.

Lemma invoke_step (operation : string) (st : state) :
  NotionClient.invoke operation st
  = (match nextReply (script st) with
     | Raised e => Thrown e
     | rs => Returned rs
     end,
     step (Invoke operation) st).
Proof.
  unfold NotionClient.invoke. unfold bind. rewrite call_step.
  now destruct (nextReply (script st)).
Qed.

Lemma invoke_ok (operation : string) (st : state) :
  isRaised (nextReply (script st)) = false ->
  NotionClient.invoke operation st
  = (Returned (nextReply (script st)), step (Invoke operation) st).
Proof.
  intros H. rewrite invoke_step.
  destruct (nextReply (script st)); try discriminate H; reflexivity.
Qed.

(** The loop of [apiCall] follows the schedule from any attempt. *)
Lemma apiCallLoop_schedule (operation : string) (remaining : nat) :
  forall attempt lastError st,
    0 <= attempt -> attempt + Z.of_nat remaining = 5 -> (0 < remaining)%nat ->
    Forall unitInterval (randoms st) ->
    exists res st' evs,
      NotionClient.apiCallLoop remaining attempt lastError
        (NotionClient.invoke operation) st = (res, st')
      /\ log st' = (log st ++ evs)%list
      /\ Schedule operation attempt evs res.
Proof.
  induction remaining as [|remaining IH]; intros attempt lastError st Hk Hsum Hpos Hr;
    [lia|].
  cbn [NotionClient.apiCallLoop].
  set (st1 := pause NotionClient.RATE_LIMIT_DELAY st).
  set (st2 := step (Invoke operation) st1).
  destruct (isRaised (nextReply (script st1))) eqn:Hraised.
  { (* the invocation failed *)
    destruct (nextReply (script st1)) as [ | | | | | | | e] eqn:Hn;
      try discriminate Hraised.
    destruct (NotionClient.isRateLimited e) eqn:Hrl.
    - (* rate limited: back off, then go on *)
      destruct (@getBackoffDelay_run attempt st2 Hk Hr)
        as (d & st3 & Hd & Hsc & Hlg & Hr3 & Hb & _).
      assert (Hbody :
        tryCatch
          (sleep NotionClient.RATE_LIMIT_DELAY ;;;
           v <- NotionClient.invoke operation ;; ret (inl v))
          (fun error =>
             if NotionClient.isRateLimited error
             then backoffDelay <- NotionClient.getBackoffDelay attempt ;;
                  sleep backoffDelay ;;; ret (inr error)
             else throw error) st
        = (Returned (inr e), pause d st3)).
      { erewrite tryCatch_thrown
          by (erewrite bind_returned by apply sleep_pause;
              erewrite bind_thrown
                by (rewrite invoke_step; fold st1; rewrite Hn; reflexivity);
              reflexivity).
        rewrite Hrl. erewrite bind_returned by exact Hd.
        erewrite bind_returned by apply sleep_pause. reflexivity. }
      assert (Hlog3 : log (pause d st3)
                      = (log st ++ [Slept NotionClient.RATE_LIMIT_DELAY;
                                    Called (Invoke operation) (Raised e);
                                    Slept d])%list).
      { unfold pause. cbn [log]. rewrite Hlg. subst st2 st1.
        rewrite log_step. cbn [pause log script]. cbn [pause script] in Hn.
        rewrite Hn, <- !app_assoc. reflexivity. }
      erewrite bind_returned by exact Hbody.
      destruct remaining as [|remaining'].
      + (* that was the last attempt *)
        exists (Thrown e), (pause d st3). eexists.
        split; [reflexivity | split; [exact Hlog3|]].
        apply S_exhausted; auto; lia.
      + destruct (IH (attempt + 1) (Some e) (pause d st3))
          as (res & st' & evs & Hrun & Hlog & Hs); try lia.
        { exact Hr3. }
        exists res, st'. eexists. split; [exact Hrun | split].
        * rewrite Hlog, Hlog3, <- app_assoc. reflexivity.
        * apply S_retry; auto; lia.
    - (* any other error is thrown at once *)
      exists (Thrown e), st2, [Slept NotionClient.RATE_LIMIT_DELAY;
                               Called (Invoke operation) (Raised e)].
      split; [|split; [|now apply S_fatal]].
      + erewrite bind_thrown; [reflexivity|].
        erewrite tryCatch_thrown
          by (erewrite bind_returned by apply sleep_pause;
              erewrite bind_thrown
                by (rewrite invoke_step; fold st1; rewrite Hn; reflexivity);
              reflexivity).
        rewrite Hrl. reflexivity.
      + subst st2 st1. rewrite log_step. cbn [pause log script].
        cbn [pause script] in Hn. rewrite Hn, <- app_assoc. reflexivity. }
  (* the invocation succeeded *)
  exists (Returned (nextReply (script st1))), st2,
    [Slept NotionClient.RATE_LIMIT_DELAY;
     Called (Invoke operation) (nextReply (script st1))].
  split; [|split; [|now apply S_success]].
  - erewrite bind_returned
      by (apply tryCatch_returned;
          erewrite bind_returned by apply sleep_pause;
          erewrite bind_returned
            by (apply invoke_ok; exact Hraised);
          reflexivity).
    reflexivity.
  - subst st2 st1. rewrite log_step. cbn [pause log script].
    rewrite <- app_assoc. reflexivity.
Qed.

Lemma Schedule_invocations (operation : string) (k : Z) (evs : list event)
  (res : outcome response) :
  Schedule operation k evs res ->
  k < 5 ->
  (Z.of_nat (countEvents isInvoke evs) <= 5 - k) /\ res <> OutOfFuel.
Proof.
  induction 1 as [k rs Hok | k e Hrl | k e d evs res Hrl Hlt Hb _ IH | k e d Hrl Heq Hb];
    intros Hk; unfold countEvents in *; cbn [filter isInvoke length app].
  - split; [|discriminate]. cbn [Z.of_nat Pos.of_succ_nat]. lia.
  - split; [|discriminate]. cbn [Z.of_nat Pos.of_succ_nat]. lia.
  - destruct (IH ltac:(lia)) as [Hc Hne]. split; [lia | exact Hne].
  - split; [cbn [Z.of_nat Pos.of_succ_nat]; lia | discriminate].
Qed.

(** [apiCall] around a remote call always ends, by returning the reply or
    by throwing the error of the last reply; its log follows the retry
    schedule: every invocation is preceded by the pacing pause, a rate
    limited reply is followed by a backoff pause and, while fewer than five
    attempts were made, by another attempt; any other error is thrown at
    once.  The remote function is invoked at most five times. *)
Theorem apiCall_schedule (operation : string) (st : state) :
  Forall unitInterval (randoms st) ->
  exists res st' evs,
    NotionClient.apiCall (NotionClient.invoke operation) st = (res, st')
    /\ log st' = (log st ++ evs)%list
    /\ Schedule operation 0 evs res
    /\ (1 <= countEvents isInvoke evs <= 5)%nat
    /\ res <> OutOfFuel.
Proof.
  intros Hr. unfold NotionClient.apiCall, NotionClient.MAX_RETRIES.
  destruct (@apiCallLoop_schedule operation 5 0 None st) as (res & st' & evs & H & Hl & Hs);
    try lia; try exact Hr.
  exists res, st', evs. split; [exact H | split; [exact Hl | split; [exact Hs|]]].
  destruct (@Schedule_invocations operation 0 evs res Hs) as [Hc Hne]; [lia|].
  split; [split; [|lia] | exact Hne].
  inversion Hs; subst; unfold countEvents; cbn [filter isInvoke length app]; lia.
Qed.

Lemma apiCall_schedule_witness :
  exists res st' evs,
    NotionClient.apiCall (NotionClient.invoke "pages.retrieve")
      (mkState [Raised (mkError "rate_limited" 429 "slow down"); Done] [(1 # 4)%Q] [])
    = (res, st')
    /\ log st' = evs
    /\ Schedule "pages.retrieve" 0 evs res.
Proof.
  destruct (@apiCall_schedule "pages.retrieve"
              (mkState [Raised (mkError "rate_limited" 429 "slow down"); Done]
                       [(1 # 4)%Q] []))
    as (res & st' & evs & H & Hl & Hs & _).
  - repeat constructor; cbn; lra.
  - exists res, st', evs. split; [exact H | split; [exact Hl | exact Hs]].
Defined.

(* ------------------------------------------------------------------ *)
(** ** The content of a section of a quick entry *)
(* ------------------------------------------------------------------ *)

Lemma str_app_nil_r (s : string) : s ++ "" = s.
Proof. induction s as [|c s IH]; cbn; [reflexivity | now rewrite IH]. Qed.

Lemma str_app_assoc (s t u : string) : (s ++ t) ++ u = s ++ t ++ u.
Proof. induction s as [|c s IH]; cbn; [reflexivity | now rewrite IH]. Qed.

(** On a block that is no heading, one round of the content loop appends
    the line of the block. *)
Lemma addContent_line (content : string) (b : block) :
  isHeading b = false ->
  QuickTodo.addContent content b = content ++ contentLine b.
Proof.
  intros Hh. unfold QuickTodo.addContent, contentLine. rewrite Hh.
  cbn [andb].
  destruct (String.eqb (type b) "divider") eqn:Hd.
  - apply String.eqb_eq in Hd. rewrite Hd.
    change (String.eqb "divider" "paragraph") with false.
    change (String.eqb "divider" "bulleted_list_item") with false.
    destruct (JS.truthy _); now rewrite str_app_nil_r.
  - destruct (String.eqb (type b) "paragraph") eqn:Hp.
    + apply String.eqb_eq in Hp. rewrite Hp.
      change (String.eqb "paragraph" "bulleted_list_item") with false.
      cbn [andb]. destruct (JS.truthy _); cbn [andb]; [reflexivity|].
      now rewrite str_app_nil_r.
    + cbn [andb].
      destruct (String.eqb (type b) "bulleted_list_item"); cbn [andb];
        destruct (JS.truthy _); now rewrite ?str_app_nil_r.
Qed.

Lemma addContent_body (body : list block) :
  Forall (fun b => isHeading b = false) body ->
  forall content,
    fold_left QuickTodo.addContent body content = content ++ contentLines body.
Proof.
  induction 1 as [|b body Hb _ IH]; intros content.
  - cbn. now rewrite str_app_nil_r.
  - cbn [fold_left]. rewrite IH, (@addContent_line content b Hb), str_app_assoc. reflexivity.
Qed.

Lemma slice_body (pre : list block) (h : block) (mid tail : list block) :
  QuickTodo.slice (pre ++ h :: mid ++ tail) (Z.of_nat (length pre) + 1)
    (Z.of_nat (length pre) + 1 + Z.of_nat (length mid))
  = mid.
Proof.
  unfold QuickTodo.slice.
  replace (Z.to_nat (Z.of_nat (length pre) + 1 + Z.of_nat (length mid)
                     - (Z.of_nat (length pre) + 1))) with (length mid) by lia.
  replace (Z.to_nat (Z.of_nat (length pre) + 1)) with (length (pre ++ [h]))
    by (rewrite length_app; cbn; lia).
  replace (pre ++ h :: mid ++ tail)%list with ((pre ++ [h]) ++ mid ++ tail)%list
    by (rewrite <- app_assoc; reflexivity).
  rewrite skipn_app, skipn_all, Nat.sub_diag. cbn [app skipn].
  rewrite firstn_app, firstn_all, Nat.sub_diag. cbn. apply app_nil_r.
Qed.

(** [extractSectionContent] yields the empty string exactly on pages
    without a matching heading (and on sections whose lines trim to
    nothing).  Otherwise the blocks split around one matching heading, and
    the content is the trimmed concatenation of the lines of the body of
    that section: paragraphs as they are, bulleted items behind a dash,
    nothing else.  The body contains no heading, so the branch of the
    content loop that copies heading text never adds anything, and nothing
    before the heading or after the section gets into the content. *)
Theorem extractSectionContent_cases (blocks : list block) (sectionHeading : string) :
  (Forall (fun b => isHeading b && QuickTodo.matchesHeading sectionHeading b = false)
          blocks
   /\ QuickTodo.extractSectionContent blocks sectionHeading = "")
  \/ exists pre h mid tail,
       sectionSplit (QuickTodo.matchesHeading sectionHeading) blocks pre h mid tail
       /\ QuickTodo.extractSectionContent blocks sectionHeading
          = JS.trim (contentLines mid).
Proof.
  unfold QuickTodo.extractSectionContent.
  destruct (SectionScanner.scanFrom (QuickTodo.matchesHeading sectionHeading) blocks 0 (-1))
    as [s' e'] eqn:Hscan.
  destruct (@scanFrom_shape (QuickTodo.matchesHeading sectionHeading) blocks 0 (-1) s' e'
              ltac:(lia) Hscan)
    as [[-> [(-> & Hnone & _) | (Hne & _)]] | (pre & h & mid & tail & Hsplit & -> & ->)].
  - left. split; [exact Hnone | reflexivity].
  - now contradiction Hne.
  - right. exists pre, h, mid, tail. split; [exact Hsplit|].
    rewrite Z.add_0_l.
    assert (Hs : (Z.of_nat (length pre) =? -1) = false) by (apply Z.eqb_neq; lia).
    rewrite Hs.
    destruct Hsplit as (Hb & _ & _ & Hmid & Htail).
    assert (Hslice :
      QuickTodo.slice blocks (Z.of_nat (length pre) + 1)
        (if (match tail with
             | [] => -1
             | _ :: _ => Z.of_nat (length pre) + 1 + Z.of_nat (length mid)
             end =? -1)
         then Z.of_nat (length blocks)
         else match tail with
              | [] => -1
              | _ :: _ => Z.of_nat (length pre) + 1 + Z.of_nat (length mid)
              end)
      = mid).
    { destruct tail as [|n post].
      - cbn [Z.eqb]. rewrite Hb, app_nil_r.
        replace (Z.of_nat (length (pre ++ h :: mid)))
          with (Z.of_nat (length pre) + 1 + Z.of_nat (length mid))
          by (rewrite length_app; cbn [length]; lia).
        rewrite <- (app_nil_r mid) at 1. apply slice_body.
      - assert (He : (Z.of_nat (length pre) + 1 + Z.of_nat (length mid) =? -1) = false)
          by (apply Z.eqb_neq; lia).
        rewrite He, Hb. apply slice_body. }
    rewrite Hslice, (@addContent_body mid Hmid). reflexivity.
Qed.

(* ------------------------------------------------------------------ *)
(** ** Checking for and extracting project information *)
(* ------------------------------------------------------------------ *)

(** On a section that the scanner reports, the bullets are computed
    without an error. *)
Lemma sectionBullets_run (blocks : list block) (section : SectionScanner.section)
  (st : state) :
  SectionScanner.findProjectInfoSection blocks = Some section ->
  ProjectInfo.sectionBullets blocks section st = (Returned (infoBullets blocks), st).
Proof.
  intros Hsec. unfold ProjectInfo.sectionBullets, infoBullets. rewrite Hsec.
  destruct (@extractInfoBullets_body blocks section Hsec) as (pre & h & mid & tail & _ & -> & _).
  reflexivity.
Qed.

Lemma getAllBlocksRecursive_fails (pageId : string) (st : state) :
  isBlocks (nextReply (script st)) = false ->
  exists e,
    NotionClient.getAllBlocksRecursive pageId st
    = (Thrown e, step (GetAllBlocksRecursive pageId) st).
Proof.
  intros Hn. destruct st as [sc rnd lg]. unfold NotionClient.getAllBlocksRecursive.
  cbn [script] in Hn. destruct (getBlocksLike_fails (GetAllBlocksRecursive pageId) sc rnd lg Hn)
    as [e He].
  exists e. rewrite He. reflexivity.
Qed.

Lemma categorizeProjectInfo_step (bullets : list string) (st : state) :
  OpenAI.categorizeProjectInfo bullets st
  = (match nextReply (script st) with
     | Categorized b => Returned b
     | Raised e => Thrown e
     | _ => Thrown typeError
     end,
     step (CategorizeProjectInfo bullets) st).
Proof.
  unfold OpenAI.categorizeProjectInfo. unfold bind. rewrite call_step.
  now destruct (nextReply (script st)).
Qed.



(* ------------------------------------------------------------------ *)
(** ** The classification service: retries and fallbacks *)
(* ------------------------------------------------------------------ *)

Section Retry.

Variable A : Type.
Variable rq : request.
Variable decode : response -> A + jsError.
Variable fallback : A.

Local Abbreviation retryLoop := (retryLoop rq decode fallback).

Hypothesis decode_raised : forall e, decode (Raised e) = inr e.
Hypothesis decode_other :
  forall rs e, decode rs = inr e -> isRaised rs = false ->
               OpenAIClient.isRetryable e = false.

Lemma retryLoop_run (fuel : nat) :
  forall st,
    (length (script st) < fuel)%nat ->
    retryLoop fuel st
    = (Returned (match decode (settlingReply st) with
                 | inl a => a
                 | inr _ => fallback
                 end),
       afterRetries rq st).
Proof.
  induction fuel as [|fuel IH]; intros st Hlen; [lia|].
  destruct st as [sc rnd lg]. cbn [script] in Hlen.
  cbn [retryLoop]. unfold tryCatch, bind. rewrite call_run.
  unfold settlingReply, afterRetries. cbn [script randoms log].
  destruct (decode (nextReply sc)) as [a | e] eqn:Hdec.
  - (* decoded *)
    assert (Hnr : retryableReply (nextReply sc) = false).
    { destruct (nextReply sc) eqn:Hn; try reflexivity.
      rewrite decode_raised in Hdec. discriminate Hdec. }
    destruct sc as [|rs sc']; cbn [nextReply] in *.
    + cbn [settled retried retryLog flat_map app tl nextReply]. rewrite Hdec.
      reflexivity.
    + cbn [settled retried]. rewrite Hnr.
      cbn [retryLog flat_map app tl nextReply]. rewrite Hdec. reflexivity.
  - unfold throw.
    destruct (OpenAIClient.isRetryable e) eqn:Hre.
    + (* retried *)
      assert (Hraised : nextReply sc = Raised e).
      { destruct (nextReply sc) eqn:Hn.
        8: { rewrite decode_raised in Hdec. now injection Hdec as ->. }
        all: pose proof (@decode_other _ _ Hdec eq_refl) as Hx; congruence. }
      destruct sc as [|rs sc']; cbn [nextReply] in Hraised.
      * injection Hraised as <-. vm_compute in Hre. discriminate Hre.
      * subst rs. cbn [settled retried retryableReply]. rewrite Hre.
        unfold sleep. cbn [script randoms log tl length] in *.
        rewrite IH by (cbn [script]; lia).
        unfold settlingReply, afterRetries. cbn [script randoms log].
        cbn [retryLog flat_map]. rewrite <- !app_assoc. reflexivity.
    + (* settled by an error *)
      assert (Hnr : retryableReply (nextReply sc) = false).
      { destruct (nextReply sc) eqn:Hn; try reflexivity.
        rewrite decode_raised in Hdec. injection Hdec as ->. exact Hre. }
      destruct sc as [|rs sc']; cbn [nextReply] in *.
      * cbn [settled retried retryLog flat_map app tl nextReply]. rewrite Hdec.
        reflexivity.
      * cbn [settled retried]. rewrite Hnr.
        cbn [retryLog flat_map app tl nextReply]. rewrite Hdec. reflexivity.
Qed.

End Retry.

Lemma decodeCategories_raised (parseCategories : string -> option OpenAIClient.rawBundle)
  (e : jsError) :
  decodeCategories parseCategories (Raised e) = inr e.
Proof. reflexivity. Qed.

Lemma decodeCategories_other (parseCategories : string -> option OpenAIClient.rawBundle)
  (rs : response) (e : jsError) :
  decodeCategories parseCategories rs = inr e -> isRaised rs = false ->
  OpenAIClient.isRetryable e = false.
Proof.
  destruct rs; cbn; intros H Hr; try discriminate Hr;
    try (injection H as <-; reflexivity).
  destruct (parseCategories v); [discriminate H|]. injection H as <-. reflexivity.
Qed.

Lemma decodeTasks_raised (parseTasks : string -> option OpenAIClient.rawParse)
  (todoText : string) (e : jsError) :
  decodeTasks parseTasks todoText (Raised e) = inr e.
Proof. reflexivity. Qed.

Lemma decodeTasks_other (parseTasks : string -> option OpenAIClient.rawParse)
  (todoText : string) (rs : response) (e : jsError) :
  decodeTasks parseTasks todoText rs = inr e -> isRaised rs = false ->
  OpenAIClient.isRetryable e = false.
Proof.
  destruct rs; cbn; intros H Hr; try discriminate Hr;
    try (injection H as <-; reflexivity).
  destruct (parseTasks v); [discriminate H|]. injection H as <-. reflexivity.
Qed.

(** The body of [categorizeProjectInfo] on bullets is the retry loop of
    its request. *)
Lemma categorizeFuel_retryLoop (parseCategories : string -> option OpenAIClient.rawBundle)
  (bullet : string) (bullets : list string) (fuel : nat) :
  forall st,
    OpenAIClient.categorizeFuel parseCategories fuel (bullet :: bullets) st
    = retryLoop (CategorizeProjectInfo (bullet :: bullets))
        (decodeCategories parseCategories)
        (mkBundle [] [] [] [] (bullet :: bullets)) fuel st.
Proof.
  induction fuel as [|fuel IH]; intros st; [reflexivity|].
  cbn [OpenAIClient.categorizeFuel retryLoop]. unfold tryCatch, bind.
  rewrite call_step.
  destruct (nextReply (script st)) as [ | | | | | | content | e];
    cbn [decodeCategories]; try reflexivity.
  - destruct (parseCategories content); reflexivity.
  - unfold throw. destruct (OpenAIClient.isRetryable e); [|reflexivity].
    unfold sleep. apply IH.
Qed.

Lemma parseFuel_retryLoop (parseTasks : string -> option OpenAIClient.rawParse)
  (todoText : string) (fuel : nat) :
  noText todoText = false ->
  forall st,
    OpenAIClient.parseFuel parseTasks fuel todoText st
    = retryLoop (ParseQuickTodo todoText) (decodeTasks parseTasks todoText)
        (OpenAIClient.BareTask (basicTask todoText)) fuel st.
Proof.
  intros Htext.
  assert (Hguard : negb (JS.truthy todoText)
                   || (String.length (JS.trim todoText) =? 0)%nat = false).
  { unfold noText in Htext. apply orb_false_iff. split.
    - destruct todoText; [discriminate Htext | reflexivity].
    - destruct (JS.trim todoText); [discriminate Htext | reflexivity]. }
  induction fuel as [|fuel IH]; intros st; [reflexivity|].
  cbn [OpenAIClient.parseFuel retryLoop]. rewrite Hguard.
  unfold tryCatch, bind. rewrite call_step.
  destruct (nextReply (script st)) as [ | | | | | | content | e];
    cbn [decodeTasks]; try reflexivity.
  - destruct (parseTasks content) as [result|]; [|reflexivity].
    destruct (OpenAIClient.rawTasks result); reflexivity.
  - unfold throw. destruct (OpenAIClient.isRetryable e); [|reflexivity].
    unfold sleep. apply IH.
Qed.


Lemma orElse_filled (x : option string) (d : string) :
  d <> "" -> OpenAIClient.orElse x d <> "".
Proof.
  intros Hd. unfold OpenAIClient.orElse. destruct x as [s|]; [|exact Hd].
  destruct (JS.truthy s) eqn:E; [now apply truthy_iff | exact Hd].
Qed.

Lemma withDefaults_filled (todoText : string) (task : OpenAIClient.rawTask) :
  todoText <> "" ->
  title (OpenAIClient.withDefaults todoText task) <> ""
  /\ priority (OpenAIClient.withDefaults todoText task) <> "".
Proof.
  intros Ht. unfold OpenAIClient.withDefaults. cbn [title priority].
  split; apply orElse_filled; [exact Ht | discriminate].
Qed.

(** [parseQuickTodo] throws only on a text without content, before any
    request.  On any other text it never throws: it repeats its request,
    pausing 2 s, as long as the reply is an error with status 429 or code
    ETIMEDOUT; the first other reply settles the call.  A content that
    parses gives a task list (the tasks array, or else the top level as
    one task) in which every task has a title and a priority; anything
    else gives the bare task of the whole text, an object that has no
    [tasks] field. *)
Theorem parseQuickTodo_settles
  (parseTasks : string -> option OpenAIClient.rawParse)
  (todoText : string) (st : state) :
  (noText todoText = true ->
   OpenAIClient.parseQuickTodo parseTasks todoText st
   = (Thrown OpenAIClient.emptyTextError, st))
  /\ (noText todoText = false ->
      exists p,
        OpenAIClient.parseQuickTodo parseTasks todoText st
        = (Returned p, afterRetries (ParseQuickTodo todoText) st)
        /\ p = match decodeTasks parseTasks todoText (settlingReply st) with
               | inl withTasks => withTasks
               | inr _ => OpenAIClient.BareTask (basicTask todoText)
               end
        /\ (OpenAIClient.tasksField p = None
            <-> forall content result,
                  settlingReply st = Value content ->
                  parseTasks content <> Some result)
        /\ forall tasks,
             OpenAIClient.tasksField p = Some tasks ->
             Forall (fun task => title task <> "" /\ priority task <> "") tasks).
Proof.
  unfold OpenAIClient.parseQuickTodo. split.
  - intros Hblank. cbn [OpenAIClient.parseFuel].
    assert (Hguard : negb (JS.truthy todoText)
                     || (String.length (JS.trim todoText) =? 0)%nat = true).
    { unfold noText in Hblank. apply orb_true_iff. right.
      destruct (JS.trim todoText); [reflexivity | discriminate Hblank]. }
    rewrite Hguard. reflexivity.
  - intros Htext.
    assert (Hne : todoText <> "").
    { intros ->. vm_compute in Htext. discriminate Htext. }
    rewrite (@parseFuel_retryLoop parseTasks todoText _ Htext).
    rewrite (@retryLoop_run _ (ParseQuickTodo todoText)
               (decodeTasks parseTasks todoText)
               (OpenAIClient.BareTask (basicTask todoText))
               (decodeTasks_raised parseTasks todoText)
               (@decodeTasks_other parseTasks todoText)) by lia.
    eexists. split; [reflexivity|]. split; [reflexivity|].
    unfold decodeTasks.
    destruct (settlingReply st) as [ | | | | | | content | e];
      try (split; [split; [intros _ ? ? Hc; discriminate Hc | reflexivity]
                  | intros ? Ht; discriminate Ht]).
    destruct (parseTasks content) as [result|] eqn:Hp.
    + split.
      * split; [intros H; discriminate H|].
        intros H. now contradiction (H content result eq_refl).
      * intros tasks [= <-].
        destruct (OpenAIClient.rawTasks result) as [raws|].
        -- apply Forall_forall. intros task Hin. apply in_map_iff in Hin.
           destruct Hin as (raw & <- & _). now apply withDefaults_filled.
        -- constructor; [now apply withDefaults_filled | constructor].
    + split.
      * split; [|reflexivity]. intros _ content' result [= <-]. congruence.
      * intros tasks Ht. discriminate Ht.
Qed.
